(** * YouTube comments analyser: the chunked-analysis pipeline

    A shallow embedding of [analyzer.py]: the text sanitizer
    ([YouTubeCommentsTool.clean_escape_characters]), the batcher
    ([CommentsAnalysis.split_comments]), the JSON repair
    ([fix_trailing_commas]), the result store ([append_result_to_json]),
    the merger ([merge_results]) and the pipeline driver ([run]).

    Python strings are sequences of Unicode code points, JSON values are the
    values [json.loads] produces, the three files of the pipeline and the
    log are an explicit state threaded through the driver. *)

From Stdlib Require Import String Ascii.
From Stdlib Require Import List NArith ZArith Bool Arith Lia Permutation.
Import ListNotations.

Set Implicit Arguments.
Local Set Warnings "-register-all".

(* ================================================================== *)
(** * Python strings *)
(* ================================================================== *)

(** A Python [str] is a sequence of code points. *)
Definition char := N.
Definition pystr := list char.

(** A literal, written as a Rocq string of ASCII characters. *)
Definition str (s : string) : pystr :=
  map N_of_ascii (list_ascii_of_string s).

(** Code point 34, the double quote. *)
Definition dquote : char := 34%N.

(** A literal in which every apostrophe stands for a double quote: JSON text
    is written [{'a': 1}] and read [{"a": 1}]. *)
Definition jtext (s : string) : pystr :=
  map (fun c => if N.eqb c 39 then dquote else c) (str s).

Definition chr (a : ascii) : char := N_of_ascii a.

Definition is_chr (a : ascii) (c : char) : bool := N.eqb c (chr a).
Definition is_dquote (c : char) : bool := N.eqb c dquote.
Definition is_backslash : char -> bool := is_chr "\".

Definition in_range (lo hi c : N) : bool := N.leb lo c && N.leb c hi.

(** [[0-9A-Fa-f]] *)
Definition is_hex (c : char) : bool :=
  in_range 48 57 c || in_range 65 70 c || in_range 97 102 c.

(** [\s] on a [str] pattern, and the characters [str.strip()] removes:
    the code points for which [str.isspace()] holds. *)
Definition is_space (c : char) : bool :=
  in_range 9 13 c || in_range 28 32 c
  || N.eqb c 133 || N.eqb c 160 || N.eqb c 5760
  || in_range 8192 8202 c || N.eqb c 8232 || N.eqb c 8233
  || N.eqb c 8239 || N.eqb c 8287 || N.eqb c 12288.

Definition space : char := 32%N.

(** [s.lstrip()], [s.rstrip()], [s.strip()] *)
Fixpoint lstrip (s : pystr) : pystr :=
  match s with
  | c :: t => if is_space c then lstrip t else s
  | [] => []
  end.

Definition rstrip (s : pystr) : pystr := rev (lstrip (rev s)).

Definition strip (s : pystr) : pystr := rstrip (lstrip s).

(* ================================================================== *)
(** * The fragment of [re] the program uses *)
(* ================================================================== *)

Module Re.

(** Every pattern of the program is a sequence of one-character classes, some
    of them under a greedy star: [x{4}] is four copies of [x], [x+] is [x]
    followed by [x*]. *)
Inductive atom : Type :=
| One (p : char -> bool)
| Star (p : char -> bool).

Definition pattern := list atom.

Definition plus (p : char -> bool) : pattern := [One p; Star p].
Definition times (n : nat) (p : char -> bool) : pattern := repeat (One p) n.

(** A backtracking match anchored at the head of [s]; the result is the text
    left after the match. A star first takes as many characters as it can and
    gives them back one at a time while the rest of the pattern fails. *)
Fixpoint match_here (pat : pattern) (s : pystr) {struct pat} : option pystr :=
  match pat with
  | [] => Some s
  | One p :: pat' =>
      match s with
      | c :: t => if p c then match_here pat' t else None
      | [] => None
      end
  | Star p :: pat' =>
      (fix star (s : pystr) : option pystr :=
         match s with
         | c :: t =>
             if p c then
               match star t with
               | Some r => Some r
               | None => match_here pat' s
               end
             else match_here pat' s
         | [] => match_here pat' s
         end) s
  end.

(** [re.sub(pat, repl, s)] for a literal replacement: the leftmost match is
    replaced and the scan goes on after it. No pattern of the program matches
    the empty string (each starts with a one-character class); an empty match
    is treated as no match. The fuel is the length of the text, which every
    step shortens. *)
Fixpoint sub_loop (fuel : nat) (pat : pattern) (repl s : pystr) : pystr :=
  match fuel, s with
  | _, [] => []
  | O, _ => s
  | S fuel', c :: t =>
      match match_here pat s with
      | Some rest =>
          if Nat.ltb (length rest) (length s)
          then repl ++ sub_loop fuel' pat repl rest
          else c :: sub_loop fuel' pat repl t
      | None => c :: sub_loop fuel' pat repl t
      end
  end.

Definition sub (pat : pattern) (repl s : pystr) : pystr :=
  sub_loop (length s) pat repl s.

End Re.

(* ================================================================== *)
(** * Text sanitizer *)
(* ================================================================== *)

Import Re.

(** [r'\\u[0-9A-Fa-f]{4}'] and [r'\\U[0-9A-Fa-f]{8}'] *)
Definition pat_u4 : pattern := One is_backslash :: One (is_chr "u") :: times 4 is_hex.
Definition pat_U8 : pattern := One is_backslash :: One (is_chr "U") :: times 8 is_hex.

(** [r'\\n'] and the like: a backslash followed by one given character. *)
Definition pat_esc (p : char -> bool) : pattern := [One is_backslash; One p].

(** [YouTubeCommentsTool.clean_escape_characters] *)
Definition clean_escape_characters (text : pystr) : pystr :=
  let text := sub pat_u4 [] text in
  let text := sub pat_U8 [] text in
  let text := sub (pat_esc (is_chr "n")) [space] text in
  let text := sub (pat_esc (is_chr "t")) [space] text in
  let text := sub (pat_esc (is_chr "r")) [space] text in
  let text := sub (pat_esc is_dquote) [] text in
  let text := sub (pat_esc (is_chr "'")) [chr "'"] text in
  let text := sub (pat_esc (is_chr "$")) [chr "$"] text in
  let text := sub [One is_backslash] [] text in
  let text := sub [One is_dquote] [] text in
  let text := strip (sub (plus is_space) [space] text) in
  text.

(* ================================================================== *)
(** * JSON repair *)
(* ================================================================== *)

(** [r',\s*]'] and [r',\s*}'] *)
Definition pat_trailing (close : ascii) : pattern :=
  [One (is_chr ","); Star is_space; One (is_chr close)].

(** [CommentsAnalysis.fix_trailing_commas] *)
Definition fix_trailing_commas (json_str : pystr) : pystr :=
  let json_str := sub (pat_trailing "]") [chr "]"] json_str in
  let json_str := sub (pat_trailing "}") [chr "}"] json_str in
  json_str.

(* ================================================================== *)
(** * JSON values *)
(* ================================================================== *)

(** The values [json.loads] produces: [None], [bool], [int], [float] (kept as
    its literal), [str], [list] and [dict]. A [dict] is the list of its items
    in insertion order, which is the order [items()] iterates in. *)
Inductive json : Type :=
| JNull
| JBool (b : bool)
| JInt (n : Z)
| JFloat (literal : pystr)
| JStr (s : pystr)
| JArr (l : list json)
| JObj (items : list (pystr * json)).

(** [isinstance(v, list)] and [isinstance(v, dict)] *)
Definition is_list (v : json) : bool :=
  match v with JArr _ => true | _ => false end.

Definition is_dict (v : json) : bool :=
  match v with JObj _ => true | _ => false end.

(** [iter(v)]: the elements of a list, the characters of a string, the keys
    of a dict; [None] is the [TypeError] of a value that is not iterable. *)
Definition py_iter (v : json) : option (list json) :=
  match v with
  | JArr l => Some l
  | JStr s => Some (map (fun c => JStr [c]) s)
  | JObj items => Some (map (fun kv => JStr (fst kv)) items)
  | JNull | JBool _ | JInt _ | JFloat _ => None
  end.

(** [len(v)], with [None] for the [TypeError]. *)
Definition py_len (v : json) : option Z :=
  match v with
  | JArr l => Some (Z.of_nat (length l))
  | JStr s => Some (Z.of_nat (length s))
  | JObj items => Some (Z.of_nat (length items))
  | JNull | JBool _ | JInt _ | JFloat _ => None
  end.

(** A slice index is clamped into [0..len]; a negative one counts from the
    end. *)
Definition clamp_index (len i : Z) : Z :=
  if (i <? 0)%Z then Z.max 0 (i + len) else Z.min i len.

(** [l[lo:hi]] *)
Definition py_slice (A : Type) (l : list A) (lo hi : Z) : list A :=
  let len := Z.of_nat (length l) in
  let lo' := clamp_index len lo in
  let hi' := clamp_index len hi in
  firstn (Z.to_nat (hi' - lo')) (skipn (Z.to_nat lo') l).

(** [v[lo:hi]]: lists and strings can be sliced, a dict cannot. *)
Definition py_getslice (v : json) (lo hi : Z) : option json :=
  match v with
  | JArr l => Some (JArr (py_slice l lo hi))
  | JStr s => Some (JStr (py_slice s lo hi))
  | _ => None
  end.

Fixpoint range_up (fuel : nat) (i stop step : Z) : list Z :=
  match fuel with
  | O => []
  | S fuel' => if (i <? stop)%Z then i :: range_up fuel' (i + step) stop step else []
  end.

Fixpoint range_down (fuel : nat) (i stop step : Z) : list Z :=
  match fuel with
  | O => []
  | S fuel' => if (stop <? i)%Z then i :: range_down fuel' (i + step) stop step else []
  end.

(** [range(start, stop, step)]; a zero step is a [ValueError]. The distance
    to cover bounds the number of elements. *)
Definition py_range (start stop step : Z) : option (list Z) :=
  if (step =? 0)%Z then None
  else if (0 <? step)%Z then Some (range_up (Z.to_nat (stop - start)) start stop step)
  else Some (range_down (Z.to_nat (start - stop)) start stop step).

(** A list comprehension whose body may raise. *)
Fixpoint traverse (A B : Type) (f : A -> option B) (l : list A) : option (list B) :=
  match l with
  | [] => Some []
  | a :: l' =>
      match f a with
      | None => None
      | Some b =>
          match traverse f l' with
          | None => None
          | Some bs => Some (b :: bs)
          end
      end
  end.
(** ** What [json.dump] can write *)

(** A lone surrogate, which a [str] can hold and [json.loads] produces from
    an escape such as [\ud83d], has no UTF-8 encoding: writing it to a file
    opened with [encoding="utf-8"] raises [UnicodeEncodeError]
    ([ensure_ascii=False] leaves it unescaped). *)
Definition is_surrogate (c : char) : bool := in_range 55296 57343 c.

Definition encodable_str (s : pystr) : bool :=
  forallb (fun c => negb (is_surrogate c)) s.

(** No string and no key of the value holds a lone surrogate. *)
Fixpoint encodable (v : json) : bool :=
  match v with
  | JNull | JBool _ | JInt _ | JFloat _ => true
  | JStr s => encodable_str s
  | JArr l =>
      (fix all (l : list json) : bool :=
         match l with
         | [] => true
         | x :: t => encodable x && all t
         end) l
  | JObj items =>
      (fix all (l : list (pystr * json)) : bool :=
         match l with
         | [] => true
         | kv :: t => encodable_str (fst kv) && encodable (snd kv) && all t
         end) items
  end.

(** The nesting of lists and dicts, which the encoder follows by
    recursion. *)
Fixpoint depth (v : json) : nat :=
  match v with
  | JArr l =>
      S ((fix deepest (l : list json) : nat :=
            match l with
            | [] => 0
            | x :: t => Nat.max (depth x) (deepest t)
            end) l)
  | JObj items =>
      S ((fix deepest (l : list (pystr * json)) : nat :=
            match l with
            | [] => 0
            | kv :: t => Nat.max (depth (snd kv)) (deepest t)
            end) items)
  | JNull | JBool _ | JInt _ | JFloat _ | JStr _ => 0
  end.

(** [json.dump(v, f, ensure_ascii=False, indent=4)] into a file opened with
    [encoding="utf-8"] runs to its end: nothing in [v] fails to encode, and
    [v] is not nested deeper than the recursion limit of the interpreter
    allows ([RecursionError]). The interpreter that runs the program nests
    at least two levels, those of a report of empty lists; [room] is what it
    allows beyond. Numbers are written as they were read. *)
Definition dumpable (room : nat) (v : json) : bool :=
  encodable v && (depth v <=? 2 + room).


(* ================================================================== *)
(** * Batcher *)
(* ================================================================== *)

(** [CommentsAnalysis.split_comments]:
    [[comments[i:i + chunk_size] for i in range(0, len(comments), chunk_size)]] *)
Definition split_comments (comments : json) (chunk_size : Z) : option (list json) :=
  match py_len comments with
  | None => None
  | Some n =>
      match py_range 0 n chunk_size with
      | None => None
      | Some starts =>
          traverse (fun i => py_getslice comments i (i + chunk_size)) starts
      end
  end.

(* ================================================================== *)
(** * The report under construction *)
(* ================================================================== *)

Fixpoint pystr_eqb (a b : pystr) : bool :=
  match a, b with
  | [], [] => true
  | x :: a', y :: b' => N.eqb x y && pystr_eqb a' b'
  | _, _ => false
  end.

(** [final_results]: a dict from theme name to the list of its records, in
    insertion order. *)
Definition report := list (pystr * list json).

Definition final_results_init : report :=
  [ (str "Requests", []); (str "Complaints", []); (str "Suggestions", []);
    (str "Praise", []); (str "Troubleshooting", []); (str "Other", []) ].

(** [key in d] *)
Definition dict_mem (key : pystr) (d : report) : bool :=
  existsb (fun kv => pystr_eqb (fst kv) key) d.

(** [d[key]]: [None] is the [KeyError]. *)
Fixpoint dict_get (d : report) (key : pystr) : option (list json) :=
  match d with
  | [] => None
  | (k, l) :: d' => if pystr_eqb k key then Some l else dict_get d' key
  end.

(** [d[key].extend(value)]: the list held under [key] grows in place by the
    elements of [value]; [None] when the key is missing or [value] is not
    iterable. *)
Fixpoint dict_extend_items (d : report) (key : pystr) (elems : list json) : option report :=
  match d with
  | [] => None
  | (k, l) :: d' =>
      if pystr_eqb k key then Some ((k, l ++ elems) :: d')
      else option_map (cons (k, l)) (dict_extend_items d' key elems)
  end.

Definition dict_extend (d : report) (key : pystr) (value : json) : option report :=
  match py_iter value with
  | None => None
  | Some elems => dict_extend_items d key elems
  end.

(** The body of the inner loop of [merge_results], for one item of an
    entry. *)
Definition merge_item (final_results : report) (kv : pystr * json) : option report :=
  let (key, value) := kv in
  if dict_mem key final_results && is_list value
  then dict_extend final_results key value
  else dict_extend final_results (str "Other") value.

(** [for key, value in entry.items(): ...] *)
Fixpoint merge_items (final_results : report) (items : list (pystr * json)) : option report :=
  match items with
  | [] => Some final_results
  | kv :: items' =>
      match merge_item final_results kv with
      | None => None
      | Some final_results' => merge_items final_results' items'
      end
  end.

(** What [json.dump(final_results, f)] stores. *)
Definition report_json (d : report) : json :=
  JObj (map (fun kv => (fst kv, JArr (snd kv))) d).

(* ================================================================== *)
(** * Files and log *)
(* ================================================================== *)

(** A file of the pipeline. [Missing]: there is no file. [Unreadable]: the
    file cannot be opened for reading, or [json.load] raises on its text.
    [Holds j]: the file is the text [json.dump] writes for [j], in full, and
    [json.load] reads it.
    [Foreign j over]: any other text that [json.load] reads as [j], such as
    a file written by hand; [over v] is the file once [json.dump] has written
    the text of [v] over its start, without truncation, as far as it gets. *)
Inductive file : Type :=
| Missing
| Unreadable
| Holds (j : json)
| Foreign (j : json) (over : json -> file).

(** [json.load(f)] after [open(path, "r")]: [None] when either raises. *)
Definition json_load (f : file) : option json :=
  match f with
  | Holds j | Foreign j _ => Some j
  | Missing | Unreadable => None
  end.

Inductive level : Type := INFO | ERROR.

(** The texts the program logs, without the rendering of exceptions. The
    [logging.debug] calls are below the configured level and leave no
    record. *)
Inductive message : Type :=
| ResultsFileCreated
| FailedToCreateFile
| JsonDecodeError
| ProblematicResult (text : pystr)
| ResultAppended
| FailedToAppend
| UnexpectedEntryType (entry : json)
| ResultsMerged
| FailedToMerge
| FailedToLoadComments
| LoadedComments (first : json)
| TaskRawResult (task : nat) (text : pystr)
| JsonDecodeErrorAfterValidation
| TaskOutput (task : nat) (text : pystr)
| AnErrorOccurred.

(** The world the analysis runs in: the comment source at
    [comments_file_path], [raw_results.json], [final_results.json] (three
    distinct paths, as in the main program), whether the two output paths can
    be opened for writing, the log, the chunks handed to the agent so far,
    the nesting [json.dump] can follow beyond two levels, the nesting
    [json.load] can follow beyond two levels where it reads
    [raw_results.json] (the two limits differ by a few levels), and, for a
    rewrite of [raw_results.json] in place on which [json.dump] raises
    midway, whether the text of the old list is still whole (it is when
    nothing was written past the part both texts share). *)
Record state : Type := mkState {
  comments_file : file;
  raw_results_file : file;
  final_results_file : file;
  raw_writable : bool;
  final_writable : bool;
  log : list (level * message);
  invoked : list json;
  recursion_room : nat;
  load_room : nat;
  torn_keeps : json -> json -> bool
}.

Definition add_log (records : list (level * message)) (st : state) : state :=
  mkState (comments_file st) (raw_results_file st) (final_results_file st)
          (raw_writable st) (final_writable st) (log st ++ records) (invoked st)
          (recursion_room st) (load_room st) (torn_keeps st).

Definition logging (lv : level) (m : message) (st : state) : state :=
  add_log [(lv, m)] st.

Definition set_comments_file (f : file) (st : state) : state :=
  mkState f (raw_results_file st) (final_results_file st)
          (raw_writable st) (final_writable st) (log st) (invoked st)
          (recursion_room st) (load_room st) (torn_keeps st).

Definition set_raw_file (f : file) (st : state) : state :=
  mkState (comments_file st) f (final_results_file st)
          (raw_writable st) (final_writable st) (log st) (invoked st)
          (recursion_room st) (load_room st) (torn_keeps st).

Definition set_final_file (f : file) (st : state) : state :=
  mkState (comments_file st) (raw_results_file st) f
          (raw_writable st) (final_writable st) (log st) (invoked st)
          (recursion_room st) (load_room st) (torn_keeps st).

Definition add_invoked (chunks : list json) (st : state) : state :=
  mkState (comments_file st) (raw_results_file st) (final_results_file st)
          (raw_writable st) (final_writable st) (log st) (invoked st ++ chunks)
          (recursion_room st) (load_room st) (torn_keeps st).

Definition record_invocation (chunk : json) (st : state) : state :=
  add_invoked [chunk] st.

(** [json.dump(v, f)] into a file just opened with ["w"], which empties it:
    the text of [v], or a text cut short where [json.dump] raised, which is
    no JSON. *)
Definition written (room : nat) (v : json) : file :=
  if dumpable room v then Holds v else Unreadable.

(** [CommentsAnalysis.initialize_results_file], called by the constructor. *)
Definition initialize_results_file (st : state) : state :=
  if raw_writable st
  then logging INFO ResultsFileCreated
         (set_raw_file (written (recursion_room st) (JArr [])) st)
  else logging ERROR FailedToCreateFile st.

(** The outer loop of [merge_results]: an entry that is not a dict is logged
    and skipped; [None] is an exception raised by an item. *)
Fixpoint merge_entries (entries : list json) (final_results : report) (st : state)
  : state * option report :=
  match entries with
  | [] => (st, Some final_results)
  | entry :: entries' =>
      match entry with
      | JObj items =>
          match merge_items final_results items with
          | None => (st, None)
          | Some final_results' => merge_entries entries' final_results' st
          end
      | _ => merge_entries entries' final_results
               (logging ERROR (UnexpectedEntryType entry) st)
      end
  end.

(** [CommentsAnalysis.merge_results]. Every exception ends in the same
    record of the log; one raised by [json.dump] leaves the report file
    opened, emptied and cut short. *)
Definition merge_results (st : state) : state :=
  match json_load (raw_results_file st) with
  | None => logging ERROR FailedToMerge st
  | Some all_results =>
      match py_iter all_results with
      | None => logging ERROR FailedToMerge st
      | Some entries =>
          match merge_entries entries final_results_init st with
          | (st', None) => logging ERROR FailedToMerge st'
          | (st', Some final_results) =>
              if final_writable st' then
                if dumpable (recursion_room st') (report_json final_results)
                then logging INFO ResultsMerged
                       (set_final_file (Holds (report_json final_results)) st')
                else logging ERROR FailedToMerge (set_final_file Unreadable st')
              else logging ERROR FailedToMerge st'
          end
      end
  end.

(** What [json.loads] does with a text: it returns a value, raises
    [JSONDecodeError], or raises another exception ([RecursionError] on
    deep nesting, [ValueError] on an integer of too many digits). *)
Inductive parsed : Type :=
| Parsed (v : json)
| DecodeError
| LoadsRaised.

(** Where [json.loads] is called from: the loop of [run], or
    [append_result_to_json], one frame deeper, where less nesting is left
    before [RecursionError]. *)
Inductive caller : Type := InRun | InAppend.

Section Driver.

Variable json_loads : caller -> pystr -> parsed.

(** The agent, task and crew built for chunk number [idx] and kicked off on
    it: the text of the result ([result] itself when it is a [str], else
    [str(result)]), or [None] when the call raises. *)
Variable kickoff : nat -> json -> option pystr.

(** [f.seek(0); json.dump(results, f)] on the file opened with ["r+"]: the
    file is not truncated. The text of a list with one more element is
    longer than the text of the list, so it replaces it when [json.dump]
    runs to its end; a later [json.load] reads it when the list is not
    nested deeper than it follows. *)
Definition rewritten (st : state) (old results : json) : file :=
  match raw_results_file st with
  | Foreign _ over => over results
  | _ =>
      if dumpable (recursion_room st) results then
        if depth results <=? 2 + load_room st then Holds results else Unreadable
      else if torn_keeps st old results then Holds old
      else Unreadable
  end.

(** [CommentsAnalysis.append_result_to_json]. [JSONDecodeError] is caught by
    the inner handler, every other exception by the outer one. *)
Definition append_result_to_json (result : pystr) (st : state) : state :=
  if negb (raw_writable st) then logging ERROR FailedToAppend st else
  match json_load (raw_results_file st) with
  | None => logging ERROR FailedToAppend st
  | Some results =>
      match json_loads InAppend (fix_trailing_commas result) with
      | DecodeError =>
          logging ERROR (ProblematicResult result) (logging ERROR JsonDecodeError st)
      | LoadsRaised => logging ERROR FailedToAppend st
      | Parsed json_result =>
          match results with
          | JArr l =>
              let results' := JArr (l ++ [json_result]) in
              let st' := set_raw_file (rewritten st results results') st in
              if dumpable (recursion_room st) results'
              then logging INFO ResultAppended st'
              else logging ERROR FailedToAppend st'
          | _ => logging ERROR FailedToAppend st
          end
      end
  end.

(** One iteration of the loop of [run], after the agent has answered. Only
    [JSONDecodeError] is caught here: on another exception of [json.loads]
    the loop is left ([false]). *)
Definition handle_result (idx : nat) (result : pystr) (st : state) : state * bool :=
  let fixed_result := fix_trailing_commas result in
  let st := logging INFO (TaskRawResult (idx + 1) fixed_result) st in
  match json_loads InRun fixed_result with
  | Parsed _ =>
      (logging INFO (TaskOutput (idx + 1) fixed_result)
         (append_result_to_json fixed_result st), true)
  | DecodeError =>
      (logging INFO (TaskOutput (idx + 1) fixed_result)
         (logging ERROR (ProblematicResult fixed_result)
            (logging ERROR JsonDecodeErrorAfterValidation st)), true)
  | LoadsRaised => (st, false)
  end.

(** [for idx, chunk in enumerate(comments_chunks): ...]; the second component
    tells whether the loop ran to its end ([true]) or an exception left it
    ([false]). *)
Fixpoint process_chunks (idx : nat) (chunks : list json) (st : state) : state * bool :=
  match chunks with
  | [] => (st, true)
  | chunk :: chunks' =>
      let st := record_invocation chunk st in
      match kickoff idx chunk with
      | None => (st, false)
      | Some result =>
          match handle_result idx result st with
          | (st, true) => process_chunks (S idx) chunks' st
          | (st, false) => (st, false)
          end
      end
  end.

Definition chunk_size : Z := 20.

(** [CommentsAnalysis.run] *)
Definition run (st : state) : state :=
  match json_load (comments_file st) with
  | None => logging ERROR AnErrorOccurred st
  | Some JNull => logging ERROR FailedToLoadComments st
  | Some comments_data =>
      match split_comments comments_data chunk_size with
      | None => logging ERROR AnErrorOccurred st
      | Some comments_chunks =>
          match py_getslice comments_data 0 5 with
          | None => logging ERROR AnErrorOccurred st
          | Some first =>
              let st := logging INFO (LoadedComments first) st in
              match process_chunks 0 comments_chunks st with
              | (st, false) => logging ERROR AnErrorOccurred st
              | (st, true) => merge_results st
              end
          end
      end
  end.

(** The main program's [CommentsAnalysis(comments_file_path).run()]. *)
Definition comments_analysis (st : state) : state :=
  run (initialize_results_file st).

End Driver.

(* ================================================================== *)
(** * Vocabulary of the properties *)
(* ================================================================== *)

(** A text without backslash and without double quote: nothing in it is an
    escape sequence or a quote the sanitizer removes. *)
Definition plain (s : pystr) : bool :=
  forallb (fun c => negb (is_backslash c) && negb (is_dquote c)) s.

Definition no_backslash (s : pystr) : bool :=
  forallb (fun c => negb (is_backslash c)) s.

Definition starts_with_space (s : pystr) : bool :=
  match s with
  | c :: _ => is_space c
  | [] => false
  end.

Definition ends_with_space (s : pystr) : bool := starts_with_space (rev s).

(** Every whitespace character is the space, and no two are adjacent. *)
Fixpoint single_spaced (s : pystr) : bool :=
  match s with
  | [] => true
  | c :: t =>
      (if is_space c then N.eqb c space && negb (starts_with_space t) else true)
      && single_spaced t
  end.

(** Every maximal run of whitespace replaced by one space. *)
Fixpoint squeeze (s : pystr) : pystr :=
  match s with
  | [] => []
  | c :: t =>
      if is_space c
      then if starts_with_space t then squeeze t else space :: squeeze t
      else c :: squeeze t
  end.

(** ** Trailing commas *)

Definition is_closer (c : char) : bool := is_chr "]" c || is_chr "}" c.

(** After optional whitespace the text goes on with a character of the
    class [p]. *)
Definition closes_with (p : char -> bool) (t : pystr) : bool :=
  match lstrip t with
  | c :: _ => p c
  | [] => false
  end.

(** A comma is trailing when a closing bracket or brace follows it,
    immediately or after whitespace. *)
Fixpoint has_trailing_comma (s : pystr) : bool :=
  match s with
  | [] => false
  | c :: t => (is_chr "," c && closes_with is_closer t) || has_trailing_comma t
  end.

(** The text without its trailing commas, and nothing else changed. *)
Fixpoint commas_removed (s : pystr) : pystr :=
  match s with
  | [] => []
  | c :: t =>
      if is_chr "," c && closes_with is_closer t
      then commas_removed t
      else c :: commas_removed t
  end.

(** The text without the commas in front of a closer of the class [p] and
    without the whitespace between such a comma and its closer. *)
Fixpoint trailing_removed (p : char -> bool) (s : pystr) : pystr :=
  match s with
  | [] => []
  | c :: t =>
      if is_chr "," c && closes_with p t
      then lstrip (trailing_removed p t)
      else c :: trailing_removed p t
  end.

(** ** Reports *)

(** The five themes other than "Other". *)
Definition themes : list pystr :=
  [str "Requests"; str "Complaints"; str "Suggestions"; str "Praise";
   str "Troubleshooting"].

Definition is_theme (key : pystr) : bool :=
  existsb (fun t => pystr_eqb t key) themes.

(** The elements of a value, as iteration yields them. *)
Definition elements (v : json) : list json :=
  match py_iter v with
  | Some l => l
  | None => []
  end.

Definition iterable (v : json) : bool :=
  match py_iter v with
  | Some _ => true
  | None => false
  end.

(** The (key, value) pairs of an entry of the store. *)
Definition entry_items (entry : json) : list (pystr * json) :=
  match entry with
  | JObj items => items
  | _ => []
  end.

(** Every value of every entry can be iterated. *)
Definition iterable_values (store : list json) : bool :=
  forallb (fun entry => forallb (fun kv => iterable (snd kv)) (entry_items entry)) store.

(** What a pair contributes to a theme: the elements of its value when its
    key is the theme and its value is a list. *)
Definition to_theme (theme : pystr) (kv : pystr * json) : list json :=
  if pystr_eqb theme (fst kv) && is_list (snd kv) then elements (snd kv) else [].

(** What a pair contributes to "Other": the elements of its value, unless
    its key is one of the five themes and its value is a list. *)
Definition to_other (kv : pystr * json) : list json :=
  if is_theme (fst kv) && is_list (snd kv) then [] else elements (snd kv).

(** The records of a theme, over every pair of every entry, in order. *)
Definition theme_records (theme : pystr) (store : list json) : list json :=
  flat_map (fun entry => flat_map (to_theme theme) (entry_items entry)) store.

Definition other_records (store : list json) : list json :=
  flat_map (fun entry => flat_map to_other (entry_items entry)) store.

(** A report with its six lists. *)
Definition report_of (r c s p t o : list json) : report :=
  [ (str "Requests", r); (str "Complaints", c); (str "Suggestions", s);
    (str "Praise", p); (str "Troubleshooting", t); (str "Other", o) ].

(** The final report the contract of the merger describes for a store. *)
Definition final_report (store : list json) : json :=
  report_json
    (report_of (theme_records (str "Requests") store)
               (theme_records (str "Complaints") store)
               (theme_records (str "Suggestions") store)
               (theme_records (str "Praise") store)
               (theme_records (str "Troubleshooting") store)
               (other_records store)).

(** The fold of [merge_results] without its log. *)
Fixpoint merged (entries : list json) (final_results : report) : option report :=
  match entries with
  | [] => Some final_results
  | JObj items :: entries' =>
      match merge_items final_results items with
      | None => None
      | Some final_results' => merged entries' final_results'
      end
  | _ :: entries' => merged entries' final_results
  end.

(** The report a result store determines, when it determines one. *)
Definition merge_outcome (raw : file) : option json :=
  match json_load raw with
  | Some all_results =>
      match py_iter all_results with
      | Some entries => option_map report_json (merged entries final_results_init)
      | None => None
      end
  | None => None
  end.

(** An insight record [{"comment": c, "insight": i}]. *)
Definition insight (c i : string) : json :=
  JObj [(str "comment", JStr (str c)); (str "insight", JStr (str i))].

(** ** Chunks *)

(** A list that [append_result_to_json] can write to raw_results.json in
    full and read back at the next chunk. *)
Definition storable (st : state) (results : json) : bool :=
  dumpable (recursion_room st) results && (depth results <=? 2 + load_room st).

(** What the answer of the agent for a chunk adds to the result store: [run]
    repairs and parses the text, and [append_result_to_json] repairs and
    parses it again before it stores the value. *)
Definition chunk_result (json_loads : caller -> pystr -> parsed) (result : pystr)
  : option json :=
  match json_loads InRun (fix_trailing_commas result) with
  | Parsed _ =>
      match json_loads InAppend (fix_trailing_commas (fix_trailing_commas result)) with
      | Parsed v => Some v
      | DecodeError | LoadsRaised => None
      end
  | DecodeError | LoadsRaised => None
  end.

(** The values stored for the chunks numbered [idxs], in order. *)
Definition stored_results (json_loads : caller -> pystr -> parsed)
    (answer : nat -> pystr) (idxs : list nat) : list json :=
  flat_map (fun i => match chunk_result json_loads (answer i) with
                     | Some v => [v]
                     | None => []
                     end) idxs.

(** The records logged for a chunk that fails to parse. *)
Definition malformed_log (idx : nat) (fixed_result : pystr) : list (level * message) :=
  [ (INFO, TaskRawResult (idx + 1) fixed_result);
    (ERROR, JsonDecodeErrorAfterValidation);
    (ERROR, ProblematicResult fixed_result);
    (INFO, TaskOutput (idx + 1) fixed_result) ].

(** The records logged for a chunk, while the result store is a list in a
    file that can be written, and the list with the value of the chunk can
    be written too. *)
Definition chunk_log (json_loads : caller -> pystr -> parsed) (idx : nat)
    (result : pystr) : list (level * message) :=
  let fixed_result := fix_trailing_commas result in
  match json_loads InRun fixed_result with
  | Parsed _ =>
      [(INFO, TaskRawResult (idx + 1) fixed_result)]
      ++ match json_loads InAppend (fix_trailing_commas fixed_result) with
         | Parsed _ => [(INFO, ResultAppended)]
         | DecodeError =>
             [(ERROR, JsonDecodeError); (ERROR, ProblematicResult fixed_result)]
         | LoadsRaised => [(ERROR, FailedToAppend)]
         end
      ++ [(INFO, TaskOutput (idx + 1) fixed_result)]
  | DecodeError => malformed_log idx fixed_result
  | LoadsRaised => [(INFO, TaskRawResult (idx + 1) fixed_result)]
  end.

(** The parser raises nothing but [JSONDecodeError] on the repaired answers
    of the first [n] chunks. *)
Definition decodes (json_loads : caller -> pystr -> parsed) (answer : nat -> pystr)
    (n : nat) : Prop :=
  forall i, i < n -> json_loads InRun (fix_trailing_commas (answer i)) <> LoadsRaised.

(** ** A sample run *)

(** Forty-one comments, hence three chunks; the agent answers the first with
    a trailing comma, the second with text that is not JSON, the third with
    well-formed JSON. *)
Definition sample_comments : list json := repeat (JStr (str "nice video")) 41.

Definition sample_answer (idx : nat) : pystr :=
  match idx with
  | 0 => jtext "{'Praise': [{'comment': 'c1', 'insight': 'i1'},],}"
  | 1 => str "Here is the analysis you asked for."
  | _ => jtext "{'Complaints': [{'comment': 'c3', 'insight': 'i3'}]}"
  end.

Definition sample_kickoff (idx : nat) (chunk : json) : option pystr :=
  Some (sample_answer idx).


(** A parser that knows the two well-formed answers. *)
Definition sample_loads (site : caller) (text : pystr) : parsed :=
  if pystr_eqb text (jtext "{'Praise': [{'comment': 'c1', 'insight': 'i1'}]}")
  then Parsed (JObj [(str "Praise", JArr [insight "c1" "i1"])])
  else if pystr_eqb text (jtext "{'Complaints': [{'comment': 'c3', 'insight': 'i3'}]}")
  then Parsed (JObj [(str "Complaints", JArr [insight "c3" "i3"])])
  else DecodeError.

(** An answer nested deeper than the parser follows, an agent that gives
    it for the second chunk, and a parser that raises on it. *)
Definition deep_answer : pystr := repeat (chr "[") 1200 ++ repeat (chr "]") 1200.

Definition sample_answer_deep (idx : nat) : pystr :=
  match idx with
  | 1 => deep_answer
  | _ => sample_answer idx
  end.

Definition sample_kickoff_deep (idx : nat) (chunk : json) : option pystr :=
  Some (sample_answer_deep idx).

Definition sample_loads_deep (site : caller) (text : pystr) : parsed :=
  if pystr_eqb text deep_answer then LoadsRaised else sample_loads site text.




(** A world with the three files given, where they can be written, with an
    empty log, an interpreter that leaves room for a nesting of about 1000,
    and a failed rewrite that tears the store. *)
Definition sample_world (comments raw final : file) : state :=
  mkState comments raw final true true [] [] 990 987 (fun _ _ => false).

Definition sample_state (comments : file) : state :=
  sample_world comments Missing Missing.

(* ================================================================== *)
(** * Comment fetcher *)
(* ================================================================== *)

(** [[0-9A-Za-z_-]] *)
Definition is_id_char (c : char) : bool :=
  in_range 48 57 c || in_range 65 90 c || in_range 97 122 c
  || is_chr "_" c || is_chr "-" c.

(** One alternative of [(?:v=|\/)([0-9A-Za-z_-]{11}).*]: the lead, then
    eleven characters of the class; the final [.*] matches whatever
    follows, the empty text included. *)
Definition pat_video_id (lead : pattern) : pattern := lead ++ times 11 is_id_char.

(** The match anchored at the head of [s], with its group 1: the first
    alternative is tried first. *)
Definition match_video_id (s : pystr) : option pystr :=
  match match_here (pat_video_id [One (is_chr "v"); One (is_chr "=")]) s with
  | Some _ => Some (firstn 11 (skipn 2 s))
  | None =>
      match match_here (pat_video_id [One (is_chr "/")]) s with
      | Some _ => Some (firstn 11 (skipn 1 s))
      | None => None
      end
  end.

(** [re.search]: the match at the leftmost position that has one. *)
Fixpoint search_video_id (s : pystr) : option pystr :=
  match match_video_id s with
  | Some id => Some id
  | None =>
      match s with
      | [] => None
      | _ :: t => search_video_id t
      end
  end.

(** [YouTubeCommentsTool.extract_video_id], on a [str]. *)
Definition extract_video_id (url : pystr) : option pystr := search_video_id url.

(** The texts the tool logs. *)
Inductive tool_message : Type :=
| InvalidUrl
| CommentsSaved
| FailedToSaveComments
| CommentsRetrieved (total : nat)
| ToolError.

(** The world of the main program: the files and log of the analysis,
    whether [comments.json] can be opened for writing, the records the tool
    logs (it runs before the analysis, so they precede those of the
    analysis), and the requests sent to the comments API, each with its
    video id and page token. *)
Record session : Type := mkSession {
  files : state;
  comments_writable : bool;
  tool_log : list (level * tool_message);
  requests : list (pystr * option pystr)
}.

Definition tool_logging (lv : level) (m : tool_message) (w : session) : session :=
  mkSession (files w) (comments_writable w) (tool_log w ++ [(lv, m)]) (requests w).

Definition record_request (video_id : pystr) (token : option pystr) (w : session)
  : session :=
  mkSession (files w) (comments_writable w) (tool_log w)
            (requests w ++ [(video_id, token)]).

Definition set_files (st : state) (w : session) : session :=
  mkSession st (comments_writable w) (tool_log w) (requests w).

(** [YouTubeCommentsTool.save_comments_to_json]: the file is opened with
    ["w"], so a [json.dump] that raises leaves it cut short. *)
Definition save_comments_to_json (comments : list pystr) (w : session) : session :=
  if comments_writable w then
    let data := JArr (map JStr comments) in
    let room := recursion_room (files w) in
    let w' := set_files (set_comments_file (written room data) (files w)) w in
    if dumpable room data
    then tool_logging INFO CommentsSaved w'
    else tool_logging ERROR FailedToSaveComments w'
  else tool_logging ERROR FailedToSaveComments w.

(** [not next_page_token] *)
Definition no_token (token : option pystr) : bool :=
  match token with
  | None | Some [] => true
  | Some (_ :: _) => false
  end.

(** How the loop over the pages ends: with the comments gathered, with an
    exception, or not within the steps allotted. *)
Inductive fetched : Type :=
| Comments (comments : list pystr)
| Raised
| Running.

Section Fetcher.

(** [googleapiclient.discovery.build] returned a client. *)
Variable client_built : bool.

(** One page of [commentThreads().list(...).execute()] for a video id and a
    page token: the [textDisplay] of its items and its [nextPageToken];
    [None] when the request raises or the response lacks a key. *)
Variable list_page : pystr -> option pystr -> option (list pystr * option pystr).

(** [while True: ...], for at most [fuel] pages. *)
Fixpoint fetch_pages (fuel : nat) (video_id : pystr) (next_page_token : option pystr)
    (comments : list pystr) (w : session) : session * fetched :=
  match fuel with
  | O => (w, Running)
  | S fuel' =>
      let w := record_request video_id next_page_token w in
      match list_page video_id next_page_token with
      | None => (w, Raised)
      | Some (items, token) =>
          let comments := comments ++ map clean_escape_characters items in
          if no_token token then (w, Comments comments)
          else fetch_pages fuel' video_id token comments w
      end
  end.

(** [YouTubeCommentsTool._run]: the list returned, or [None] while the loop
    has not ended within [fuel] pages. *)
Definition _run (fuel : nat) (video_url : pystr) (w : session)
  : session * option (list pystr) :=
  match extract_video_id video_url with
  | None => (tool_logging ERROR InvalidUrl w, Some [])
  | Some video_id =>
      if negb client_built then (tool_logging ERROR ToolError w, Some []) else
      match fetch_pages fuel video_id None [] w with
      | (w, Raised) => (tool_logging ERROR ToolError w, Some [])
      | (w, Running) => (w, None)
      | (w, Comments comments) =>
          (tool_logging INFO (CommentsRetrieved (length comments))
             (save_comments_to_json comments w),
           Some comments)
      end
  end.

Variable json_loads : caller -> pystr -> parsed.
Variable kickoff : nat -> json -> option pystr.

(** The main program: the tool, then the analysis of [comments.json]. *)
Definition main (fuel : nat) (video_url : pystr) (w : session) : option session :=
  match _run fuel video_url w with
  | (w, None) => None
  | (w, Some _) =>
      Some (mkSession (comments_analysis json_loads kickoff (files w))
                      (comments_writable w) (tool_log w) (requests w))
  end.

End Fetcher.

(** The pages the API serves from a token on, up to the page without a next
    token. *)
Inductive serves (list_page : pystr -> option pystr -> option (list pystr * option pystr))
    (video_id : pystr) : option pystr -> list (list pystr) -> Prop :=
| serves_last token items next :
    list_page video_id token = Some (items, next) ->
    no_token next = true ->
    serves list_page video_id token [items]
| serves_more token items next pages :
    list_page video_id token = Some (items, next) ->
    no_token next = false ->
    serves list_page video_id next pages ->
    serves list_page video_id token (items :: pages).

(** The API answers [n - 1] requests with a page and a next token, and
    raises on the [n]-th. *)
Inductive breaks (list_page : pystr -> option pystr -> option (list pystr * option pystr))
    (video_id : pystr) : option pystr -> nat -> Prop :=
| breaks_now token :
    list_page video_id token = None ->
    breaks list_page video_id token 1
| breaks_later token items next n :
    list_page video_id token = Some (items, next) ->
    no_token next = false ->
    breaks list_page video_id next n ->
    breaks list_page video_id token (S n).

(** A text the sanitizer leaves as it is. *)
Definition sanitized (s : pystr) : bool :=
  plain s && single_spaced s && negb (starts_with_space s) && negb (ends_with_space s).

(** An API of two pages, and one that fails on the second page. *)
Definition sample_pages (video_id : pystr) (token : option pystr)
  : option (list pystr * option pystr) :=
  match token with
  | None => Some ([str "  great\tvideo "; str "first"], Some (str "p2"))
  | Some _ => Some ([jtext "so 'good'"], None)
  end.

Definition sample_broken_pages (video_id : pystr) (token : option pystr)
  : option (list pystr * option pystr) :=
  match token with
  | None => Some ([str "lost"], Some (str "p2"))
  | Some _ => None
  end.

(** An API of one page, whose second comment holds a lone surrogate. *)
Definition sample_surrogate_pages (video_id : pystr) (token : option pystr)
  : option (list pystr * option pystr) :=
  Some ([str "first"; [55357%N]], None).

Definition sample_session (comments : file) : session :=
  mkSession (sample_state comments) true [] [].

(** An agent that answers the first chunk and raises on the others. *)
Definition sample_kickoff_raising (idx : nat) (chunk : json) : option pystr :=
  match idx with
  | 0 => Some (sample_answer 0)
  | _ => None
  end.

(** The records of a report, all lists together. *)
Definition report_records (j : json) : list json :=
  flat_map (fun kv => elements (snd kv)) (entry_items j).

(** The elements of all values of all entries of a store. *)
Definition store_records (store : list json) : list json :=
  flat_map (fun entry => flat_map (fun kv => elements (snd kv)) (entry_items entry)) store.

Unset Implicit Arguments.

(* ================================================================== *)
(** * Facts about lists and characters *)
(* ================================================================== *)

Lemma list_length_ind (A : Type) (P : list A -> Prop) :
  (forall s, (forall s', length s' < length s -> P s') -> P s) ->
  forall s, P s.
Proof.
  intros step s.
  remember (length s) as n eqn:En.
  revert s En.
  induction n as [n IH] using lt_wf_ind.
  intros s En. apply step. intros s' Hlt.
  apply (IH (length s')); [lia | reflexivity].
Qed.

Lemma pystr_eqb_eq (a b : pystr) : pystr_eqb a b = true <-> a = b.
Proof.
  revert b. induction a as [|x a IH]; intros [|y b]; simpl; split; intro H;
    try reflexivity; try discriminate.
  - apply andb_true_iff in H. destruct H as [Hx Ha].
    apply N.eqb_eq in Hx. apply IH in Ha. congruence.
  - injection H as -> ->. rewrite N.eqb_refl. simpl. apply IH. reflexivity.
Qed.

Lemma pystr_eqb_refl (a : pystr) : pystr_eqb a a = true.
Proof. apply pystr_eqb_eq. reflexivity. Qed.

Lemma pystr_eqb_neq (a b : pystr) : a <> b -> pystr_eqb a b = false.
Proof.
  intro H. destruct (pystr_eqb a b) eqn:E; [|reflexivity].
  apply pystr_eqb_eq in E. contradiction.
Qed.

(* ================================================================== *)
(** * Facts about matching and substitution *)
(* ================================================================== *)

Module ReFacts.
Import Re.

Lemma match_star_unfold p pat s :
  match_here (Star p :: pat) s =
  match s with
  | c :: t =>
      if p c then
        match match_here (Star p :: pat) t with
        | Some r => Some r
        | None => match_here pat s
        end
      else match_here pat s
  | [] => match_here pat s
  end.
Proof. destruct s; reflexivity. Qed.

(** A match consumes a prefix. *)
Lemma match_here_suffix pat : forall s rest,
  match_here pat s = Some rest -> exists pre, s = pre ++ rest.
Proof.
  induction pat as [|[p|p] pat IH]; intros s rest H.
  - injection H as <-. exists []. reflexivity.
  - destruct s as [|c t]; [discriminate|]. simpl in H.
    destruct (p c); [|discriminate].
    apply IH in H. destruct H as [pre ->]. exists (c :: pre). reflexivity.
  - revert rest H. induction s as [|c t IHs]; intros rest H;
      rewrite match_star_unfold in H.
    + apply IH in H. exact H.
    + destruct (p c).
      * destruct (match_here (Star p :: pat) t) as [r|] eqn:E.
        -- injection H as <-. destruct (IHs _ eq_refl) as [pre ->].
           exists (c :: pre). reflexivity.
        -- apply IH in H. exact H.
      * apply IH in H. exact H.
Qed.

Lemma match_here_length pat s rest :
  match_here pat s = Some rest -> length rest <= length s.
Proof.
  intro H. apply match_here_suffix in H. destruct H as [pre ->].
  rewrite length_app. lia.
Qed.

Lemma match_one_length p pat s rest :
  match_here (One p :: pat) s = Some rest -> length rest < length s.
Proof.
  destruct s as [|c t]; simpl; [discriminate|].
  destruct (p c); [|discriminate].
  intro H. apply match_here_length in H. lia.
Qed.

Lemma sub_loop_nil n pat repl : sub_loop n pat repl [] = [].
Proof. destruct n; reflexivity. Qed.

(** Any fuel not below the length of the text gives the same result. *)
Lemma sub_loop_fuel pat repl : forall n m s,
  length s <= n -> length s <= m ->
  sub_loop n pat repl s = sub_loop m pat repl s.
Proof.
  induction n as [|n IH]; intros m s Hn Hm.
  - destruct s; [|simpl in Hn; lia]. rewrite !sub_loop_nil. reflexivity.
  - destruct s as [|c t]; [rewrite !sub_loop_nil; reflexivity|].
    destruct m as [|m]; [simpl in Hm; lia|].
    simpl in Hn, Hm. cbn [sub_loop].
    destruct (match_here pat (c :: t)) as [rest|] eqn:E.
    + destruct (Nat.ltb (length rest) (length (c :: t))) eqn:L.
      * apply Nat.ltb_lt in L. simpl in L.
        f_equal. apply IH; lia.
      * f_equal. apply IH; lia.
    + f_equal. apply IH; lia.
Qed.

Lemma sub_nil pat repl : sub pat repl [] = [].
Proof. reflexivity. Qed.

Lemma sub_cons pat repl c t :
  sub pat repl (c :: t) =
  match match_here pat (c :: t) with
  | Some rest =>
      if Nat.ltb (length rest) (length (c :: t))
      then repl ++ sub pat repl rest
      else c :: sub pat repl t
  | None => c :: sub pat repl t
  end.
Proof.
  unfold sub. cbn [length sub_loop].
  destruct (match_here pat (c :: t)) as [rest|] eqn:E; [|reflexivity].
  destruct (Nat.ltb (length rest) (S (length t))) eqn:L; [|reflexivity].
  apply Nat.ltb_lt in L.
  f_equal. apply sub_loop_fuel; lia.
Qed.

Lemma sub_match p pat repl s rest :
  match_here (One p :: pat) s = Some rest ->
  sub (One p :: pat) repl s = repl ++ sub (One p :: pat) repl rest.
Proof.
  intro H. pose proof (match_one_length _ _ _ _ H) as L.
  destruct s as [|c t]; [discriminate|].
  rewrite sub_cons, H.
  apply Nat.ltb_lt in L. rewrite L. reflexivity.
Qed.

Lemma sub_nomatch pat repl c t :
  match_here pat (c :: t) = None ->
  sub pat repl (c :: t) = c :: sub pat repl t.
Proof. intro H. rewrite sub_cons, H. reflexivity. Qed.

(** A character the first class rejects is copied. *)
Lemma sub_skip p pat repl c t :
  p c = false ->
  sub (One p :: pat) repl (c :: t) = c :: sub (One p :: pat) repl t.
Proof. intro H. apply sub_nomatch. simpl. rewrite H. reflexivity. Qed.

(** A text without a character of the first class is left as it is. *)
Lemma sub_untouched p pat repl s :
  Forall (fun c => p c = false) s -> sub (One p :: pat) repl s = s.
Proof.
  induction 1 as [|c t Hc _ IH]; [reflexivity|].
  rewrite sub_skip by exact Hc. rewrite IH. reflexivity.
Qed.

Lemma sub_skip_prefix p pat repl a s :
  Forall (fun c => p c = false) a ->
  sub (One p :: pat) repl (a ++ s) = a ++ sub (One p :: pat) repl s.
Proof.
  induction 1 as [|c t Hc _ IH]; [reflexivity|].
  simpl. rewrite sub_skip by exact Hc. rewrite IH. reflexivity.
Qed.

(** The result is made of characters of the text and of the replacement. *)
Lemma sub_Forall (P : char -> Prop) pat repl :
  Forall P repl -> forall s, Forall P s -> Forall P (sub pat repl s).
Proof.
  intros Hrepl s. induction s as [s IH] using list_length_ind. intro Hs.
  destruct s as [|c t]; [constructor|].
  rewrite sub_cons.
  assert (Ht : Forall P (c :: sub pat repl t)).
  { inversion Hs; subst. constructor; [assumption|].
    apply IH; [simpl; lia | assumption]. }
  destruct (match_here pat (c :: t)) as [rest|] eqn:E; [|exact Ht].
  destruct (Nat.ltb (length rest) (length (c :: t))) eqn:L; [|exact Ht].
  apply Nat.ltb_lt in L.
  apply Forall_app. split; [exact Hrepl|].
  apply IH; [exact L|].
  apply match_here_suffix in E. destruct E as [pre E]. rewrite E in Hs.
  apply Forall_app in Hs. tauto.
Qed.

(** Deleting every character of a class. *)
Lemma sub_delete p s :
  sub [One p] [] s = filter (fun c => negb (p c)) s.
Proof.
  induction s as [|c t IH]; [reflexivity|].
  simpl filter. destruct (p c) eqn:Hc; simpl.
  - rewrite (sub_match p [] [] (c :: t) t); [exact IH|].
    simpl. rewrite Hc. reflexivity.
  - rewrite sub_skip by exact Hc. rewrite IH. reflexivity.
Qed.

End ReFacts.

(* ================================================================== *)
(** * Whitespace *)
(* ================================================================== *)

Module Whitespace.
Import Re ReFacts.

Lemma lstrip_no_space s : starts_with_space (lstrip s) = false.
Proof.
  induction s as [|c t IH]; [reflexivity|].
  simpl. destruct (is_space c) eqn:E; [exact IH|]. simpl. exact E.
Qed.

Lemma lstrip_id s : starts_with_space s = false -> lstrip s = s.
Proof. destruct s as [|c t]; simpl; [reflexivity|]. intros ->. reflexivity. Qed.

Lemma lstrip_suffix s : exists ws, s = ws ++ lstrip s /\ forallb is_space ws = true.
Proof.
  induction s as [|c t [ws [E W]]].
  - exists []. split; reflexivity.
  - simpl. destruct (is_space c) eqn:Hc.
    + exists (c :: ws). simpl. rewrite Hc, W. split; [congruence|reflexivity].
    + exists []. split; reflexivity.
Qed.

Lemma lstrip_length s : length (lstrip s) <= length s.
Proof.
  destruct (lstrip_suffix s) as [ws [E _]].
  rewrite E at 2. rewrite length_app. lia.
Qed.

Lemma lstrip_spaces ws s :
  forallb is_space ws = true -> lstrip (ws ++ s) = lstrip s.
Proof.
  induction ws as [|c ws IH]; simpl; [reflexivity|].
  intro H. apply andb_true_iff in H. destruct H as [-> H]. apply IH, H.
Qed.

Lemma rstrip_snoc s c :
  rstrip (s ++ [c]) = if is_space c then rstrip s else s ++ [c].
Proof.
  unfold rstrip. rewrite rev_app_distr. simpl.
  destruct (is_space c); [reflexivity|].
  simpl. rewrite rev_involutive. reflexivity.
Qed.

Lemma rstrip_prefix s : exists ws, s = rstrip s ++ ws.
Proof.
  induction s as [|c s [ws E]] using rev_ind.
  - exists []. reflexivity.
  - rewrite rstrip_snoc. destruct (is_space c).
    + exists (ws ++ [c]). rewrite app_assoc, <- E. reflexivity.
    + exists []. rewrite app_nil_r. reflexivity.
Qed.

Lemma rstrip_no_space s : ends_with_space (rstrip s) = false.
Proof.
  induction s as [|c s IH] using rev_ind; [reflexivity|].
  rewrite rstrip_snoc. destruct (is_space c) eqn:Hc; [exact IH|].
  unfold ends_with_space. rewrite rev_app_distr. simpl. exact Hc.
Qed.

Lemma rstrip_id s : ends_with_space s = false -> rstrip s = s.
Proof.
  unfold ends_with_space, rstrip. intro H.
  rewrite lstrip_id by exact H. apply rev_involutive.
Qed.

Lemma starts_with_space_prefix a b :
  starts_with_space (a ++ b) = false -> starts_with_space a = false.
Proof. destruct a; simpl; [reflexivity|tauto]. Qed.

Lemma single_spaced_tail c t : single_spaced (c :: t) = true -> single_spaced t = true.
Proof. simpl. intro H. apply andb_true_iff in H. tauto. Qed.

Lemma single_spaced_app_r a b : single_spaced (a ++ b) = true -> single_spaced b = true.
Proof.
  induction a as [|c a IH]; [tauto|].
  intro H. apply IH. exact (single_spaced_tail _ _ H).
Qed.

Lemma single_spaced_app_l a b : single_spaced (a ++ b) = true -> single_spaced a = true.
Proof.
  induction a as [|c a IH]; [reflexivity|].
  simpl. intro H. apply andb_true_iff in H. destruct H as [Hc Ht].
  rewrite (IH Ht), andb_true_r.
  destruct (is_space c); [|reflexivity].
  apply andb_true_iff in Hc. destruct Hc as [-> Hn]. simpl.
  apply negb_true_iff in Hn. apply starts_with_space_prefix in Hn.
  rewrite Hn. reflexivity.
Qed.

(** What [strip] returns of a single-spaced text is in normal form. *)
Lemma strip_normal s :
  single_spaced s = true ->
  single_spaced (strip s) = true
  /\ starts_with_space (strip s) = false
  /\ ends_with_space (strip s) = false.
Proof.
  intro H. unfold strip.
  destruct (lstrip_suffix s) as [ws [E _]].
  destruct (rstrip_prefix (lstrip s)) as [ws' E'].
  assert (Hl : single_spaced (lstrip s) = true).
  { rewrite E in H. exact (single_spaced_app_r _ _ H). }
  repeat split.
  - rewrite E' in Hl. exact (single_spaced_app_l _ _ Hl).
  - apply starts_with_space_prefix with (b := ws').
    rewrite <- E'. apply lstrip_no_space.
  - apply rstrip_no_space.
Qed.

Lemma strip_id s :
  starts_with_space s = false -> ends_with_space s = false -> strip s = s.
Proof.
  intros Hl Hr. unfold strip. rewrite (lstrip_id _ Hl). exact (rstrip_id _ Hr).
Qed.

Lemma strip_Forall (P : char -> Prop) s : Forall P s -> Forall P (strip s).
Proof.
  intro H. unfold strip.
  destruct (lstrip_suffix s) as [ws [E _]].
  destruct (rstrip_prefix (lstrip s)) as [ws' E'].
  rewrite E in H. apply Forall_app in H. destruct H as [_ H].
  rewrite E' in H. apply Forall_app in H. tauto.
Qed.

(** ** The pattern [\s+] *)

Lemma match_star_space s : match_here [Star is_space] s = Some (lstrip s).
Proof.
  induction s as [|c t IH]; [reflexivity|].
  rewrite match_star_unfold. simpl lstrip.
  destruct (is_space c); [rewrite IH|]; reflexivity.
Qed.

Lemma match_spaces c t :
  match_here (plus is_space) (c :: t) = if is_space c then Some (lstrip t) else None.
Proof.
  unfold plus. cbn [match_here]. fold (match_here [Star is_space] t).
  rewrite match_star_space. reflexivity.
Qed.

Lemma collapse_cons c t :
  sub (plus is_space) [space] (c :: t) =
  if is_space c then space :: sub (plus is_space) [space] (lstrip t)
  else c :: sub (plus is_space) [space] t.
Proof.
  destruct (is_space c) eqn:Hc.
  - unfold plus. rewrite (sub_match is_space [Star is_space] [space] (c :: t) (lstrip t)).
    + reflexivity.
    + fold (plus is_space). rewrite match_spaces, Hc. reflexivity.
  - apply sub_skip. exact Hc.
Qed.

(** The substitution of [\s+] by a space is the squeeze of the text. *)
Lemma collapse_squeeze s : sub (plus is_space) [space] s = squeeze s.
Proof.
  induction s as [s IH] using list_length_ind.
  destruct s as [|c t]; [reflexivity|].
  rewrite collapse_cons. simpl squeeze.
  destruct (is_space c) eqn:Hc.
  - rewrite IH by (simpl; pose proof (lstrip_length t); lia).
    clear IH. induction t as [|d t IHt]; [reflexivity|].
    cbn [lstrip starts_with_space]. destruct (is_space d) eqn:Hd; [|reflexivity].
    cbn [squeeze]. rewrite Hd. exact IHt.
  - rewrite IH by (simpl; lia). reflexivity.
Qed.

Lemma squeeze_starts s : starts_with_space (squeeze s) = starts_with_space s.
Proof.
  induction s as [|c t IH]; [reflexivity|].
  simpl. destruct (is_space c) eqn:Hc; [|simpl; exact Hc].
  destruct (starts_with_space t) eqn:Ht; [|reflexivity].
  exact IH.
Qed.

Lemma squeeze_single_spaced s : single_spaced (squeeze s) = true.
Proof.
  induction s as [|c t IH]; [reflexivity|].
  simpl. destruct (is_space c) eqn:Hc.
  - destruct (starts_with_space t) eqn:Ht; [exact IH|].
    simpl. rewrite squeeze_starts, Ht, IH. reflexivity.
  - simpl. rewrite Hc, IH. reflexivity.
Qed.

Lemma squeeze_id s : single_spaced s = true -> squeeze s = s.
Proof.
  induction s as [|c t IH]; [reflexivity|].
  simpl. intro H. apply andb_true_iff in H. destruct H as [Hc Ht].
  rewrite (IH Ht). destruct (is_space c); [|reflexivity].
  apply andb_true_iff in Hc. destruct Hc as [Hc Hn].
  apply negb_true_iff in Hn. rewrite Hn.
  apply N.eqb_eq in Hc. rewrite Hc. reflexivity.
Qed.

End Whitespace.

(* ================================================================== *)
(** * The text sanitizer *)
(* ================================================================== *)

Module Sanitizer.
Import Re ReFacts Whitespace.

Lemma plain_Forall s :
  plain s = true <->
  Forall (fun c => is_backslash c = false /\ is_dquote c = false) s.
Proof.
  unfold plain. rewrite forallb_forall, Forall_forall.
  split; intros H c Hc; specialize (H c Hc).
  - apply andb_true_iff in H. destruct H as [H1 H2].
    apply negb_true_iff in H1, H2. tauto.
  - destruct H as [-> ->]. reflexivity.
Qed.

Lemma plain_no_backslash s :
  plain s = true -> Forall (fun c => is_backslash c = false) s.
Proof.
  intro H. apply plain_Forall in H.
  eapply Forall_impl; [|exact H]. simpl. tauto.
Qed.

Lemma plain_no_dquote s :
  plain s = true -> Forall (fun c => is_dquote c = false) s.
Proof.
  intro H. apply plain_Forall in H.
  eapply Forall_impl; [|exact H]. simpl. tauto.
Qed.

Lemma plain_app a b : plain (a ++ b) = plain a && plain b.
Proof. apply forallb_app. Qed.

Lemma filter_rejects (p : char -> bool) s :
  Forall (fun c => p c = false) (filter (fun c => negb (p c)) s).
Proof.
  induction s as [|c t IH]; [constructor|].
  simpl. destruct (p c) eqn:E; simpl; [exact IH|].
  constructor; assumption.
Qed.

(** The sanitizer, step by step. *)
Lemma clean_steps s :
  clean_escape_characters s =
  strip (sub (plus is_space) [space]
    (sub [One is_dquote] []
      (sub [One is_backslash] []
        (sub (pat_esc (is_chr "$")) [chr "$"]
          (sub (pat_esc (is_chr "'")) [chr "'"]
            (sub (pat_esc is_dquote) []
              (sub (pat_esc (is_chr "r")) [space]
                (sub (pat_esc (is_chr "t")) [space]
                  (sub (pat_esc (is_chr "n")) [space]
                    (sub pat_U8 [] (sub pat_u4 [] s))))))))))).
Proof. reflexivity. Qed.

(** On a plain text only the whitespace is normalised. *)
Lemma clean_plain s :
  plain s = true -> clean_escape_characters s = strip (squeeze s).
Proof.
  intro H. rewrite clean_steps.
  pose proof (plain_no_backslash _ H) as Hb.
  pose proof (plain_no_dquote _ H) as Hq.
  unfold pat_u4, pat_U8, pat_esc.
  rewrite !(sub_untouched _ _ _ _ Hb), (sub_untouched _ _ _ _ Hq).
  rewrite collapse_squeeze. reflexivity.
Qed.

Lemma clean_is_plain s : plain (clean_escape_characters s) = true.
Proof.
  rewrite clean_steps. apply plain_Forall.
  apply strip_Forall. apply sub_Forall.
  - constructor; [split; reflexivity|constructor].
  - match goal with
    | |- Forall _ (sub [One is_dquote] [] (sub [One is_backslash] [] ?x)) =>
        generalize x
    end.
    intro x.
    assert (Hb : Forall (fun c => is_backslash c = false) (sub [One is_backslash] [] x)).
    { rewrite sub_delete. apply filter_rejects. }
    assert (Hb' : Forall (fun c => is_backslash c = false)
                    (sub [One is_dquote] [] (sub [One is_backslash] [] x))).
    { apply sub_Forall; [constructor|exact Hb]. }
    assert (Hq : Forall (fun c => is_dquote c = false)
                   (sub [One is_dquote] [] (sub [One is_backslash] [] x))).
    { rewrite (sub_delete is_dquote). apply filter_rejects. }
    rewrite Forall_forall in *. intros c Hc. split; auto.
Qed.

Lemma clean_normal s :
  single_spaced (clean_escape_characters s) = true
  /\ starts_with_space (clean_escape_characters s) = false
  /\ ends_with_space (clean_escape_characters s) = false.
Proof.
  rewrite clean_steps. apply strip_normal.
  rewrite collapse_squeeze. apply squeeze_single_spaced.
Qed.

(** C7. The text sanitizer is idempotent: sanitizing a sanitized text
    changes nothing. *)
Theorem clean_escape_characters_idempotent (s : pystr) :
  clean_escape_characters (clean_escape_characters s) = clean_escape_characters s.
Proof.
  rewrite (clean_plain _ (clean_is_plain s)).
  destruct (clean_normal s) as [Hs [Hl Hr]].
  rewrite (squeeze_id _ Hs). apply strip_id; assumption.
Qed.

(** ** One escape sequence in a text *)

Lemma no_backslash_Forall a :
  no_backslash a = true -> Forall (fun c => is_backslash c = false) a.
Proof.
  unfold no_backslash. rewrite forallb_forall, Forall_forall.
  intros H c Hc. apply negb_true_iff. exact (H c Hc).
Qed.

Lemma hex_not_backslash c : is_hex c = true -> is_backslash c = false.
Proof.
  intro H. unfold is_backslash, is_chr.
  destruct (N.eqb_spec c (chr "\")) as [->|]; [discriminate H|reflexivity].
Qed.

Section Escape.

Variables (pat : pattern) (repl a : pystr).
Hypothesis Ha : no_backslash a = true.

Let P := One is_backslash :: pat.

(** The scan copies a prefix without backslash. *)
Lemma sub_prefix X : sub P repl (a ++ X) = a ++ sub P repl X.
Proof. apply sub_skip_prefix, no_backslash_Forall, Ha. Qed.

(** An escape the pattern does not match is copied. *)
Lemma sub_pass x X :
  is_backslash x = false ->
  match_here P (chr "\" :: x :: X) = None ->
  sub P repl (a ++ chr "\" :: x :: X) = a ++ chr "\" :: x :: sub P repl X.
Proof.
  intros Hx Hm. rewrite sub_prefix.
  rewrite (sub_nomatch _ _ _ _ Hm).
  unfold P. rewrite (sub_skip _ _ _ _ _ Hx). reflexivity.
Qed.

(** An escape the pattern matches is replaced. *)
Lemma sub_hit e X :
  match_here P (e ++ X) = Some X ->
  sub P repl (a ++ e ++ X) = a ++ repl ++ sub P repl X.
Proof.
  intro Hm. rewrite sub_prefix. unfold P in *.
  rewrite (sub_match _ _ _ _ _ Hm). reflexivity.
Qed.

(** A character that is not a backslash is copied. *)
Lemma sub_pass_char x X :
  is_backslash x = false ->
  sub P repl (a ++ x :: X) = a ++ x :: sub P repl X.
Proof.
  intro Hx. rewrite sub_prefix. unfold P.
  rewrite (sub_skip _ _ _ _ _ Hx). reflexivity.
Qed.

End Escape.

Lemma clean_u4 a b h :
  no_backslash a = true -> length h = 4 -> forallb is_hex h = true ->
  clean_escape_characters (a ++ str "\u" ++ h ++ b) = clean_escape_characters (a ++ b).
Proof.
  intros Ha Hl Hh. rewrite !clean_steps.
  destruct h as [|n [|n0 [|n1 [|n2 [|? ?]]]]]; try discriminate Hl. clear Hl.
  cbn [forallb] in Hh. repeat (apply andb_true_iff in Hh; destruct Hh as [? Hh]).
  assert (E : sub pat_u4 [] (a ++ str "\u" ++ [n; n0; n1; n2] ++ b)
              = sub pat_u4 [] (a ++ b)).
  { unfold pat_u4. rewrite (sub_prefix _ _ _ Ha b).
    apply (sub_hit _ [] _ Ha (str "\u" ++ [n; n0; n1; n2])).
    cbn. rewrite H, H0, H1, H2. reflexivity. }
  rewrite E. reflexivity.
Qed.

Lemma clean_U8 a b h :
  no_backslash a = true -> length h = 8 -> forallb is_hex h = true ->
  clean_escape_characters (a ++ str "\U" ++ h ++ b) = clean_escape_characters (a ++ b).
Proof.
  intros Ha Hl Hh. rewrite !clean_steps.
  destruct h as [|n [|n0 [|n1 [|n2 [|n3 [|n4 [|n5 [|n6 [|? ?]]]]]]]]];
    try discriminate Hl. clear Hl.
  cbn [forallb] in Hh. repeat (apply andb_true_iff in Hh; destruct Hh as [? Hh]).
  assert (E : sub pat_U8 [] (sub pat_u4 [] (a ++ str "\U" ++ [n; n0; n1; n2; n3; n4; n5; n6] ++ b))
              = sub pat_U8 [] (sub pat_u4 [] (a ++ b))).
  { unfold pat_u4, pat_U8. rewrite (sub_prefix _ _ _ Ha b).
    change (a ++ str "\U" ++ [n; n0; n1; n2; n3; n4; n5; n6] ++ b)
      with (a ++ chr "\" :: chr "U" :: n :: n0 :: n1 :: n2 :: n3 :: n4 :: n5 :: n6 :: b).
    rewrite (sub_prefix _ _ _ Ha).
    rewrite sub_nomatch by reflexivity.
    rewrite sub_skip by reflexivity.
    rewrite !sub_skip by (apply hex_not_backslash; assumption).
    rewrite (sub_prefix _ _ _ Ha (sub _ _ b)).
    apply (sub_hit _ [] _ Ha (str "\U" ++ [n; n0; n1; n2; n3; n4; n5; n6])).
    cbn. rewrite H, H0, H1, H2, H3, H4, H5, H6. reflexivity. }
  rewrite E. reflexivity.
Qed.

Lemma sub_hit2 pat repl a (Ha : no_backslash a = true) x X :
  match_here (One is_backslash :: pat) (chr "\" :: x :: X) = Some X ->
  sub (One is_backslash :: pat) repl (a ++ chr "\" :: x :: X)
  = a ++ repl ++ sub (One is_backslash :: pat) repl X.
Proof. intro Hm. exact (sub_hit pat repl a Ha [chr "\"; x] X Hm). Qed.

(** One step of the sanitizer on a text of the form [a ++ ...]. *)
Ltac escape_step Ha :=
  first
    [ rewrite (sub_pass _ _ _ Ha) by reflexivity
    | rewrite (sub_hit2 _ _ _ Ha) by reflexivity
    | rewrite (sub_pass_char _ _ _ Ha) by reflexivity
    | rewrite (sub_prefix _ _ _ Ha) ];
  cbn [app].

Ltac escape_steps Ha :=
  rewrite !clean_steps; unfold pat_u4, pat_U8, pat_esc;
  repeat escape_step Ha.

Lemma clean_escaped_char (x : ascii) a b :
  no_backslash a = true ->
  (x = "n" \/ x = "t" \/ x = "r")%char ->
  clean_escape_characters (a ++ chr "\" :: chr x :: b)
  = clean_escape_characters (a ++ space :: b).
Proof.
  intros Ha [-> | [-> | ->]]; escape_steps Ha; reflexivity.
Qed.

Lemma clean_escaped_dquote a b :
  no_backslash a = true ->
  clean_escape_characters (a ++ chr "\" :: dquote :: b) = clean_escape_characters (a ++ b).
Proof. intro Ha. escape_steps Ha. reflexivity. Qed.

Lemma clean_escaped_quote a b :
  no_backslash a = true ->
  clean_escape_characters (a ++ chr "\" :: chr "'" :: b)
  = clean_escape_characters (a ++ chr "'" :: b).
Proof. intro Ha. escape_steps Ha. reflexivity. Qed.

Lemma clean_dquote a b :
  no_backslash a = true ->
  clean_escape_characters (a ++ dquote :: b) = clean_escape_characters (a ++ b).
Proof.
  intro Ha. escape_steps Ha.
  rewrite !(sub_delete is_dquote), !filter_app. reflexivity.
Qed.

(** C9, as amended. What the text sanitizer does to a text. Of every text
    [s] the result holds no backslash, hence no escape sequence of any form,
    and no double quote; its only whitespace is single spaces between other
    characters, none at either end. After a prefix [a] without backslash and
    before any text [b]: an escape [\uXXXX] or [\UXXXXXXXX] disappears; an
    escaped [\n], [\t] or [\r] counts as a space; an escaped double quote
    and a double quote disappear; an escaped single quote loses its
    backslash and stays. A text [w] with no backslash and no double quote
    has every run of whitespace squeezed to one space and is trimmed. The
    sanitizer is a total function: there is no error case, and the result
    may be empty. *)
Theorem clean_escape_characters_contract (s a b w h4 h8 : pystr) :
  no_backslash a = true ->
  plain w = true ->
  length h4 = 4 -> forallb is_hex h4 = true ->
  length h8 = 8 -> forallb is_hex h8 = true ->
  (plain (clean_escape_characters s) = true
   /\ single_spaced (clean_escape_characters s) = true
   /\ starts_with_space (clean_escape_characters s) = false
   /\ ends_with_space (clean_escape_characters s) = false)
  /\ clean_escape_characters (a ++ str "\u" ++ h4 ++ b) = clean_escape_characters (a ++ b)
  /\ clean_escape_characters (a ++ str "\U" ++ h8 ++ b) = clean_escape_characters (a ++ b)
  /\ clean_escape_characters (a ++ str "\n" ++ b) = clean_escape_characters (a ++ str " " ++ b)
  /\ clean_escape_characters (a ++ str "\t" ++ b) = clean_escape_characters (a ++ str " " ++ b)
  /\ clean_escape_characters (a ++ str "\r" ++ b) = clean_escape_characters (a ++ str " " ++ b)
  /\ clean_escape_characters (a ++ jtext "\'" ++ b) = clean_escape_characters (a ++ b)
  /\ clean_escape_characters (a ++ jtext "'" ++ b) = clean_escape_characters (a ++ b)
  /\ clean_escape_characters (a ++ str "\'" ++ b) = clean_escape_characters (a ++ str "'" ++ b)
  /\ clean_escape_characters w = strip (squeeze w)
  /\ clean_escape_characters [] = [].
Proof.
  intros Ha Hw Hl4 Hh4 Hl8 Hh8.
  split; [|repeat split].
  - split; [apply clean_is_plain|apply clean_normal].
  - apply clean_u4; assumption.
  - apply clean_U8; assumption.
  - exact (clean_escaped_char "n" a b Ha (or_introl eq_refl)).
  - exact (clean_escaped_char "t" a b Ha (or_intror (or_introl eq_refl))).
  - exact (clean_escaped_char "r" a b Ha (or_intror (or_intror eq_refl))).
  - exact (clean_escaped_dquote a b Ha).
  - exact (clean_dquote a b Ha).
  - exact (clean_escaped_quote a b Ha).
  - exact (clean_plain w Hw).
Qed.

Lemma clean_escape_characters_contract_witness :
  let s := jtext " 'x'\ty\u00e9\\ z  " in
  let a := str "it " in
  let b := str "\s" in
  let w := str "  a   b " in
  let h4 := str "00e9" in
  let h8 := str "0001F600" in
  (no_backslash a = true /\ plain w = true /\ length h4 = 4
   /\ forallb is_hex h4 = true /\ length h8 = 8 /\ forallb is_hex h8 = true)
  /\ clean_escape_characters s = str "x y z"
  /\ plain (clean_escape_characters s) = true
  /\ clean_escape_characters (a ++ str "\u" ++ h4 ++ b) = clean_escape_characters (a ++ b)
  /\ clean_escape_characters (a ++ str "\n" ++ b) = clean_escape_characters (a ++ str " " ++ b)
  /\ clean_escape_characters w = strip (squeeze w).
Proof.
  intros s a b w h4 h8.
  pose proof (clean_escape_characters_contract s a b w h4 h8
                eq_refl eq_refl eq_refl eq_refl eq_refl eq_refl) as C.
  split; [repeat split|].
  split; [reflexivity|]. tauto.
Defined.

(** C9, as stated, fails: a backslash-escaped single quote is not stripped.
    Of [it\'s] the sanitizer removes the backslash and keeps the quote. *)
Lemma clean_escape_characters_contract_counterexample :
  clean_escape_characters (str "it\'s") = str "it's"
  /\ clean_escape_characters (str "it\'s") <> str "its".
Proof.
  assert (E : clean_escape_characters (str "it\'s") = str "it's") by reflexivity.
  split; [exact E|]. rewrite E. discriminate.
Qed.

End Sanitizer.

(* ================================================================== *)
(** * JSON repair *)
(* ================================================================== *)

Module Repair.
Import Re ReFacts Whitespace.

Lemma space_not_comma c : is_space c = true -> is_chr "," c = false.
Proof.
  intro H. unfold is_chr.
  destruct (N.eqb_spec c (chr ",")) as [->|]; [discriminate H|reflexivity].
Qed.

Lemma closes_with_space p c t :
  is_space c = true -> closes_with p (c :: t) = closes_with p t.
Proof. unfold closes_with. simpl. intros ->. reflexivity. Qed.

Lemma closes_with_char p c t :
  is_space c = false -> closes_with p (c :: t) = p c.
Proof. unfold closes_with. simpl. intros ->. reflexivity. Qed.

Lemma closes_with_lstrip p t : closes_with p (lstrip t) = closes_with p t.
Proof.
  unfold closes_with.
  rewrite (lstrip_id (lstrip t)) by apply lstrip_no_space. reflexivity.
Qed.

Lemma closes_with_or p q t :
  closes_with (fun c => p c || q c) t = closes_with p t || closes_with q t.
Proof. unfold closes_with. destruct (lstrip t); reflexivity. Qed.

(** ** The pattern [,\s*c] *)

Section Closer.

Variable q : char -> bool.
Hypothesis q_not_space : forall c, q c = true -> is_space c = false.
Hypothesis q_not_comma : forall c, q c = true -> is_chr "," c = false.

Lemma match_spaces_then t :
  match_here [Star is_space; One q] t =
  match lstrip t with
  | d :: u => if q d then Some u else None
  | [] => None
  end.
Proof.
  induction t as [|c t IH]; [reflexivity|].
  rewrite match_star_unfold. simpl lstrip.
  destruct (is_space c) eqn:Hc.
  - rewrite IH. destruct (lstrip t) as [|d u]; simpl.
    + destruct (q c) eqn:Hq; [|reflexivity].
      apply q_not_space in Hq. congruence.
    + destruct (q d); [reflexivity|].
      destruct (q c) eqn:Hq; [|reflexivity].
      apply q_not_space in Hq. congruence.
  - reflexivity.
Qed.

Lemma match_trailing c t :
  match_here [One (is_chr ","); Star is_space; One q] (c :: t) =
  if is_chr "," c
  then match lstrip t with
       | d :: u => if q d then Some u else None
       | [] => None
       end
  else None.
Proof.
  cbn [match_here]. fold (match_here [Star is_space; One q] t).
  rewrite match_spaces_then. reflexivity.
Qed.

Lemma trailing_removed_spaces ws x :
  forallb is_space ws = true ->
  trailing_removed q (ws ++ x) = ws ++ trailing_removed q x.
Proof.
  induction ws as [|c ws IH]; [reflexivity|].
  simpl. intro H. apply andb_true_iff in H. destruct H as [Hc H].
  rewrite (space_not_comma _ Hc). simpl. rewrite (IH H). reflexivity.
Qed.

Lemma trailing_removed_closer d u :
  q d = true -> trailing_removed q (d :: u) = d :: trailing_removed q u.
Proof. intro H. simpl. rewrite (q_not_comma _ H). reflexivity. Qed.

Lemma trailing_removed_starts r :
  starts_with_space r = false -> starts_with_space (trailing_removed q r) = false.
Proof.
  destruct r as [|d u]; [reflexivity|].
  simpl. intro Hd.
  destruct (is_chr "," d && closes_with q u); [apply lstrip_no_space|exact Hd].
Qed.

Lemma trailing_removed_lstrip x :
  trailing_removed q (lstrip x) = lstrip (trailing_removed q x).
Proof.
  destruct (lstrip_suffix x) as [ws [E W]].
  rewrite E at 2. rewrite (trailing_removed_spaces _ _ W), (lstrip_spaces _ _ W).
  symmetry. apply lstrip_id, trailing_removed_starts, lstrip_no_space.
Qed.

(** One substitution of the repair removes the commas in front of its
    closer, with the whitespace in between. *)
Lemma sub_trailing (cl : char) s :
  (forall c, q c = true <-> c = cl) ->
  sub [One (is_chr ","); Star is_space; One q] [cl] s = trailing_removed q s.
Proof.
  intro Hq.
  induction s as [s IH] using list_length_ind.
  destruct s as [|c t]; [reflexivity|].
  cbn [trailing_removed]. unfold closes_with.
  destruct (is_chr "," c) eqn:Hc; cbn [andb].
  - destruct (lstrip_suffix t) as [ws [E W]].
    destruct (lstrip t) as [|d u] eqn:El.
    + rewrite sub_nomatch by (rewrite match_trailing, Hc, El; reflexivity).
      rewrite IH by (simpl; lia). reflexivity.
    + destruct (q d) eqn:Hd.
      * rewrite (sub_match _ _ _ _ u)
          by (rewrite match_trailing, Hc, El, Hd; reflexivity).
        rewrite IH.
        2:{ rewrite E. simpl. rewrite length_app. simpl. lia. }
        rewrite E.
        rewrite (trailing_removed_spaces _ _ W), (lstrip_spaces _ _ W).
        rewrite (trailing_removed_closer _ _ Hd).
        simpl. rewrite (q_not_space _ Hd).
        apply Hq in Hd. subst d. reflexivity.
      * rewrite sub_nomatch by (rewrite match_trailing, Hc, El, Hd; reflexivity).
        rewrite IH by (simpl; lia). reflexivity.
  - rewrite sub_skip by exact Hc.
    rewrite IH by (simpl; lia). reflexivity.
Qed.

End Closer.

(** ** The two substitutions in a row *)

Section TwoClosers.

Variables p q : char -> bool.
Hypothesis p_not_comma : forall c, p c = true -> is_chr "," c = false.
Hypothesis q_not_comma : forall c, q c = true -> is_chr "," c = false.
Hypothesis disjoint : forall c, p c = true -> q c = false.

Lemma closes_with_disjoint t : closes_with p t = true -> closes_with q t = false.
Proof.
  unfold closes_with. destruct (lstrip t); [reflexivity|]. apply disjoint.
Qed.

(** Removing the commas in front of a [p] does not bring a comma in front
    of a [q], nor take one away. *)
Lemma closes_with_trailing_removed t :
  closes_with q (trailing_removed p t) = closes_with q t.
Proof.
  induction t as [|c t IH]; [reflexivity|].
  destruct (is_space c) eqn:Hs.
  - simpl. rewrite (space_not_comma _ Hs). simpl.
    rewrite !(closes_with_space _ _ _ Hs). exact IH.
  - rewrite (closes_with_char _ _ _ Hs). simpl.
    destruct (is_chr "," c && closes_with p t) eqn:E.
    + apply andb_true_iff in E. destruct E as [Hc Hp].
      rewrite closes_with_lstrip, IH, (closes_with_disjoint _ Hp).
      destruct (q c) eqn:Hq; [|reflexivity].
      apply q_not_comma in Hq. congruence.
    + apply closes_with_char, Hs.
Qed.

Lemma trailing_removed_twice s :
  trailing_removed q (trailing_removed p s)
  = trailing_removed (fun c => p c || q c) s.
Proof.
  induction s as [|c t IH]; [reflexivity|].
  simpl. rewrite closes_with_or.
  destruct (is_chr "," c) eqn:Hc; simpl.
  - destruct (closes_with p t) eqn:Hp; simpl.
    + rewrite trailing_removed_lstrip, IH. reflexivity.
    + rewrite Hc, closes_with_trailing_removed. simpl.
      destruct (closes_with q t); rewrite IH; reflexivity.
  - rewrite Hc. simpl. rewrite IH. reflexivity.
Qed.

End TwoClosers.

Lemma is_chr_eq a c : is_chr a c = true <-> c = chr a.
Proof. apply N.eqb_eq. Qed.

Lemma fix_trailing_commas_removed s :
  fix_trailing_commas s = trailing_removed is_closer s.
Proof.
  unfold fix_trailing_commas, pat_trailing.
  rewrite (sub_trailing (is_chr "]")), (sub_trailing (is_chr "}")).
  - apply trailing_removed_twice.
    + intros c H. apply is_chr_eq in H. subst c. reflexivity.
    + intros c H. apply is_chr_eq in H. subst c. reflexivity.
  - intros c H. apply is_chr_eq in H. subst c. reflexivity.
  - intros c H. apply is_chr_eq in H. subst c. reflexivity.
  - intro c. apply is_chr_eq.
  - intros c H. apply is_chr_eq in H. subst c. reflexivity.
  - intros c H. apply is_chr_eq in H. subst c. reflexivity.
  - intro c. apply is_chr_eq.
Qed.

Lemma no_trailing_comma_unchanged s :
  has_trailing_comma s = false -> trailing_removed is_closer s = s.
Proof.
  induction s as [|c t IH]; [reflexivity|].
  simpl. intro H. apply orb_false_iff in H. destruct H as [-> H].
  rewrite (IH H). reflexivity.
Qed.

Lemma lstrip_keeps_others x :
  filter (fun c => negb (is_space c)) (lstrip x) = filter (fun c => negb (is_space c)) x.
Proof.
  induction x as [|c x IH]; [reflexivity|].
  simpl. destruct (is_space c) eqn:Hc; simpl; [exact IH|].
  rewrite Hc. reflexivity.
Qed.

Lemma trailing_removed_keeps_others s :
  filter (fun c => negb (is_space c)) (trailing_removed is_closer s)
  = filter (fun c => negb (is_space c)) (commas_removed s).
Proof.
  induction s as [|c t IH]; [reflexivity|].
  simpl. destruct (is_chr "," c && closes_with is_closer t).
  - rewrite lstrip_keeps_others. exact IH.
  - simpl. rewrite IH. reflexivity.
Qed.

(** C4, as amended. The repair is the text without its trailing commas (the
    commas in front of a closing bracket or brace) and without the
    whitespace between such a comma and its closer; nothing else changes:
    what is not whitespace is what removing the trailing commas alone
    leaves. A text [u] without trailing comma is returned as it is, and
    [{"a": [1,2,],}] repairs to [{"a": [1,2]}]. *)
Theorem fix_trailing_commas_contract (s u : pystr) :
  has_trailing_comma u = false ->
  fix_trailing_commas s = trailing_removed is_closer s
  /\ filter (fun c => negb (is_space c)) (fix_trailing_commas s)
     = filter (fun c => negb (is_space c)) (commas_removed s)
  /\ fix_trailing_commas u = u
  /\ fix_trailing_commas (jtext "{'a': [1,2,],}") = jtext "{'a': [1,2]}".
Proof.
  intro Hu. repeat split.
  - apply fix_trailing_commas_removed.
  - rewrite fix_trailing_commas_removed. apply trailing_removed_keeps_others.
  - rewrite fix_trailing_commas_removed. apply no_trailing_comma_unchanged, Hu.
Qed.

Lemma fix_trailing_commas_contract_witness :
  has_trailing_comma (jtext "{'a': [1, 2], 'b': {}}") = false
  /\ fix_trailing_commas (jtext "{'a': [1 , ] , }") = trailing_removed is_closer (jtext "{'a': [1 , ] , }")
  /\ fix_trailing_commas (jtext "{'a': [1 , ] , }") = jtext "{'a': [1 ] }"
  /\ fix_trailing_commas (jtext "{'a': [1, 2], 'b': {}}") = jtext "{'a': [1, 2], 'b': {}}".
Proof.
  pose proof (fix_trailing_commas_contract
                (jtext "{'a': [1 , ] , }") (jtext "{'a': [1, 2], 'b': {}}") eq_refl)
    as [H1 [_ [H3 _]]].
  split; [reflexivity|]. split; [exact H1|]. split; [reflexivity|exact H3].
Defined.

(** C4, as stated, fails: the repair of [[1, ]] is [[1]], while removing
    the trailing comma and nothing else leaves [[1 ]]. *)
Lemma fix_trailing_commas_counterexample :
  has_trailing_comma (str "[1, ]") = true
  /\ fix_trailing_commas (str "[1, ]") = str "[1]"
  /\ commas_removed (str "[1, ]") = str "[1 ]"
  /\ fix_trailing_commas (str "[1, ]") <> commas_removed (str "[1, ]").
Proof. repeat split; try reflexivity. discriminate. Qed.

End Repair.

(* ================================================================== *)
(** * The batcher *)
(* ================================================================== *)

Module Batcher.

Lemma traverse_total (A B : Type) (f : A -> option B) (g : A -> B) l :
  (forall a, f a = Some (g a)) -> traverse f l = Some (map g l).
Proof.
  intro H. induction l as [|a l IH]; [reflexivity|].
  simpl. rewrite H, IH. reflexivity.
Qed.

Section Chunks.

Variable comments : list json.
Variable K : Z.
Hypothesis K_pos : (0 < K)%Z.

Let N := Z.of_nat (length comments).

(** The chunks [comments[j:j+K]] for the starts [i, i+K, ...] below [N]. *)
Let chunks_from (fuel : nat) (i : Z) : list (list json) :=
  map (fun j => py_slice comments j (j + K)) (range_up fuel i N K).

Lemma slice_at i :
  (0 <= i < N)%Z ->
  py_slice comments i (i + K)
  = firstn (Z.to_nat (Z.min (i + K) N - i)) (skipn (Z.to_nat i) comments).
Proof.
  intro Hi. unfold py_slice, clamp_index. fold N.
  destruct (Z.ltb_spec i 0); [lia|].
  destruct (Z.ltb_spec (i + K) 0); [lia|].
  rewrite (Z.min_l i N) by lia. reflexivity.
Qed.

Lemma ceil_step i :
  (i < N)%Z ->
  Z.to_nat ((N - i + K - 1) / K) = S (Z.to_nat ((N - (i + K) + K - 1) / K)).
Proof.
  intro Hi.
  replace (N - i + K - 1)%Z with ((N - (i + K) + K - 1) + 1 * K)%Z by lia.
  rewrite Z.div_add by lia.
  assert (0 <= (N - (i + K) + K - 1) / K)%Z by (apply Z.div_pos; lia).
  lia.
Qed.

Lemma ceil_zero i : (N <= i)%Z -> Z.to_nat ((N - i + K - 1) / K) = 0.
Proof.
  intro Hi.
  assert ((N - i + K - 1) / K <= 0)%Z; [|lia].
  destruct (Z.le_gt_cases (N - i + K - 1) (-1)) as [Hneg|Hnn].
  - assert ((N - i + K - 1) / K < 0)%Z by (apply Z.div_lt_upper_bound; lia). lia.
  - rewrite Z.div_small by lia. lia.
Qed.

Lemma chunks_from_spec : forall fuel i,
  (0 <= i)%Z -> (N - i <= Z.of_nat fuel)%Z ->
  concat (chunks_from fuel i) = skipn (Z.to_nat i) comments
  /\ length (chunks_from fuel i) = Z.to_nat ((N - i + K - 1) / K)
  /\ Forall (fun c => (1 <= Z.of_nat (length c) <= K)%Z) (chunks_from fuel i)
  /\ (forall n, S n < length (chunks_from fuel i) ->
        Z.of_nat (length (nth n (chunks_from fuel i) [])) = K).
Proof.
  induction fuel as [|fuel IH]; intros i Hi Hf.
  - unfold chunks_from. simpl.
    rewrite ceil_zero by lia.
    rewrite skipn_all2 by (unfold N in Hf; lia).
    repeat split; [constructor|]. intros n Hn. simpl in Hn. lia.
  - unfold chunks_from. cbn [range_up].
    destruct (Z.ltb_spec i N) as [Hlt|Hge].
    + cbn [map]. fold (chunks_from fuel (i + K)).
      destruct (IH (i + K)%Z) as [Hc [Hl [Hall Hnth]]]; [lia|lia|].
      rewrite (slice_at i) by lia.
      assert (Hlen : length (skipn (Z.to_nat i) comments) = Z.to_nat (N - i)).
      { rewrite length_skipn. unfold N. lia. }
      repeat split.
      * cbn [concat]. rewrite Hc.
        destruct (Z.le_gt_cases (i + K) N) as [Hin|Hout].
        -- rewrite Z.min_l by lia.
           replace (Z.to_nat (i + K)) with (Z.to_nat (i + K - i) + Z.to_nat i)%nat by lia.
           rewrite <- skipn_skipn. apply firstn_skipn.
        -- rewrite Z.min_r by lia.
           rewrite firstn_all2 by lia.
           rewrite (skipn_all2 (n := Z.to_nat (i + K))) by (unfold N in Hout; lia).
           apply app_nil_r.
      * cbn [length]. rewrite Hl. symmetry. apply ceil_step, Hlt.
      * constructor; [|exact Hall].
        rewrite length_firstn, Hlen. lia.
      * intros [|n] Hn; cbn [nth].
        -- cbn [length] in Hn. rewrite Hl in Hn.
           assert (i + K < N)%Z.
           { destruct (Z.lt_ge_cases (i + K) N) as [|Hge]; [assumption|].
             rewrite ceil_zero in Hn by lia. lia. }
           rewrite length_firstn, Hlen. lia.
        -- apply Hnth. cbn [length] in Hn. lia.
    + cbn [map]. rewrite ceil_zero by lia.
      rewrite skipn_all2 by (unfold N in Hge; lia).
      repeat split; [constructor|]. intros n Hn. simpl in Hn. lia.
Qed.

Lemma split_comments_from :
  split_comments (JArr comments) K
  = Some (map JArr (chunks_from (Z.to_nat N) 0)).
Proof.
  unfold split_comments, py_range. cbn [py_len]. fold N.
  destruct (Z.eqb_spec K 0); [lia|].
  destruct (Z.ltb_spec 0 K); [|lia].
  rewrite Z.sub_0_r.
  rewrite (traverse_total _ _ _ (fun j => JArr (py_slice comments j (j + K))))
    by reflexivity.
  unfold chunks_from. rewrite map_map. reflexivity.
Qed.

End Chunks.

(** C2. For a sequence of [N] comments and a chunk size [K > 0] the batcher
    returns [ceil(N/K)] chunks; every chunk but the last has length [K], the
    last one between 1 and [K]; the lengths add up to [N], and the chunks
    concatenated in order are the sequence. *)
Theorem split_comments_chunks (comments : list json) (K : Z) :
  (0 < K)%Z ->
  exists chunks : list (list json),
    split_comments (JArr comments) K = Some (map JArr chunks)
    /\ Z.of_nat (length chunks) = ((Z.of_nat (length comments) + K - 1) / K)%Z
    /\ (K * (Z.of_nat (length chunks) - 1) < Z.of_nat (length comments)
        <= K * Z.of_nat (length chunks))%Z
    /\ (forall n, S n < length chunks -> Z.of_nat (length (nth n chunks [])) = K)
    /\ Forall (fun c => (1 <= Z.of_nat (length c) <= K)%Z) chunks
    /\ length (concat chunks) = length comments
    /\ concat chunks = comments.
Proof.
  intro HK.
  set (N := Z.of_nat (length comments)).
  exists (map (fun j => py_slice comments j (j + K)) (range_up (Z.to_nat N) 0 N K)).
  destruct (chunks_from_spec comments K HK (Z.to_nat N) 0)
    as [Hc [Hl [Hall Hnth]]]; [lia|fold N; lia|].
  fold N in Hc, Hl, Hall, Hnth. cbn [Z.to_nat skipn] in Hc.
  rewrite Z.sub_0_r in Hl.
  assert (Hdiv : (0 <= (N + K - 1) / K)%Z) by (apply Z.div_pos; lia).
  assert (Hcount : Z.of_nat (length (map (fun j => py_slice comments j (j + K))
                                        (range_up (Z.to_nat N) 0 N K)))
                   = ((N + K - 1) / K)%Z) by lia.
  repeat split.
  - apply split_comments_from, HK.
  - exact Hcount.
  - rewrite Hcount.
    pose proof (Z.mul_div_le (N + K - 1) K HK).
    pose proof (Z.mod_pos_bound (N + K - 1) K HK).
    pose proof (Z.div_mod (N + K - 1) K). lia.
  - rewrite Hcount.
    pose proof (Z.mod_pos_bound (N + K - 1) K HK).
    pose proof (Z.div_mod (N + K - 1) K). lia.
  - exact Hnth.
  - exact Hall.
  - rewrite Hc. reflexivity.
  - exact Hc.
Qed.

Lemma split_comments_chunks_witness :
  (0 < 2)%Z
  /\ exists chunks : list (list json),
       split_comments (JArr [JInt 1; JInt 2; JInt 3; JInt 4; JInt 5]) 2
       = Some (map JArr chunks)
       /\ Z.of_nat (length chunks) = ((5 + 2 - 1) / 2)%Z
       /\ concat chunks = [JInt 1; JInt 2; JInt 3; JInt 4; JInt 5].
Proof.
  split; [reflexivity|].
  destruct (split_comments_chunks [JInt 1; JInt 2; JInt 3; JInt 4; JInt 5] 2 eq_refl)
    as [chunks [H1 [H2 [_ [_ [_ [_ H7]]]]]]].
  exists chunks. split; [exact H1|]. split; [exact H2|exact H7].
Defined.

End Batcher.

(* ================================================================== *)
(** * What can be written *)
(* ================================================================== *)

Module Dump.

Lemma encodable_list l : encodable (JArr l) = forallb encodable l.
Proof.
  induction l as [|x l IH]; [reflexivity|].
  cbn [forallb]. rewrite <- IH. reflexivity.
Qed.

Lemma depth_list l : depth (JArr l) = S (list_max (map depth l)).
Proof.
  induction l as [|x l IH]; [reflexivity|].
  cbn [map list_max fold_right]. injection IH as IH.
  change (list_max (map depth l)) with (fold_right Nat.max 0 (map depth l)) in IH.
  rewrite <- IH. reflexivity.
Qed.

(** A list can be written exactly when its two parts can. *)
Lemma dumpable_app room a b :
  dumpable room (JArr (a ++ b)) = dumpable room (JArr a) && dumpable room (JArr b).
Proof.
  unfold dumpable.
  rewrite !encodable_list, !depth_list, forallb_app, map_app, list_max_app.
  destruct (forallb encodable a); destruct (forallb encodable b); cbn [andb];
    rewrite ?andb_false_r; try reflexivity.
  destruct (Nat.leb_spec (S (Nat.max (list_max (map depth a)) (list_max (map depth b))))
              (2 + room));
    destruct (Nat.leb_spec (S (list_max (map depth a))) (2 + room));
    destruct (Nat.leb_spec (S (list_max (map depth b))) (2 + room));
    cbn [andb]; try reflexivity; lia.
Qed.

Lemma dumpable_prefix room a b :
  dumpable room (JArr (a ++ b)) = true -> dumpable room (JArr a) = true.
Proof.
  rewrite dumpable_app. intro H. apply andb_true_iff in H. apply H.
Qed.

(** A list of strings can be written exactly when no string holds a lone
    surrogate. *)
Lemma dumpable_strs room l :
  dumpable room (JArr (map JStr l)) = forallb encodable_str l.
Proof.
  unfold dumpable. rewrite encodable_list, depth_list.
  assert (E : list_max (map depth (map JStr l)) = 0).
  { induction l as [|x l IH]; [reflexivity|]. cbn [map list_max fold_right depth].
    change (fold_right Nat.max 0 (map depth (map JStr l)))
      with (list_max (map depth (map JStr l))).
    rewrite IH. reflexivity. }
  rewrite E. cbn [Nat.leb Nat.add]. rewrite andb_true_r. clear E.
  induction l as [|x l IH]; [reflexivity|].
  cbn [map forallb encodable]. rewrite IH. reflexivity.
Qed.

(** A list that can be stored is one whose first part can. *)
Lemma storable_prefix st a b :
  storable st (JArr (a ++ b)) = true -> storable st (JArr a) = true.
Proof.
  unfold storable. intro H. apply andb_true_iff in H. destruct H as [Hd Hl].
  rewrite (dumpable_prefix _ _ _ Hd). cbn [andb].
  rewrite depth_list, map_app, list_max_app in Hl. rewrite depth_list.
  apply Nat.leb_le in Hl. apply Nat.leb_le. lia.
Qed.

End Dump.

(* ================================================================== *)
(** * The merger *)
(* ================================================================== *)

Module Merger.

(** ** The state around the fold *)

Lemma add_log_nil st : add_log [] st = st.
Proof. destruct st. unfold add_log. simpl. rewrite app_nil_r. reflexivity. Qed.

Lemma add_log_app a b st : add_log b (add_log a st) = add_log (a ++ b) st.
Proof. unfold add_log. simpl. rewrite app_assoc. reflexivity. Qed.

Lemma merge_entries_merged entries : forall final_results st,
  snd (merge_entries entries final_results st) = merged entries final_results.
Proof.
  induction entries as [|entry entries IH]; intros fr st; [reflexivity|].
  destruct entry; simpl; try apply IH.
  destruct (merge_items fr items); [apply IH|reflexivity].
Qed.

(** The fold only writes to the log. *)
Lemma merge_entries_state entries : forall final_results st,
  exists records,
    fst (merge_entries entries final_results st) = add_log records st
    /\ Forall (fun r => exists e, r = (ERROR, UnexpectedEntryType e)) records.
Proof.
  induction entries as [|entry entries IH]; intros fr st.
  - exists []. split; [|constructor]. symmetry. apply add_log_nil.
  - assert (Hskip : forall m,
      exists records,
        fst (merge_entries entries fr (logging ERROR (UnexpectedEntryType m) st))
        = add_log records st
        /\ Forall (fun r => exists e, r = (ERROR, UnexpectedEntryType e)) records).
    { intro m.
      destruct (IH fr (logging ERROR (UnexpectedEntryType m) st)) as [records [E F]].
      exists ((ERROR, UnexpectedEntryType m) :: records).
      split.
      - rewrite E. unfold logging. apply add_log_app.
      - constructor; [eexists; reflexivity|exact F]. }
    destruct entry; simpl; try apply Hskip.
    destruct (merge_items fr items) as [fr'|].
    + apply IH.
    + exists []. split; [|constructor]. symmetry. apply add_log_nil.
Qed.

(** The merger, in terms of the report the store determines. *)
Lemma merge_results_spec st :
  exists records,
    Forall (fun r => exists e, r = (ERROR, UnexpectedEntryType e)) records
    /\ merge_results st
       = match merge_outcome (raw_results_file st) with
         | Some r =>
             if final_writable st then
               if dumpable (recursion_room st) r
               then add_log (records ++ [(INFO, ResultsMerged)])
                      (set_final_file (Holds r) st)
               else add_log (records ++ [(ERROR, FailedToMerge)])
                      (set_final_file Unreadable st)
             else add_log (records ++ [(ERROR, FailedToMerge)]) st
         | None => add_log (records ++ [(ERROR, FailedToMerge)]) st
         end.
Proof.
  unfold merge_results, merge_outcome.
  destruct (json_load (raw_results_file st)) as [all_results|];
    [|exists []; split; [constructor|reflexivity]].
  destruct (py_iter all_results) as [entries|];
    [|exists []; split; [constructor|reflexivity]].
  pose proof (merge_entries_merged entries final_results_init st) as Hm.
  destruct (merge_entries_state entries final_results_init st) as [records [Hs HF]].
  destruct (merge_entries entries final_results_init st) as [st' r].
  simpl in Hm, Hs. subst st' r.
  exists records. split; [exact HF|].
  destruct (merged entries final_results_init) as [fr|]; cbn [option_map].
  - cbn [add_log final_writable recursion_room].
    destruct (final_writable st).
    + destruct (dumpable (recursion_room st) (report_json fr));
        unfold logging, set_final_file, add_log; simpl; rewrite app_assoc; reflexivity.
    + unfold logging, add_log; simpl; rewrite app_assoc; reflexivity.
  - unfold logging, add_log; simpl; rewrite app_assoc; reflexivity.
Qed.

(** The report file after a merge: the report the store determines, or a
    file cut short when that report cannot be written; when the store
    determines none, or the report file cannot be opened, it is as it was. *)
Lemma merge_results_final st :
  final_results_file (merge_results st)
  = match merge_outcome (raw_results_file st) with
    | Some r =>
        if final_writable st then written (recursion_room st) r
        else final_results_file st
    | None => final_results_file st
    end.
Proof.
  destruct (merge_results_spec st) as [records [_ E]]. rewrite E.
  destruct (merge_outcome (raw_results_file st)) as [r|]; [|reflexivity].
  destruct (final_writable st); [|reflexivity].
  unfold written. destruct (dumpable (recursion_room st) r); reflexivity.
Qed.

(** A merge leaves everything but the log and the report file alone. *)
Lemma merge_results_frame st :
  comments_file (merge_results st) = comments_file st
  /\ raw_results_file (merge_results st) = raw_results_file st
  /\ raw_writable (merge_results st) = raw_writable st
  /\ final_writable (merge_results st) = final_writable st
  /\ invoked (merge_results st) = invoked st
  /\ recursion_room (merge_results st) = recursion_room st
  /\ torn_keeps (merge_results st) = torn_keeps st
  /\ load_room (merge_results st) = load_room st.
Proof.
  destruct (merge_results_spec st) as [records [_ E]]. rewrite E.
  destruct (merge_outcome (raw_results_file st)) as [r|];
    [destruct (final_writable st) eqn:Ew;
     [destruct (dumpable (recursion_room st) r)|]|];
    repeat split; exact Ew.
Qed.


(** ** The fold on a report of six lists *)

Lemma final_results_init_report : final_results_init = report_of [] [] [] [] [] [].
Proof. reflexivity. Qed.

Ltac known_key E k v :=
  apply pystr_eqb_eq in E; subst k; destruct v; cbn; rewrite ?app_nil_r; reflexivity.

(** One pair: its elements go to the list of its theme, or to "Other". *)
Lemma merge_item_report_of r c s p t o k v :
  merge_item (report_of r c s p t o) (k, v)
  = if iterable v
    then Some (report_of (r ++ to_theme (str "Requests") (k, v))
                         (c ++ to_theme (str "Complaints") (k, v))
                         (s ++ to_theme (str "Suggestions") (k, v))
                         (p ++ to_theme (str "Praise") (k, v))
                         (t ++ to_theme (str "Troubleshooting") (k, v))
                         (o ++ to_other (k, v)))
    else None.
Proof.
  unfold merge_item, dict_mem, to_other, is_theme, to_theme, iterable, elements,
    dict_extend.
  cbn [existsb report_of themes fst snd].
  destruct (pystr_eqb (str "Requests") k) eqn:E1; [known_key E1 k v|].
  destruct (pystr_eqb (str "Complaints") k) eqn:E2; [known_key E2 k v|].
  destruct (pystr_eqb (str "Suggestions") k) eqn:E3; [known_key E3 k v|].
  destruct (pystr_eqb (str "Praise") k) eqn:E4; [known_key E4 k v|].
  destruct (pystr_eqb (str "Troubleshooting") k) eqn:E5; [known_key E5 k v|].
  destruct (pystr_eqb (str "Other") k) eqn:E6; [known_key E6 k v|].
  cbn [orb andb]. destruct (py_iter v) as [l|]; [|reflexivity].
  cbn. rewrite ?app_nil_r. reflexivity.
Qed.

Lemma merge_items_report_of items : forall r c s p t o,
  merge_items (report_of r c s p t o) items
  = if forallb (fun kv => iterable (snd kv)) items
    then Some (report_of (r ++ flat_map (to_theme (str "Requests")) items)
                         (c ++ flat_map (to_theme (str "Complaints")) items)
                         (s ++ flat_map (to_theme (str "Suggestions")) items)
                         (p ++ flat_map (to_theme (str "Praise")) items)
                         (t ++ flat_map (to_theme (str "Troubleshooting")) items)
                         (o ++ flat_map to_other items))
    else None.
Proof.
  induction items as [|[k v] items IH]; intros r c s p t o.
  - cbn. rewrite !app_nil_r. reflexivity.
  - cbn [merge_items forallb flat_map snd].
    rewrite merge_item_report_of.
    destruct (iterable v); [|reflexivity].
    cbn [andb]. rewrite IH, !app_assoc. reflexivity.
Qed.

Lemma merged_report_of entries : forall r c s p t o,
  merged entries (report_of r c s p t o)
  = if iterable_values entries
    then Some (report_of (r ++ theme_records (str "Requests") entries)
                         (c ++ theme_records (str "Complaints") entries)
                         (s ++ theme_records (str "Suggestions") entries)
                         (p ++ theme_records (str "Praise") entries)
                         (t ++ theme_records (str "Troubleshooting") entries)
                         (o ++ other_records entries))
    else None.
Proof.
  unfold iterable_values, theme_records, other_records.
  induction entries as [|entry entries IH]; intros r c s p t o.
  - cbn. rewrite !app_nil_r. reflexivity.
  - assert (Hskip : entry_items entry = [] ->
                    merged entries (report_of r c s p t o)
                    = if forallb (fun e => forallb (fun kv => iterable (snd kv)) (entry_items e))
                           (entry :: entries)
                      then Some (report_of
                        (r ++ flat_map (fun e => flat_map (to_theme (str "Requests")) (entry_items e)) (entry :: entries))
                        (c ++ flat_map (fun e => flat_map (to_theme (str "Complaints")) (entry_items e)) (entry :: entries))
                        (s ++ flat_map (fun e => flat_map (to_theme (str "Suggestions")) (entry_items e)) (entry :: entries))
                        (p ++ flat_map (fun e => flat_map (to_theme (str "Praise")) (entry_items e)) (entry :: entries))
                        (t ++ flat_map (fun e => flat_map (to_theme (str "Troubleshooting")) (entry_items e)) (entry :: entries))
                        (o ++ flat_map (fun e => flat_map to_other (entry_items e)) (entry :: entries)))
                      else None).
    { intro E. cbn [forallb flat_map]. rewrite E. cbn. apply IH. }
    destruct entry; try (apply Hskip; reflexivity).
    cbn [merged forallb flat_map entry_items].
    rewrite merge_items_report_of.
    destruct (forallb (fun kv => iterable (snd kv)) items); [|reflexivity].
    cbn [andb]. rewrite IH, !app_assoc. reflexivity.
Qed.

(** A store of a list of entries determines the report of the contract when
    every value can be iterated, and no report otherwise. *)
Lemma merge_outcome_list raw store :
  json_load raw = Some (JArr store) ->
  merge_outcome raw
  = if iterable_values store then Some (final_report store) else None.
Proof.
  intro H. unfold merge_outcome. rewrite H. cbn [py_iter].
  rewrite final_results_init_report, merged_report_of.
  destruct (iterable_values store); reflexivity.
Qed.


Lemma merge_entries_dicts entries : forall final_results st,
  forallb is_dict entries = true ->
  fst (merge_entries entries final_results st) = st.
Proof.
  induction entries as [|entry entries IH]; intros fr st H; [reflexivity|].
  cbn [forallb] in H. apply andb_true_iff in H. destruct H as [He H].
  destruct entry; try discriminate He.
  simpl. destruct (merge_items fr items); [apply IH, H|reflexivity].
Qed.

Lemma not_iterable_values store items key value :
  In (JObj items) store -> In (key, value) items -> iterable value = false ->
  iterable_values store = false.
Proof.
  intros Hs Hi Hv. unfold iterable_values.
  destruct (forallb _ store) eqn:E; [|reflexivity].
  rewrite forallb_forall in E. specialize (E _ Hs). cbn [entry_items] in E.
  rewrite forallb_forall in E. specialize (E _ Hi). simpl in E. congruence.
Qed.

(** The records of a store that holds one more pair. *)
Lemma theme_records_app theme a b :
  theme_records theme (a ++ b) = theme_records theme a ++ theme_records theme b.
Proof. unfold theme_records. apply flat_map_app. Qed.

Lemma other_records_app a b :
  other_records (a ++ b) = other_records a ++ other_records b.
Proof. unfold other_records. apply flat_map_app. Qed.

(** The elements of a string are its characters. *)
Lemma to_other_str k text : to_other (k, JStr text) = map (fun ch => JStr [ch]) text.
Proof.
  unfold to_other. cbn [fst snd is_list]. rewrite andb_false_r. reflexivity.
Qed.

Lemma to_theme_str theme k text : to_theme theme (k, JStr text) = [].
Proof.
  unfold to_theme. cbn [fst snd is_list]. rewrite andb_false_r. reflexivity.
Qed.

(** ** The contract of the merger *)

(** C1. The code falls short of the claim on a store whose entries are
    mappings: for [[{"Weird": 5}]] the guard sends the value, which is no
    list, to [final_results["Other"].extend], which raises on a number; the
    merge is given up, its failure logged, and no report is written, where
    the claim has a report with the six keys. The same pair with its value in
    a list, [[{"Weird": [5]}]], gives the report with [5] under "Other". *)
Theorem merge_results_non_list_value :
  let store := [ JObj [(str "Weird", JInt 5)] ] in
  let listed := [ JObj [(str "Weird", JArr [JInt 5])] ] in
  let st := sample_world Missing (Holds (JArr store)) Missing in
  forallb is_dict store = true
  /\ merge_results st = logging ERROR FailedToMerge st
  /\ final_results_file (merge_results st) = Missing
  /\ log (merge_results st) = [(ERROR, FailedToMerge)]
  /\ final_results_file (merge_results (sample_world Missing (Holds (JArr listed)) Missing))
     = Holds (JObj [ (str "Requests", JArr []); (str "Complaints", JArr []);
                     (str "Suggestions", JArr []); (str "Praise", JArr []);
                     (str "Troubleshooting", JArr []); (str "Other", JArr [JInt 5]) ]).
Proof. repeat split. Qed.

(** C8. The merger is idempotent: a second merge of the same store leaves
    the report file as the first one did, and the store as it was. The report
    is rebuilt from empty lists, from the store alone: once the report file
    is opened, whatever [prior] report it held is gone, replaced by the
    report of the store (or by a text cut short, when that report cannot be
    written in full), not extended. The prior report stays only when the
    merge fails before the file is opened. *)
Theorem merge_results_idempotent (st : state) (prior : file) :
  final_results_file (merge_results (merge_results st))
  = final_results_file (merge_results st)
  /\ raw_results_file (merge_results (merge_results st)) = raw_results_file st
  /\ final_results_file (merge_results (set_final_file prior st))
     = match merge_outcome (raw_results_file st) with
       | Some r =>
           if final_writable st then
             if dumpable (recursion_room st) r then Holds r else Unreadable
           else prior
       | None => prior
       end.
Proof.
  destruct (merge_results_frame st) as [_ [Hr [_ [Hw [_ [Hroom _]]]]]].
  destruct (merge_results_frame (merge_results st)) as [_ [Hr' _]].
  split; [|split].
  - rewrite (merge_results_final (merge_results st)), Hr, Hw, Hroom.
    rewrite (merge_results_final st).
    destruct (merge_outcome (raw_results_file st)); [|reflexivity].
    destruct (final_writable st); reflexivity.
  - rewrite Hr', Hr. reflexivity.
  - rewrite merge_results_final. reflexivity.
Qed.

(** C10. When an entry of the store is a mapping with a value that cannot
    be iterated (a number, a boolean, null), the merge fails: the error is
    logged after the records of the entries skipped before it, and the
    report file stays as it was, without the contributions of the other
    entries. When the values can all be iterated and one of them is a
    string, under any key, the merger writes the report of the store, in
    which the characters of the string stand one by one under "Other",
    between what the pairs before and after it add there, and under no other
    key. *)
Theorem merge_results_not_iterable :
  (forall (st : state) (store : list json) (items : list (pystr * json))
          (key : pystr) (value : json),
      json_load (raw_results_file st) = Some (JArr store) ->
      In (JObj items) store ->
      In (key, value) items ->
      iterable value = false ->
      final_results_file (merge_results st) = final_results_file st
      /\ exists skipped,
           log (merge_results st) = log st ++ skipped ++ [(ERROR, FailedToMerge)]
           /\ Forall (fun r => exists e, r = (ERROR, UnexpectedEntryType e)) skipped)
  /\ (forall (st : state) (before after : list json) (items1 items2 : list (pystr * json))
             (key text : pystr),
        let store := before ++ JObj (items1 ++ (key, JStr text) :: items2) :: after in
        json_load (raw_results_file st) = Some (JArr store) ->
        iterable_values store = true ->
        final_writable st = true ->
        dumpable (recursion_room st) (final_report store) = true ->
        final_results_file (merge_results st) = Holds (final_report store)
        /\ other_records store
           = other_records before ++ flat_map to_other items1
             ++ map (fun ch => JStr [ch]) text
             ++ flat_map to_other items2 ++ other_records after
        /\ forall theme,
             theme_records theme store
             = theme_records theme before ++ flat_map (to_theme theme) items1
               ++ flat_map (to_theme theme) items2 ++ theme_records theme after).
Proof.
  split.
  - intros st store items key value Hraw Hs Hi Hv.
    pose proof (not_iterable_values store items key value Hs Hi Hv) as Hn.
    destruct (merge_results_spec st) as [records [HF E]].
    rewrite (merge_outcome_list _ store Hraw), Hn in E.
    rewrite E. split; [reflexivity|].
    exists records. split; [reflexivity|exact HF].
  - intros st before after items1 items2 key text store Hraw Hit Hw Hd.
    split; [|split].
    + rewrite merge_results_final, (merge_outcome_list _ store Hraw), Hit, Hw.
      unfold written. rewrite Hd. reflexivity.
    + unfold store. rewrite other_records_app.
      unfold other_records at 2. cbn [flat_map entry_items].
      rewrite flat_map_app. cbn [flat_map]. rewrite to_other_str.
      fold (other_records after). rewrite <- !app_assoc. reflexivity.
    + intro theme. unfold store. rewrite theme_records_app.
      unfold theme_records at 2. cbn [flat_map entry_items].
      rewrite flat_map_app. cbn [flat_map]. rewrite to_theme_str.
      fold (theme_records theme after). cbn [app]. rewrite <- !app_assoc. reflexivity.
Qed.

Lemma merge_results_not_iterable_witness :
  let store := [ JObj [(str "Praise", JArr [insight "c1" "i1"])];
                 JObj [(str "Weird", JNull)] ] in
  let texts := [ JObj [(str "Praise", JArr [insight "c1" "i1"])];
                 JObj [(str "Weird", JStr (str "hi"))] ] in
  let st := sample_world Missing (Holds (JArr store)) Missing in
  let st2 := sample_world Missing (Holds (JArr texts)) Missing in
  (json_load (raw_results_file st) = Some (JArr store)
   /\ In (JObj [(str "Weird", JNull)]) store
   /\ In (str "Weird", JNull) [(str "Weird", JNull)]
   /\ iterable JNull = false)
  /\ (json_load (raw_results_file st2) = Some (JArr texts)
      /\ iterable_values texts = true
      /\ final_writable st2 = true
      /\ dumpable (recursion_room st2) (final_report texts) = true)
  /\ final_results_file (merge_results st) = Missing
  /\ final_results_file (merge_results st2)
     = Holds (JObj [ (str "Requests", JArr []); (str "Complaints", JArr []);
                     (str "Suggestions", JArr []);
                     (str "Praise", JArr [insight "c1" "i1"]);
                     (str "Troubleshooting", JArr []);
                     (str "Other", JArr [JStr (str "h"); JStr (str "i")]) ]).
Proof.
  intros store texts st st2.
  assert (H2 : In (JObj [(str "Weird", JNull)]) store) by (right; left; reflexivity).
  assert (H3 : In (str "Weird", JNull) [(str "Weird", JNull)]) by (left; reflexivity).
  destruct merge_results_not_iterable as [Hfail Htext].
  destruct (Hfail st store [(str "Weird", JNull)] (str "Weird") JNull
              eq_refl H2 H3 eq_refl) as [H _].
  destruct (Htext st2 [JObj [(str "Praise", JArr [insight "c1" "i1"])]] [] []
              [] (str "Weird") (str "hi") eq_refl eq_refl eq_refl eq_refl)
    as [H' _].
  split; [repeat split; assumption|].
  split; [repeat split|].
  split; [exact H|exact H'].
Defined.

End Merger.

(* ================================================================== *)
(** * The pipeline driver *)
(* ================================================================== *)

Module Pipeline.
Import Merger.



Lemma set_raw_file_same st : set_raw_file (raw_results_file st) st = st.
Proof. destruct st. reflexivity. Qed.

Lemma add_invoked_nil st : add_invoked [] st = st.
Proof. destruct st. unfold add_invoked. simpl. rewrite app_nil_r. reflexivity. Qed.

Section Run.

Variable json_loads : caller -> pystr -> parsed.
Variable kickoff : nat -> json -> option pystr.

(** ** One chunk *)

(** Whatever the answer, a chunk touches nothing but the result store and
    the log, and it ends the loop only when the parser raises something
    else than [JSONDecodeError]. *)
Lemma handle_result_any idx result st :
  exists f records,
    handle_result json_loads idx result st
    = (add_log records (set_raw_file f st),
       match json_loads InRun (fix_trailing_commas result) with
       | LoadsRaised => false
       | Parsed _ | DecodeError => true
       end).
Proof.
  unfold handle_result, append_result_to_json.
  destruct (json_loads InRun (fix_trailing_commas result)) as [v| |].
  - cbn [logging add_log raw_writable raw_results_file recursion_room].
    destruct (raw_writable st); cbn [negb].
    + destruct (json_load (raw_results_file st)) as [results|].
      * destruct (json_loads InAppend (fix_trailing_commas (fix_trailing_commas result)))
          as [v'| |].
        -- destruct results;
             try (exists (raw_results_file st); eexists;
                  rewrite set_raw_file_same; unfold logging;
                  rewrite !add_log_app; reflexivity).
           match goal with
           | |- context [set_raw_file ?F _] => exists F
           end.
           destruct (dumpable (recursion_room st) (JArr (l ++ [v'])));
             eexists; unfold logging, set_raw_file, add_log; simpl;
             rewrite <- !app_assoc; reflexivity.
        -- exists (raw_results_file st). eexists.
           rewrite set_raw_file_same. unfold logging. rewrite !add_log_app. reflexivity.
        -- exists (raw_results_file st). eexists.
           rewrite set_raw_file_same. unfold logging. rewrite !add_log_app. reflexivity.
      * exists (raw_results_file st). eexists.
        rewrite set_raw_file_same. unfold logging. rewrite !add_log_app. reflexivity.
    + exists (raw_results_file st). eexists.
      rewrite set_raw_file_same. unfold logging. rewrite !add_log_app. reflexivity.
  - exists (raw_results_file st). eexists.
    rewrite set_raw_file_same. unfold logging. rewrite !add_log_app. reflexivity.
  - exists (raw_results_file st). eexists.
    rewrite set_raw_file_same. unfold logging. reflexivity.
Qed.


(** One chunk, on a result store that is a list in a file that can be
    written, when the list with the value of the chunk can be stored. *)
Lemma handle_result_spec idx result st stored :
  raw_writable st = true ->
  raw_results_file st = Holds (JArr stored) ->
  json_loads InRun (fix_trailing_commas result) <> LoadsRaised ->
  storable st (JArr (stored ++ stored_results json_loads (fun _ => result) [idx])) = true ->
  handle_result json_loads idx result st
  = (add_log (chunk_log json_loads idx result)
       (set_raw_file
          (Holds (JArr (stored ++ stored_results json_loads (fun _ => result) [idx])))
          st),
     true).
Proof.
  intros Hw Hr Hrun Hd.
  unfold storable in Hd. apply andb_true_iff in Hd. destruct Hd as [Hd Hload].
  assert (Hsame : set_raw_file (Holds (JArr (stored ++ []))) st = st).
  { rewrite app_nil_r, <- Hr. apply set_raw_file_same. }
  unfold stored_results, chunk_result, chunk_log in *. cbn [flat_map] in *.
  unfold handle_result, append_result_to_json.
  destruct (json_loads InRun (fix_trailing_commas result)) as [v| |];
    [ | | contradiction Hrun; reflexivity].
  - cbn [logging add_log raw_writable raw_results_file recursion_room].
    rewrite Hw, Hr. cbn [negb json_load].
    destruct (json_loads InAppend (fix_trailing_commas (fix_trailing_commas result)))
      as [v'| |].
    + rewrite app_nil_r in *. rewrite Hd.
      unfold rewritten. cbn [logging raw_results_file add_log recursion_room load_room].
      rewrite Hr, Hd, Hload.
      unfold logging, set_raw_file, add_log; simpl. rewrite <- !app_assoc. reflexivity.
    + cbn [app]. rewrite Hsame. unfold logging. rewrite !add_log_app. reflexivity.
    + cbn [app]. rewrite Hsame. unfold logging. rewrite !add_log_app. reflexivity.
  - cbn [app]. rewrite Hsame. unfold logging, malformed_log.
    rewrite !add_log_app. reflexivity.
Qed.

(** ** The loop *)

(** The loop over two runs of chunks, one after the other. *)
Lemma process_chunks_app : forall pre post idx st,
  process_chunks json_loads kickoff idx (pre ++ post) st
  = match process_chunks json_loads kickoff idx pre st with
    | (st', true) => process_chunks json_loads kickoff (idx + length pre) post st'
    | (st', false) => (st', false)
    end.
Proof.
  induction pre as [|chunk pre IH]; intros post idx st.
  - cbn. rewrite Nat.add_0_r. reflexivity.
  - cbn [app process_chunks length].
    destruct (kickoff idx chunk) as [result|]; [|reflexivity].
    destruct (handle_result json_loads idx result (record_invocation chunk st))
      as [st' [|]]; [|reflexivity].
    rewrite IH, Nat.add_succ_l, <- Nat.add_succ_r. reflexivity.
Qed.

(** When the agent answers every chunk and the parser raises nothing but
    [JSONDecodeError], the loop runs to its end: every chunk is handed over,
    and nothing but the result store and the log is touched. *)
Lemma process_chunks_progress (answer : nat -> pystr) : forall chunks idx st,
  (forall i c, nth_error chunks i = Some c -> kickoff (idx + i) c = Some (answer (idx + i))) ->
  (forall i, i < length chunks ->
             json_loads InRun (fix_trailing_commas (answer (idx + i))) <> LoadsRaised) ->
  exists f records,
    process_chunks json_loads kickoff idx chunks st
    = (add_invoked chunks (add_log records (set_raw_file f st)), true).
Proof.
  induction chunks as [|chunk chunks IH]; intros idx st Hk Hl.
  - exists (raw_results_file st), [].
    rewrite set_raw_file_same, add_log_nil, add_invoked_nil. reflexivity.
  - cbn [process_chunks].
    pose proof (Hk 0 chunk eq_refl) as Hk0. rewrite Nat.add_0_r in Hk0. rewrite Hk0.
    destruct (handle_result_any idx (answer idx) (record_invocation chunk st))
      as [f1 [rec1 E1]].
    rewrite E1.
    pose proof (Hl 0 (Nat.lt_0_succ _)) as Hl0. rewrite Nat.add_0_r in Hl0.
    destruct (json_loads InRun (fix_trailing_commas (answer idx))) as [v| |];
      [ | | contradiction Hl0; reflexivity].
    + destruct (IH (S idx) (add_log rec1 (set_raw_file f1 (record_invocation chunk st))))
        as [f2 [rec2 E2]].
      * intros i c Hi. rewrite Nat.add_succ_l, <- Nat.add_succ_r. apply (Hk (S i) c Hi).
      * intros i Hi. rewrite Nat.add_succ_l, <- Nat.add_succ_r. apply (Hl (S i)).
        simpl. lia.
      * exists f2, (rec1 ++ rec2). rewrite E2.
        unfold add_invoked, add_log, set_raw_file, record_invocation; simpl.
        rewrite <- !app_assoc. reflexivity.
    + destruct (IH (S idx) (add_log rec1 (set_raw_file f1 (record_invocation chunk st))))
        as [f2 [rec2 E2]].
      * intros i c Hi. rewrite Nat.add_succ_l, <- Nat.add_succ_r. apply (Hk (S i) c Hi).
      * intros i Hi. rewrite Nat.add_succ_l, <- Nat.add_succ_r. apply (Hl (S i)).
        simpl. lia.
      * exists f2, (rec1 ++ rec2). rewrite E2.
        unfold add_invoked, add_log, set_raw_file, record_invocation; simpl.
        rewrite <- !app_assoc. reflexivity.
Qed.

(** The loop on a result store that is a list in a file that can be
    written, when the list with all the values of the chunks can be
    stored. *)
Lemma process_chunks_spec (answer : nat -> pystr) : forall chunks idx st stored,
  raw_writable st = true ->
  raw_results_file st = Holds (JArr stored) ->
  (forall i c, nth_error chunks i = Some c -> kickoff (idx + i) c = Some (answer (idx + i))) ->
  (forall i, i < length chunks ->
             json_loads InRun (fix_trailing_commas (answer (idx + i))) <> LoadsRaised) ->
  storable st
    (JArr (stored ++ stored_results json_loads answer (seq idx (length chunks)))) = true ->
  process_chunks json_loads kickoff idx chunks st
  = (add_invoked chunks
       (add_log (flat_map (fun i => chunk_log json_loads i (answer i))
                          (seq idx (length chunks)))
          (set_raw_file
             (Holds (JArr (stored
                           ++ stored_results json_loads answer (seq idx (length chunks)))))
             st)),
     true).
Proof.
  induction chunks as [|chunk chunks IH]; intros idx st stored Hw Hr Hk Hl Hd.
  - cbn [length seq flat_map stored_results process_chunks].
    rewrite app_nil_r, <- Hr, set_raw_file_same, add_log_nil, add_invoked_nil.
    reflexivity.
  - cbn [process_chunks].
    pose proof (Hk 0 chunk eq_refl) as Hk0. rewrite Nat.add_0_r in Hk0. rewrite Hk0.
    pose proof (Hl 0 (Nat.lt_0_succ _)) as Hl0. rewrite Nat.add_0_r in Hl0.
    assert (Hsplit : stored_results json_loads answer (seq idx (length (chunk :: chunks)))
                     = stored_results json_loads (fun _ => answer idx) [idx]
                       ++ stored_results json_loads answer (seq (S idx) (length chunks))).
    { unfold stored_results. cbn [length seq flat_map]. rewrite app_nil_r. reflexivity. }
    rewrite Hsplit, app_assoc in Hd.
    rewrite (handle_result_spec idx (answer idx) (record_invocation chunk st) stored
               Hw Hr Hl0 (Dump.storable_prefix st _ _ Hd)).
    rewrite (IH (S idx) _ (stored ++ stored_results json_loads (fun _ => answer idx) [idx])).
    + rewrite Hsplit. cbn [length seq flat_map].
      unfold add_invoked, add_log, set_raw_file, record_invocation; simpl.
      rewrite <- !app_assoc. reflexivity.
    + exact Hw.
    + reflexivity.
    + intros i c Hi. rewrite Nat.add_succ_l, <- Nat.add_succ_r. apply (Hk (S i) c Hi).
    + intros i Hi. rewrite Nat.add_succ_l, <- Nat.add_succ_r. apply (Hl (S i)).
      simpl. lia.
    + exact Hd.
Qed.

(** ** The run *)

(** The state in which the loop starts, for a comment source that holds a
    list. *)
Lemma run_list st comments chunks :
  json_load (comments_file st) = Some (JArr comments) ->
  split_comments (JArr comments) chunk_size = Some chunks ->
  run json_loads kickoff st
  = match process_chunks json_loads kickoff 0 chunks
            (logging INFO (LoadedComments (JArr (py_slice comments 0 5))) st) with
    | (st', true) => merge_results st'
    | (st', false) => logging ERROR AnErrorOccurred st'
    end.
Proof.
  intros Hc Hs. unfold run. rewrite Hc, Hs. reflexivity.
Qed.

Lemma initialize_results_file_writable st :
  raw_writable st = true ->
  initialize_results_file st
  = logging INFO ResultsFileCreated (set_raw_file (Holds (JArr [])) st).
Proof.
  intro H. unfold initialize_results_file. rewrite H. reflexivity.
Qed.

(** The constructor touches nothing but the result store and the log. *)
Lemma initialize_results_file_any st :
  exists f records, initialize_results_file st = add_log records (set_raw_file f st).
Proof.
  unfold initialize_results_file. destruct (raw_writable st).
  - eexists. eexists. reflexivity.
  - exists (raw_results_file st). eexists. rewrite set_raw_file_same. reflexivity.
Qed.

(** The run on a list of comments, when the agent answers every chunk and
    the parser raises nothing but [JSONDecodeError]: the loop goes through
    every chunk, then the merger runs. *)
Lemma comments_analysis_progress st comments chunks (answer : nat -> pystr) :
  json_load (comments_file st) = Some (JArr comments) ->
  split_comments (JArr comments) chunk_size = Some chunks ->
  (forall i c, nth_error chunks i = Some c -> kickoff i c = Some (answer i)) ->
  decodes json_loads answer (length chunks) ->
  exists f records,
    process_chunks json_loads kickoff 0 chunks
      (logging INFO (LoadedComments (JArr (py_slice comments 0 5)))
         (initialize_results_file st))
    = (add_invoked chunks (add_log records (set_raw_file f st)), true)
    /\ comments_analysis json_loads kickoff st
       = merge_results (add_invoked chunks (add_log records (set_raw_file f st))).
Proof.
  intros Hc Hsplit Hk Hl.
  destruct (initialize_results_file_any st) as [f0 [rec0 E0]].
  destruct (process_chunks_progress answer chunks 0
              (logging INFO (LoadedComments (JArr (py_slice comments 0 5)))
                 (initialize_results_file st)) Hk Hl) as [f [records E]].
  unfold comments_analysis.
  rewrite (run_list (initialize_results_file st) comments chunks);
    [|rewrite E0; exact Hc|exact Hsplit].
  rewrite E. rewrite E0.
  exists f, (rec0 ++ [(INFO, LoadedComments (JArr (py_slice comments 0 5)))] ++ records).
  assert (Est : add_invoked chunks
                  (add_log records
                     (set_raw_file f
                        (logging INFO (LoadedComments (JArr (py_slice comments 0 5)))
                           (add_log rec0 (set_raw_file f0 st)))))
                = add_invoked chunks
                    (add_log (rec0 ++ [(INFO, LoadedComments (JArr (py_slice comments 0 5)))]
                              ++ records)
                       (set_raw_file f st))).
  { unfold add_invoked, add_log, set_raw_file, logging; simpl.
    rewrite <- !app_assoc. reflexivity. }
  rewrite Est. split; reflexivity.
Qed.




(** C5. With an empty list of comments the batcher yields no chunk, the
    agent is not called, the result store is the empty list the constructor
    reset it to, and the final report has the six keys, each with an empty
    list. *)
Theorem empty_comment_source (st : state) :
  comments_file st = Holds (JArr []) ->
  raw_writable st = true ->
  final_writable st = true ->
  split_comments (JArr []) chunk_size = Some []
  /\ raw_results_file (initialize_results_file st) = Holds (JArr [])
  /\ invoked (comments_analysis json_loads kickoff st) = invoked st
  /\ raw_results_file (comments_analysis json_loads kickoff st) = Holds (JArr [])
  /\ final_results_file (comments_analysis json_loads kickoff st)
     = Holds (JObj [ (str "Requests", JArr []); (str "Complaints", JArr []);
                     (str "Suggestions", JArr []); (str "Praise", JArr []);
                     (str "Troubleshooting", JArr []); (str "Other", JArr []) ]).
Proof.
  intros Hc Hw Hf.
  destruct st as [cf rf ff rw fw lg inv room lroom keeps].
  simpl in Hc, Hw, Hf. subst cf rw fw.
  repeat split.
Qed.

(** C6. When the comment source is missing or cannot be read, the run stops
    at once: its only effect is one error record in the log. The agent is not
    called, the result store and the report file are untouched, and the
    merger, which always logs its outcome, does not run. *)
Theorem run_source_unavailable (st : state) :
  comments_file st = Missing \/ comments_file st = Unreadable ->
  run json_loads kickoff st = logging ERROR AnErrorOccurred st
  /\ invoked (run json_loads kickoff st) = invoked st
  /\ raw_results_file (run json_loads kickoff st) = raw_results_file st
  /\ final_results_file (run json_loads kickoff st) = final_results_file st
  /\ log (run json_loads kickoff st) = log st ++ [(ERROR, AnErrorOccurred)].
Proof.
  intros [H|H]; unfold run; rewrite H; repeat split.
Qed.

End Run.

Lemma sample_loads_decodes answer n : decodes sample_loads answer n.
Proof.
  intros i _. unfold sample_loads.
  destruct (pystr_eqb _ _); [discriminate|].
  destruct (pystr_eqb _ _); discriminate.
Qed.



Lemma empty_comment_source_witness :
  let st := sample_state (Holds (JArr [])) in
  (comments_file st = Holds (JArr [])
   /\ raw_writable st = true
   /\ final_writable st = true)
  /\ split_comments (JArr []) chunk_size = Some []
  /\ invoked (comments_analysis sample_loads sample_kickoff st) = []
  /\ raw_results_file (comments_analysis sample_loads sample_kickoff st) = Holds (JArr [])
  /\ final_results_file (comments_analysis sample_loads sample_kickoff st)
     = Holds (report_json final_results_init).
Proof.
  intro st.
  destruct (empty_comment_source sample_loads sample_kickoff st eq_refl eq_refl eq_refl)
    as [H1 [_ [H3 [H4 H5]]]].
  split; [repeat split|].
  split; [exact H1|]. split; [exact H3|]. split; [exact H4|exact H5].
Defined.

Lemma run_source_unavailable_witness :
  let st := sample_state Missing in
  (comments_file st = Missing \/ comments_file st = Unreadable)
  /\ run sample_loads sample_kickoff st = logging ERROR AnErrorOccurred st
  /\ invoked (run sample_loads sample_kickoff st) = []
  /\ final_results_file (run sample_loads sample_kickoff st) = Missing.
Proof.
  intro st.
  destruct (run_source_unavailable sample_loads sample_kickoff st (or_introl eq_refl))
    as [H1 [H2 [_ [H4 _]]]].
  split; [left; reflexivity|].
  split; [exact H1|]. split; [exact H2|exact H4].
Defined.

End Pipeline.

(* ================================================================== *)
(** * The video id of a URL *)
(* ================================================================== *)

Module VideoId.
Import Re ReFacts.

Lemma match_times p n : forall s rest,
  match_here (times n p) s = Some rest ->
  exists m, s = m ++ rest /\ length m = n /\ forallb p m = true.
Proof.
  induction n as [|n IH]; intros s rest H.
  - injection H as <-. exists []. repeat split.
  - destruct s as [|c t]; [discriminate|].
    cbn [times repeat match_here] in H. destruct (p c) eqn:Hc; [|discriminate].
    destruct (IH t rest H) as [m [-> [Hl Hm]]].
    exists (c :: m). simpl. rewrite Hc, Hm, Hl. repeat split.
Qed.

Lemma match_times_ok p n : forall m rest,
  length m = n -> forallb p m = true ->
  match_here (times n p) (m ++ rest) = Some rest.
Proof.
  induction n as [|n IH]; intros m rest Hl Hm.
  - destruct m; [reflexivity|discriminate].
  - destruct m as [|c m]; [discriminate|].
    simpl in Hl, Hm. apply andb_true_iff in Hm. destruct Hm as [Hc Hm].
    cbn [times repeat match_here app]. rewrite Hc.
    apply IH; [lia|exact Hm].
Qed.

Lemma firstn_exact (m rest : pystr) n : length m = n -> firstn n (m ++ rest) = m.
Proof.
  intros <-. rewrite firstn_app, Nat.sub_diag, firstn_all. simpl. apply app_nil_r.
Qed.

(** A match at the head of a text: the lead, the id, the rest. *)
Lemma match_video_id_some s id :
  match_video_id s = Some id ->
  length id = 11 /\ forallb is_id_char id = true
  /\ exists post, s = str "v=" ++ id ++ post \/ s = str "/" ++ id ++ post.
Proof.
  unfold match_video_id, pat_video_id.
  destruct (match_here ([One (is_chr "v"); One (is_chr "=")] ++ times 11 is_id_char) s)
    as [rest|] eqn:E1.
  - intro H.
    destruct s as [|c1 [|c2 t]]; cbn [app match_here] in E1; try discriminate E1;
      destruct (is_chr "v" c1) eqn:H1; try discriminate E1.
    destruct (is_chr "=" c2) eqn:H2; try discriminate E1.
    destruct (match_times _ _ _ _ E1) as [m [Et [Hl Hm]]]. subst t.
    apply N.eqb_eq in H1, H2. subst c1 c2.
    cbn [skipn] in H. rewrite (firstn_exact m rest 11 Hl) in H.
    injection H as <-.
    split; [exact Hl|]. split; [exact Hm|].
    exists rest. left. reflexivity.
  - destruct (match_here ([One (is_chr "/")] ++ times 11 is_id_char) s)
      as [rest|] eqn:E2; [|discriminate].
    intro H.
    destruct s as [|c1 t]; cbn [app match_here] in E2; try discriminate E2.
    destruct (is_chr "/" c1) eqn:H1; try discriminate E2.
    destruct (match_times _ _ _ _ E2) as [m [Et [Hl Hm]]]. subst t.
    apply N.eqb_eq in H1. subst c1.
    cbn [skipn] in H. rewrite (firstn_exact m rest 11 Hl) in H.
    injection H as <-.
    split; [exact Hl|]. split; [exact Hm|].
    exists rest. right. reflexivity.
Qed.

Lemma search_skip c t :
  match_video_id (c :: t) = None -> search_video_id (c :: t) = search_video_id t.
Proof. intro H. cbn [search_video_id]. rewrite H. reflexivity. Qed.

(** A character that is neither [v] nor a slash starts no match. *)
Lemma match_video_id_lead c t :
  is_chr "v" c = false -> is_chr "/" c = false -> match_video_id (c :: t) = None.
Proof.
  intros Hv Hs. unfold match_video_id, pat_video_id.
  cbn [app match_here]. rewrite Hv, Hs. reflexivity.
Qed.

Lemma match_video_id_v id rest :
  length id = 11 -> forallb is_id_char id = true ->
  match_video_id (str "v=" ++ id ++ rest) = Some id.
Proof.
  intros Hl Hm. unfold match_video_id, pat_video_id.
  change (str "v=" ++ id ++ rest) with (chr "v" :: chr "=" :: id ++ rest).
  cbn [app match_here].
  change (is_chr "v" (chr "v")) with true. change (is_chr "=" (chr "=")) with true.
  cbv iota. rewrite (match_times_ok _ _ id rest Hl Hm).
  cbn [skipn]. rewrite (firstn_exact id rest 11 Hl). reflexivity.
Qed.

Lemma match_video_id_slash id rest :
  length id = 11 -> forallb is_id_char id = true ->
  match_video_id (str "/" ++ id ++ rest) = Some id.
Proof.
  intros Hl Hm. unfold match_video_id, pat_video_id.
  change (str "/" ++ id ++ rest) with (chr "/" :: id ++ rest).
  cbn [app match_here].
  change (is_chr "v" (chr "/")) with false. change (is_chr "/" (chr "/")) with true.
  cbv iota. rewrite (match_times_ok _ _ id rest Hl Hm).
  cbn [skipn]. rewrite (firstn_exact id rest 11 Hl). reflexivity.
Qed.

(** X1. Whatever [extract_video_id] returns is eleven characters of the
    class [[0-9A-Za-z_-]] that stand in the URL right after [v=] or after a
    slash. *)
Theorem extract_video_id_sound (url id : pystr) :
  extract_video_id url = Some id ->
  length id = 11
  /\ forallb is_id_char id = true
  /\ exists pre post,
       url = pre ++ str "v=" ++ id ++ post \/ url = pre ++ str "/" ++ id ++ post.
Proof.
  unfold extract_video_id.
  induction url as [|c t IH]; intro H.
  - discriminate H.
  - cbn [search_video_id] in H.
    destruct (match_video_id (c :: t)) as [g|] eqn:E.
    + injection H as ->.
      destruct (match_video_id_some _ _ E) as [Hl [Hm [post Hs]]].
      split; [exact Hl|]. split; [exact Hm|].
      exists [], post. exact Hs.
    + destruct (IH H) as [Hl [Hm [pre [post Hs]]]].
      split; [exact Hl|]. split; [exact Hm|].
      exists (c :: pre), post.
      destruct Hs as [-> | ->]; [left|right]; reflexivity.
Qed.

Lemma extract_video_id_sound_witness :
  extract_video_id (str "https://youtu.be/dQw4w9WgXcQ?t=42") = Some (str "dQw4w9WgXcQ")
  /\ length (str "dQw4w9WgXcQ") = 11
  /\ forallb is_id_char (str "dQw4w9WgXcQ") = true.
Proof.
  destruct (extract_video_id_sound (str "https://youtu.be/dQw4w9WgXcQ?t=42")
              (str "dQw4w9WgXcQ") eq_refl) as [H1 [H2 _]].
  split; [reflexivity|]. split; [exact H1|exact H2].
Defined.

Ltac skip_prefix := repeat (rewrite search_skip by reflexivity).

(** X2. The id of a watch URL and of a short URL is found: after
    [https://www.youtube.com/watch?v=] and after [https://youtu.be/], eleven
    characters of the class are returned, whatever follows them. *)
Theorem extract_video_id_standard (id rest : pystr) :
  length id = 11 -> forallb is_id_char id = true ->
  extract_video_id (str "https://www.youtube.com/watch?v=" ++ id ++ rest) = Some id
  /\ extract_video_id (str "https://youtu.be/" ++ id ++ rest) = Some id.
Proof.
  intros Hl Hm. unfold extract_video_id. split.
  - change (str "https://www.youtube.com/watch?v=" ++ id ++ rest)
      with (str "https://www.youtube.com/watch?" ++ (str "v=" ++ id ++ rest)).
    cbn [str list_ascii_of_string map app].
    skip_prefix.
    pose proof (match_video_id_v id rest Hl Hm) as E.
    cbn [str list_ascii_of_string map app] in E.
    destruct id as [|c id']; [discriminate Hl|].
    cbn [search_video_id]. rewrite E. reflexivity.
  - change (str "https://youtu.be/" ++ id ++ rest)
      with (str "https://youtu.be" ++ (str "/" ++ id ++ rest)).
    cbn [str list_ascii_of_string map app].
    skip_prefix.
    pose proof (match_video_id_slash id rest Hl Hm) as E.
    cbn [str list_ascii_of_string map app] in E.
    cbn [search_video_id]. rewrite E. reflexivity.
Qed.

Lemma extract_video_id_standard_witness :
  (length (str "dQw4w9WgXcQ") = 11 /\ forallb is_id_char (str "dQw4w9WgXcQ") = true)
  /\ extract_video_id (str "https://www.youtube.com/watch?v=dQw4w9WgXcQ&t=1s")
     = Some (str "dQw4w9WgXcQ")
  /\ extract_video_id (str "https://youtu.be/dQw4w9WgXcQ&t=1s") = Some (str "dQw4w9WgXcQ").
Proof.
  split; [split; reflexivity|].
  exact (extract_video_id_standard (str "dQw4w9WgXcQ") (str "&t=1s") eq_refl eq_refl).
Defined.

(** X3. The leftmost candidate wins: when the path of a URL starts with
    eleven characters of the class, they are returned as the id, also when a
    [v=] parameter comes later in [rest]. *)
Theorem extract_video_id_leftmost (segment rest : pystr) :
  length segment = 11 -> forallb is_id_char segment = true ->
  extract_video_id (str "https://www.youtube.com/" ++ segment ++ rest) = Some segment.
Proof.
  intros Hl Hm. unfold extract_video_id.
  change (str "https://www.youtube.com/" ++ segment ++ rest)
    with (str "https://www.youtube.com" ++ (str "/" ++ segment ++ rest)).
  cbn [str list_ascii_of_string map app].
  skip_prefix.
  pose proof (match_video_id_slash segment rest Hl Hm) as E.
  cbn [str list_ascii_of_string map app] in E.
  cbn [search_video_id]. rewrite E. reflexivity.
Qed.

Lemma extract_video_id_leftmost_witness :
  (length (str "playlist_of") = 11 /\ forallb is_id_char (str "playlist_of") = true)
  /\ extract_video_id (str "https://www.youtube.com/playlist_of_mine?v=dQw4w9WgXcQ")
     = Some (str "playlist_of").
Proof.
  split; [split; reflexivity|].
  exact (extract_video_id_leftmost (str "playlist_of") (str "_mine?v=dQw4w9WgXcQ")
           eq_refl eq_refl).
Defined.

(** X4. A text without slash and without equals sign has no video id: a
    bare id, without its URL, is rejected. *)
Theorem extract_video_id_bare (url : pystr) :
  forallb (fun c => negb (is_chr "/" c) && negb (is_chr "=" c)) url = true ->
  extract_video_id url = None.
Proof.
  unfold extract_video_id.
  induction url as [|c t IH]; intro H; [reflexivity|].
  cbn [forallb] in H. apply andb_true_iff in H. destruct H as [Hc Ht].
  apply andb_true_iff in Hc. destruct Hc as [Hs He].
  apply negb_true_iff in Hs, He.
  cbn [search_video_id].
  assert (E : match_video_id (c :: t) = None).
  { unfold match_video_id, pat_video_id. cbn [app match_here]. rewrite Hs.
    destruct (is_chr "v" c); [|reflexivity].
    destruct t as [|c2 t2]; [reflexivity|].
    cbn [forallb] in Ht. apply andb_true_iff in Ht. destruct Ht as [Hc2 _].
    apply andb_true_iff in Hc2. destruct Hc2 as [_ He2].
    apply negb_true_iff in He2. rewrite He2. reflexivity. }
  rewrite E. apply IH, Ht.
Qed.

Lemma extract_video_id_bare_witness :
  forallb (fun c => negb (is_chr "/" c) && negb (is_chr "=" c)) (str "dQw4w9WgXcQ") = true
  /\ extract_video_id (str "dQw4w9WgXcQ") = None.
Proof.
  split; [reflexivity|].
  exact (extract_video_id_bare (str "dQw4w9WgXcQ") eq_refl).
Defined.

End VideoId.

(* ================================================================== *)
(** * The comment fetcher and the main program *)
(* ================================================================== *)

Module Tool.
Import Sanitizer Whitespace.

Lemma clean_sanitized s : sanitized (clean_escape_characters s) = true.
Proof.
  unfold sanitized. destruct (clean_normal s) as [H1 [H2 H3]].
  rewrite clean_is_plain, H1, H2, H3. reflexivity.
Qed.

Lemma sanitized_fixed s : sanitized s = true -> clean_escape_characters s = s.
Proof.
  unfold sanitized. intro H.
  apply andb_true_iff in H. destruct H as [H H4].
  apply andb_true_iff in H. destruct H as [H H3].
  apply andb_true_iff in H. destruct H as [H1 H2].
  apply negb_true_iff in H3, H4.
  rewrite (clean_plain s H1), (squeeze_id s H2). apply strip_id; assumption.
Qed.

(** X5. The texts the sanitizer leaves unchanged are exactly those without
    backslash and double quote whose whitespace is single spaces between
    other characters. *)
Theorem clean_escape_characters_fixed_points (s : pystr) :
  clean_escape_characters s = s <-> sanitized s = true.
Proof.
  split.
  - intro H. rewrite <- H. apply clean_sanitized.
  - apply sanitized_fixed.
Qed.

Section Run.

Variable client_built : bool.
Variable list_page : pystr -> option pystr -> option (list pystr * option pystr).
Variable json_loads : caller -> pystr -> parsed.
Variable kickoff : nat -> json -> option pystr.

(** The loop over the pages the API serves. *)
Lemma fetch_pages_serves video_id : forall token pages,
  serves list_page video_id token pages ->
  forall fuel comments w,
    length pages <= fuel ->
    exists sent,
      length sent = length pages
      /\ fetch_pages list_page fuel video_id token comments w
         = (mkSession (files w) (comments_writable w) (tool_log w) (requests w ++ sent),
            Comments (comments ++ map clean_escape_characters (concat pages))).
Proof.
  induction 1 as [token items next Hp Hn | token items next pages Hp Hn Hs IH];
    intros fuel comments w Hf.
  - destruct fuel as [|fuel]; [simpl in Hf; lia|].
    exists [(video_id, token)]. split; [reflexivity|].
    cbn [fetch_pages]. rewrite Hp, Hn. cbn [concat]. rewrite app_nil_r. reflexivity.
  - destruct fuel as [|fuel]; [simpl in Hf; lia|].
    cbn [fetch_pages]. rewrite Hp, Hn.
    destruct (IH fuel (comments ++ map clean_escape_characters items)
                 (record_request video_id token w)) as [sent [Hl E]];
      [simpl in Hf; lia|].
    exists ((video_id, token) :: sent). split; [simpl; rewrite Hl; reflexivity|].
    rewrite E. cbn [record_request files comments_writable tool_log requests concat].
    rewrite map_app, <- !app_assoc. reflexivity.
Qed.

(** The loop when a request raises. *)
Lemma fetch_pages_breaks video_id : forall token n,
  breaks list_page video_id token n ->
  forall fuel comments w,
    n <= fuel ->
    exists sent,
      length sent = n
      /\ fetch_pages list_page fuel video_id token comments w
         = (mkSession (files w) (comments_writable w) (tool_log w) (requests w ++ sent),
            Raised).
Proof.
  induction 1 as [token Hp | token items next n Hp Hn Hb IH];
    intros fuel comments w Hf.
  - destruct fuel as [|fuel]; [lia|].
    exists [(video_id, token)]. split; [reflexivity|].
    cbn [fetch_pages]. rewrite Hp. reflexivity.
  - destruct fuel as [|fuel]; [lia|].
    cbn [fetch_pages]. rewrite Hp, Hn.
    destruct (IH fuel (comments ++ map clean_escape_characters items)
                 (record_request video_id token w)) as [sent [Hl E]]; [lia|].
    exists ((video_id, token) :: sent). split; [simpl; rewrite Hl; reflexivity|].
    rewrite E. cbn [record_request files comments_writable tool_log requests].
    rewrite <- app_assoc. reflexivity.
Qed.

(** X6. When the API serves the pages of a video up to one without next
    token, the tool sends one request per page and returns the comments of
    all pages in order, each sanitized and none dropped (an empty one
    included). When comments.json can be opened for writing, it ends as that
    list if no comment holds a lone surrogate, and cut short, with the
    failure logged, if one does; when it cannot be opened it stays as it
    was. The list is returned all the same. *)
Theorem run_tool_fetches
    (fuel : nat) (video_url video_id : pystr) (pages : list (list pystr)) (w : session) :
  extract_video_id video_url = Some video_id ->
  client_built = true ->
  serves list_page video_id None pages ->
  length pages <= fuel ->
  let comments := map clean_escape_characters (concat pages) in
  let w' := fst (_run client_built list_page fuel video_url w) in
  let saved := comments_writable w && forallb encodable_str comments in
  snd (_run client_built list_page fuel video_url w) = Some comments
  /\ length comments = length (concat pages)
  /\ forallb sanitized comments = true
  /\ length (requests w') = length (requests w) + length pages
  /\ comments_file (files w')
     = (if comments_writable w
        then if forallb encodable_str comments
             then Holds (JArr (map JStr comments)) else Unreadable
        else comments_file (files w))
  /\ raw_results_file (files w') = raw_results_file (files w)
  /\ final_results_file (files w') = final_results_file (files w)
  /\ tool_log w'
     = tool_log w
       ++ [ if saved then (INFO, CommentsSaved) else (ERROR, FailedToSaveComments);
            (INFO, CommentsRetrieved (length comments)) ].
Proof.
  intros Hid Hc Hs Hf comments w' saved.
  destruct (fetch_pages_serves video_id None pages Hs fuel [] w Hf) as [sent [Hl E]].
  unfold saved, w', _run. rewrite Hid, Hc. cbn [negb]. rewrite E. cbn [app].
  fold comments.
  split; [reflexivity|].
  split; [unfold comments; apply length_map|].
  split.
  { unfold comments. apply forallb_forall. intros c Hin.
    apply in_map_iff in Hin. destruct Hin as [x [<- _]]. apply clean_sanitized. }
  unfold save_comments_to_json, written. cbn [comments_writable files].
  rewrite (Dump.dumpable_strs (recursion_room (files w)) comments).
  destruct (comments_writable w); destruct (forallb encodable_str comments);
    cbn; rewrite ?length_app, ?Hl;
    repeat split; rewrite <- ?app_assoc; reflexivity.
Qed.

(** X7. When a request raises, on the first page or after some pages, the
    tool returns the empty list: the comments of the pages fetched so far are
    dropped, comments.json is not written, and one error is logged. The main
    program goes on all the same and analyses the comments.json that was
    there before. *)
Theorem run_tool_request_fails
    (fuel n : nat) (video_url video_id : pystr) (w : session) :
  extract_video_id video_url = Some video_id ->
  client_built = true ->
  breaks list_page video_id None n ->
  n <= fuel ->
  let w' := fst (_run client_built list_page fuel video_url w) in
  snd (_run client_built list_page fuel video_url w) = Some []
  /\ files w' = files w
  /\ length (requests w') = length (requests w) + n
  /\ tool_log w' = tool_log w ++ [(ERROR, ToolError)]
  /\ option_map files (main client_built list_page json_loads kickoff fuel video_url w)
     = Some (comments_analysis json_loads kickoff (files w)).
Proof.
  intros Hid Hc Hb Hf w'.
  destruct (fetch_pages_breaks video_id None n Hb fuel [] w Hf) as [sent [Hl E]].
  unfold w', main, _run. rewrite Hid, Hc. cbn [negb]. rewrite E.
  cbn. rewrite length_app, Hl. repeat split.
Qed.

(** X8. A URL without video id, or a client that cannot be built, ends the
    tool before any request: it returns the empty list and leaves
    comments.json alone. The main program goes on all the same and
    analyses the comments.json that was there before. *)
Theorem run_tool_no_request (fuel : nat) (video_url : pystr) (w : session) :
  extract_video_id video_url = None \/ client_built = false ->
  let w' := fst (_run client_built list_page fuel video_url w) in
  snd (_run client_built list_page fuel video_url w) = Some []
  /\ files w' = files w
  /\ requests w' = requests w
  /\ (exists m, tool_log w' = tool_log w ++ [(ERROR, m)])
  /\ option_map files (main client_built list_page json_loads kickoff fuel video_url w)
     = Some (comments_analysis json_loads kickoff (files w)).
Proof.
  intros H w'. unfold w', main, _run.
  destruct (extract_video_id video_url) as [video_id|] eqn:Hid.
  - destruct H as [H|H]; [discriminate H|]. rewrite H. cbn.
    repeat split. exists ToolError. reflexivity.
  - cbn. repeat split. exists InvalidUrl. reflexivity.
Qed.

End Run.

Lemma run_tool_fetches_witness :
  let url := str "https://youtu.be/dQw4w9WgXcQ" in
  let pages := [[str "  great\tvideo "; str "first"]; [jtext "so 'good'"]] in
  let w := sample_session Missing in
  (extract_video_id url = Some (str "dQw4w9WgXcQ")
   /\ serves sample_pages (str "dQw4w9WgXcQ") None pages
   /\ length pages <= 5)
  /\ snd (_run true sample_pages 5 url w)
     = Some [str "great video"; str "first"; str "so good"]
  /\ comments_file (files (fst (_run true sample_pages 5 url w)))
     = Holds (JArr [JStr (str "great video"); JStr (str "first"); JStr (str "so good")]).
Proof.
  intros url pages w.
  assert (Hs : serves sample_pages (str "dQw4w9WgXcQ") None pages).
  { eapply serves_more; [reflexivity|reflexivity|].
    eapply serves_last; reflexivity. }
  assert (Hf : length pages <= 5) by (simpl; lia).
  destruct (run_tool_fetches true sample_pages 5 url (str "dQw4w9WgXcQ") pages w
              eq_refl eq_refl Hs Hf) as [H1 [_ [_ [_ [H5 _]]]]].
  split; [split; [reflexivity|split; assumption]|].
  split; [exact H1|exact H5].
Defined.

Lemma run_tool_request_fails_witness :
  let url := str "https://youtu.be/dQw4w9WgXcQ" in
  let w := sample_session (Holds (JArr [])) in
  (extract_video_id url = Some (str "dQw4w9WgXcQ")
   /\ breaks sample_broken_pages (str "dQw4w9WgXcQ") None 2
   /\ 2 <= 5)
  /\ snd (_run true sample_broken_pages 5 url w) = Some []
  /\ files (fst (_run true sample_broken_pages 5 url w)) = files w.
Proof.
  intros url w.
  assert (Hb : breaks sample_broken_pages (str "dQw4w9WgXcQ") None 2).
  { eapply breaks_later; [reflexivity|reflexivity|]. apply breaks_now. reflexivity. }
  assert (Hf : 2 <= 5) by lia.
  destruct (run_tool_request_fails true sample_broken_pages sample_loads sample_kickoff
              5 2 url (str "dQw4w9WgXcQ") w eq_refl eq_refl Hb Hf) as [H1 [H2 _]].
  split; [split; [reflexivity|split; assumption]|].
  split; [exact H1|exact H2].
Defined.

Lemma run_tool_no_request_witness :
  let url := str "dQw4w9WgXcQ" in
  let w := sample_session (Holds (JArr [])) in
  (extract_video_id url = None \/ true = false)
  /\ snd (_run true sample_pages 5 url w) = Some []
  /\ requests (fst (_run true sample_pages 5 url w)) = [].
Proof.
  intros url w.
  destruct (run_tool_no_request true sample_pages sample_loads sample_kickoff
              5 url w (or_introl eq_refl)) as [H1 [_ [H3 _]]].
  split; [left; reflexivity|]. split; [exact H1|exact H3].
Defined.

End Tool.

(* ================================================================== *)
(** * More on the pipeline driver *)
(* ================================================================== *)

Module Driver.
Import Merger Pipeline.

(** The batcher on a list, for a positive chunk size. *)
Lemma split_comments_list (comments : list json) (K : Z) :
  (0 < K)%Z ->
  exists chunks : list (list json),
    split_comments (JArr comments) K = Some (map JArr chunks)
    /\ concat chunks = comments
    /\ Z.of_nat (length chunks) = ((Z.of_nat (length comments) + K - 1) / K)%Z
    /\ Forall (fun c => (1 <= Z.of_nat (length c) <= K)%Z) chunks.
Proof.
  intro HK.
  set (N := Z.of_nat (length comments)).
  exists (map (fun j => py_slice comments j (j + K)) (range_up (Z.to_nat N) 0 N K)).
  destruct (Batcher.chunks_from_spec comments K HK (Z.to_nat N) 0)
    as [Hc [Hl [Hall _]]]; [lia|fold N; lia|].
  fold N in Hc, Hl, Hall. cbn [Z.to_nat skipn] in Hc.
  rewrite Z.sub_0_r in Hl.
  assert (Hdiv : (0 <= (N + K - 1) / K)%Z) by (apply Z.div_pos; lia).
  split; [apply Batcher.split_comments_from, HK|].
  split; [exact Hc|]. split; [lia|exact Hall].
Qed.

Section Run.

Variable json_loads : caller -> pystr -> parsed.
Variable kickoff : nat -> json -> option pystr.

(** ** What one chunk can do to the result store *)

(** A store that cannot be read or written stays as it is; a store that is
    a list stays, gets one value at its end, or is left cut short by a
    [json.dump] that raises. *)
Lemma handle_result_store idx result st :
  let st' := fst (handle_result json_loads idx result st) in
  (json_load (raw_results_file st) = None -> raw_results_file st' = raw_results_file st)
  /\ (raw_writable st = false -> raw_results_file st' = raw_results_file st)
  /\ (forall l, raw_results_file st = Holds (JArr l) ->
        raw_results_file st' = Unreadable
        \/ raw_results_file st' = Holds (JArr l)
        \/ exists v, raw_results_file st' = Holds (JArr (l ++ [v]))).
Proof.
  unfold handle_result, append_result_to_json, rewritten.
  destruct st as [cf rf ff rw fw lg inv room lroom keeps].
  cbn [logging add_log raw_writable raw_results_file recursion_room load_room torn_keeps].
  destruct (json_loads InRun (fix_trailing_commas result)) as [v| |]; cbn [fst];
    [|cbn; auto|cbn; auto].
  destruct rw; cbn [negb]; [|cbn; auto].
  destruct rf as [| |results|results over]; cbn [json_load]; try (cbn; auto; fail).
  - destruct (json_loads InAppend (fix_trailing_commas (fix_trailing_commas result)))
      as [v'| |]; [|cbn; auto|cbn; auto].
    destruct results; try (cbn; auto; fail).
    split; [discriminate|]. split; [discriminate|].
    intros l0 H. injection H as <-.
    destruct (dumpable room (JArr (l ++ [v']))); cbn [raw_results_file add_log set_raw_file].
    + destruct (depth (JArr (l ++ [v'])) <=? 2 + lroom); [|left; reflexivity].
      right. right. exists v'. reflexivity.
    + destruct (keeps (JArr l) (JArr (l ++ [v']))); auto.
  - split; [discriminate|]. split; [discriminate|]. discriminate.
Qed.

(** A chunk leaves the rest of the state alone. *)
Lemma handle_result_frame idx result st :
  let st' := fst (handle_result json_loads idx result st) in
  comments_file st' = comments_file st
  /\ final_results_file st' = final_results_file st
  /\ raw_writable st' = raw_writable st
  /\ invoked st' = invoked st
  /\ exists records, log st' = log st ++ records.
Proof.
  destruct (handle_result_any json_loads idx result st) as [f [records E]].
  rewrite E. cbn. repeat split. exists records. reflexivity.
Qed.

(** X9. Whatever the agent and the parser do, the loop over the chunks
    leaves the comment source and the report file alone, only adds records
    to the log, and hands the chunks to the agent in order without skipping
    one (all of them when it runs to its end). A result store that cannot be
    read, or not written, stays as it is. One that holds a list ends as that
    list with values added at its end, at most one per chunk handed over,
    none removed or changed; or, when [json.dump] raises in the middle of a
    rewrite, as a file cut short that cannot be read any more. *)
Theorem process_chunks_append_only (chunks : list json) : forall (idx : nat) (st : state),
  let st' := fst (process_chunks json_loads kickoff idx chunks st) in
  comments_file st' = comments_file st
  /\ final_results_file st' = final_results_file st
  /\ (exists records, log st' = log st ++ records)
  /\ (json_load (raw_results_file st) = None -> raw_results_file st' = raw_results_file st)
  /\ (raw_writable st = false -> raw_results_file st' = raw_results_file st)
  /\ exists handed left,
       chunks = handed ++ left
       /\ invoked st' = invoked st ++ handed
       /\ (snd (process_chunks json_loads kickoff idx chunks st) = true -> left = [])
       /\ forall l, raw_results_file st = Holds (JArr l) ->
            raw_results_file st' = Unreadable
            \/ exists added,
                 raw_results_file st' = Holds (JArr (l ++ added))
                 /\ length added <= length handed.
Proof.
  induction chunks as [|chunk chunks IH]; intros idx st.
  - cbn. split; [reflexivity|]. split; [reflexivity|].
    split; [exists []; symmetry; apply app_nil_r|].
    split; [reflexivity|]. split; [reflexivity|].
    exists [], []. split; [reflexivity|].
    split; [symmetry; apply app_nil_r|]. split; [reflexivity|].
    intros l H. right. exists []. rewrite app_nil_r. split; [exact H|constructor].
  - cbn [process_chunks].
    destruct (kickoff idx chunk) as [result|].
    + pose proof (handle_result_frame idx result (record_invocation chunk st))
        as [Hc [Hf [Hw [Hi [rec1 Hl]]]]].
      pose proof (handle_result_store idx result (record_invocation chunk st))
        as [Hnone [Hro Hlist]].
      pose proof (handle_result_any json_loads idx result (record_invocation chunk st))
        as [f [recs E]].
      destruct (handle_result json_loads idx result (record_invocation chunk st))
        as [st1 ok].
      cbn [fst record_invocation add_invoked comments_file final_results_file
           raw_writable invoked log raw_results_file] in Hc, Hf, Hw, Hi, Hl, Hnone, Hro, Hlist.
      destruct ok.
      * destruct (IH (S idx) st1)
          as [Hc' [Hf' [[rec2 Hl'] [Hnone' [Hro' [handed [left [Ech [Hinv [Hok Hraw]]]]]]]]]].
        split; [congruence|]. split; [congruence|].
        split; [exists (rec1 ++ rec2); rewrite Hl', Hl, app_assoc; reflexivity|].
        split; [intro H; rewrite Hnone', (Hnone H); [reflexivity|rewrite (Hnone H); exact H]|].
        split; [intro H; rewrite Hro', (Hro H); [reflexivity|rewrite Hw; exact H]|].
        exists (chunk :: handed), left.
        split; [rewrite Ech; reflexivity|].
        split; [rewrite Hinv, Hi, <- app_assoc; reflexivity|].
        split; [exact Hok|].
        intros l H. destruct (Hlist l H) as [Hu | [Hs | [v Hv]]].
        -- left. rewrite Hnone', Hu; [reflexivity|rewrite Hu; reflexivity].
        -- destruct (Hraw l Hs) as [Hu | [added [Ha Hlen]]]; [left; exact Hu|].
           right. exists added. split; [exact Ha|]. simpl. lia.
        -- destruct (Hraw (l ++ [v]) Hv) as [Hu | [added [Ha Hlen]]]; [left; exact Hu|].
           right. exists (v :: added).
           split; [rewrite Ha, <- app_assoc; reflexivity|]. simpl. lia.
      * cbn [fst snd].
        split; [exact Hc|]. split; [exact Hf|].
        split; [exists rec1; exact Hl|].
        split; [exact Hnone|]. split; [exact Hro|].
        exists [chunk], chunks. split; [reflexivity|].
        split; [exact Hi|]. split; [discriminate|].
        intros l H. destruct (Hlist l H) as [Hu | [Hs | [v Hv]]].
        -- left. exact Hu.
        -- right. exists []. rewrite app_nil_r. split; [exact Hs|simpl; lia].
        -- right. exists [v]. split; [exact Hv|simpl; lia].
    + cbn. split; [reflexivity|]. split; [reflexivity|].
      split; [exists []; symmetry; apply app_nil_r|].
      split; [reflexivity|]. split; [reflexivity|].
      exists [chunk], chunks. split; [reflexivity|]. split; [reflexivity|].
      split; [discriminate|].
      intros l H. right. exists []. rewrite app_nil_r. split; [exact H|simpl; lia].
Qed.

(** The loop up to a chunk on which the agent raises, or on whose answer the
    parser raises something else than [JSONDecodeError]. *)
Lemma process_chunks_stop (answer : nat -> pystr) pre chunk post st stored :
  raw_writable st = true ->
  raw_results_file st = Holds (JArr stored) ->
  (forall i c, nth_error pre i = Some c -> kickoff i c = Some (answer i)) ->
  decodes json_loads answer (length pre) ->
  storable st
    (JArr (stored ++ stored_results json_loads answer (seq 0 (length pre)))) = true ->
  let st1 :=
    add_invoked (pre ++ [chunk])
      (add_log (flat_map (fun i => chunk_log json_loads i (answer i))
                         (seq 0 (length pre)))
         (set_raw_file
            (Holds (JArr (stored ++ stored_results json_loads answer (seq 0 (length pre)))))
            st)) in
  (kickoff (length pre) chunk = None ->
   process_chunks json_loads kickoff 0 (pre ++ chunk :: post) st = (st1, false))
  /\ (forall result,
        kickoff (length pre) chunk = Some result ->
        json_loads InRun (fix_trailing_commas result) = LoadsRaised ->
        process_chunks json_loads kickoff 0 (pre ++ chunk :: post) st
        = (logging INFO (TaskRawResult (length pre + 1) (fix_trailing_commas result)) st1,
           false)).
Proof.
  intros Hw Hr Hk Hl Hd st1.
  pose proof (process_chunks_spec json_loads kickoff answer pre 0 st stored
                Hw Hr Hk Hl Hd) as E.
  split.
  - intro Hnone. rewrite process_chunks_app, E. cbn [Nat.add process_chunks].
    rewrite Hnone. unfold st1, record_invocation, add_invoked, add_log, set_raw_file; simpl.
    rewrite <- ?app_assoc. reflexivity.
  - intros result Hsome Hraise.
    rewrite process_chunks_app, E. cbn [Nat.add process_chunks].
    rewrite Hsome. unfold handle_result. rewrite Hraise.
    unfold st1, record_invocation, logging, add_invoked, add_log, set_raw_file; simpl.
    rewrite <- ?app_assoc. reflexivity.
Qed.

(** X10. An exception of the agent is fatal for the run: when the agent
    answers the chunks [pre], whose values can be stored, and raises on the
    next one, no later chunk is handed over, the merger does not run and the
    report file stays as it was; the values stored for [pre] stay in the
    result store, and the log ends with the error of the run. *)
Theorem run_agent_raises
    (st : state) (comments pre post : list json) (chunk : json) (answer : nat -> pystr) :
  raw_writable st = true ->
  json_load (comments_file st) = Some (JArr comments) ->
  split_comments (JArr comments) chunk_size = Some (pre ++ chunk :: post) ->
  (forall i c, nth_error pre i = Some c -> kickoff i c = Some (answer i)) ->
  decodes json_loads answer (length pre) ->
  storable st (JArr (stored_results json_loads answer (seq 0 (length pre)))) = true ->
  kickoff (length pre) chunk = None ->
  let st' := comments_analysis json_loads kickoff st in
  invoked st' = invoked st ++ pre ++ [chunk]
  /\ raw_results_file st'
     = Holds (JArr (stored_results json_loads answer (seq 0 (length pre))))
  /\ final_results_file st' = final_results_file st
  /\ log st'
     = log st
       ++ [(INFO, ResultsFileCreated);
           (INFO, LoadedComments (JArr (py_slice comments 0 5)))]
       ++ flat_map (fun i => chunk_log json_loads i (answer i)) (seq 0 (length pre))
       ++ [(ERROR, AnErrorOccurred)].
Proof.
  intros Hw Hc Hsplit Hk Hl Hd Hnone st'.
  unfold st', comments_analysis.
  rewrite (initialize_results_file_writable st Hw).
  rewrite (run_list json_loads kickoff _ comments (pre ++ chunk :: post));
    [|exact Hc|exact Hsplit].
  match goal with
  | |- context [process_chunks _ _ 0 _ ?s1] =>
      destruct (process_chunks_stop answer pre chunk post s1 []) as [E _];
        [exact Hw|reflexivity|exact Hk|exact Hl|exact Hd|]
  end.
  rewrite (E Hnone). cbn. repeat split. rewrite <- ?app_assoc. reflexivity.
Qed.

(** X22. An exception of the parser other than [JSONDecodeError]
    ([RecursionError] on an answer nested too deep, say) is fatal for the
    run, as one of the agent is: after the record of the repaired answer no
    later chunk is handed over, the merger does not run and the report file
    stays as it was; the values stored for the chunks before stay in the
    result store, and the log ends with the error of the run. *)
Theorem run_parser_raises
    (st : state) (comments pre post : list json) (chunk : json) (answer : nat -> pystr) :
  raw_writable st = true ->
  json_load (comments_file st) = Some (JArr comments) ->
  split_comments (JArr comments) chunk_size = Some (pre ++ chunk :: post) ->
  (forall i c, nth_error (pre ++ [chunk]) i = Some c -> kickoff i c = Some (answer i)) ->
  decodes json_loads answer (length pre) ->
  storable st (JArr (stored_results json_loads answer (seq 0 (length pre)))) = true ->
  json_loads InRun (fix_trailing_commas (answer (length pre))) = LoadsRaised ->
  let st' := comments_analysis json_loads kickoff st in
  invoked st' = invoked st ++ pre ++ [chunk]
  /\ raw_results_file st'
     = Holds (JArr (stored_results json_loads answer (seq 0 (length pre))))
  /\ final_results_file st' = final_results_file st
  /\ log st'
     = log st
       ++ [(INFO, ResultsFileCreated);
           (INFO, LoadedComments (JArr (py_slice comments 0 5)))]
       ++ flat_map (fun i => chunk_log json_loads i (answer i)) (seq 0 (length pre))
       ++ [(INFO, TaskRawResult (length pre + 1)
                    (fix_trailing_commas (answer (length pre))));
           (ERROR, AnErrorOccurred)].
Proof.
  intros Hw Hc Hsplit Hk Hl Hd Hraise st'.
  unfold st', comments_analysis.
  rewrite (initialize_results_file_writable st Hw).
  rewrite (run_list json_loads kickoff _ comments (pre ++ chunk :: post));
    [|exact Hc|exact Hsplit].
  match goal with
  | |- context [process_chunks _ _ 0 _ ?s1] =>
      destruct (process_chunks_stop answer pre chunk post s1 []) as [_ E];
        [exact Hw|reflexivity| |exact Hl|exact Hd|]
  end.
  { intros i c Hi. apply Hk. rewrite nth_error_app1; [exact Hi|].
    apply nth_error_Some. rewrite Hi. discriminate. }
  rewrite (E (answer (length pre))); [|apply Hk|exact Hraise].
  - cbn. repeat split. rewrite <- ?app_assoc. reflexivity.
  - rewrite nth_error_app2, Nat.sub_diag by lia. reflexivity.
Qed.

(** X11. A comment source that holds JSON other than a list or a string
    ends the run before any chunk: null is reported as a failure to load, a
    number, a boolean or an object as an error of the run; nothing else
    happens. *)
Theorem run_not_a_sequence (st : state) (v : json) :
  comments_file st = Holds v ->
  py_getslice v 0 5 = None ->
  run json_loads kickoff st
  = logging ERROR (match v with JNull => FailedToLoadComments | _ => AnErrorOccurred end) st.
Proof.
  intros Hc Hs. unfold run. rewrite Hc. cbn [json_load].
  destruct v; try reflexivity; try discriminate Hs.
  destruct (split_comments (JObj items) chunk_size); reflexivity.
Qed.

(** X12. A chunk whose repaired answer parses and has no trailing comma left
    is stored as the parser reads that repaired answer, at the end of the
    store: the second repair of [append_result_to_json] changes nothing.
    When the list with the new value cannot be written, the failure is
    logged instead of the success, and the store is the old list or a file
    cut short; when it is written but nested too deep to be read back, the
    success is logged and the store cannot be read any more. *)
Theorem handle_result_stores (idx : nat) (result : pystr) (st : state)
    (stored : list json) (v0 v : json) :
  raw_writable st = true ->
  raw_results_file st = Holds (JArr stored) ->
  json_loads InRun (fix_trailing_commas result) = Parsed v0 ->
  json_loads InAppend (fix_trailing_commas result) = Parsed v ->
  has_trailing_comma (fix_trailing_commas result) = false ->
  let st' := fst (handle_result json_loads idx result st) in
  let results := JArr (stored ++ [v]) in
  let saved := dumpable (recursion_room st) results in
  snd (handle_result json_loads idx result st) = true
  /\ raw_results_file st'
     = (if saved
        then if depth results <=? 2 + load_room st then Holds results else Unreadable
        else if torn_keeps st (JArr stored) results then Holds (JArr stored)
             else Unreadable)
  /\ (storable st results = true -> raw_results_file st' = Holds results)
  /\ log st'
     = log st ++ [ (INFO, TaskRawResult (idx + 1) (fix_trailing_commas result));
                   (if saved then (INFO, ResultAppended) else (ERROR, FailedToAppend));
                   (INFO, TaskOutput (idx + 1) (fix_trailing_commas result)) ].
Proof.
  intros Hw Hr Hv0 Hv Hn st' results saved.
  assert (Hfix : fix_trailing_commas (fix_trailing_commas result) = fix_trailing_commas result).
  { rewrite (Repair.fix_trailing_commas_removed (fix_trailing_commas result)).
    apply Repair.no_trailing_comma_unchanged, Hn. }
  unfold st', saved, storable, handle_result, append_result_to_json, rewritten.
  rewrite Hv0. cbn [logging add_log raw_writable raw_results_file recursion_room
                    load_room torn_keeps fst snd].
  rewrite Hw, Hr, Hfix, Hv. cbn [negb json_load]. fold results.
  destruct (dumpable (recursion_room st) results);
    cbn [raw_results_file log logging add_log set_raw_file andb];
    rewrite <- ?app_assoc;
    (split; [reflexivity|]); (split; [reflexivity|]); (split; [|reflexivity]).
  - intro H. rewrite H. reflexivity.
  - discriminate.
Qed.

(** The loop leaves alone a result store that cannot be written. *)
Lemma process_chunks_readonly : forall chunks idx st,
  raw_writable st = false ->
  raw_results_file (fst (process_chunks json_loads kickoff idx chunks st))
  = raw_results_file st.
Proof.
  induction chunks as [|chunk chunks IH]; intros idx st Hw; [reflexivity|].
  cbn [process_chunks].
  destruct (kickoff idx chunk) as [result|]; [|reflexivity].
  pose proof (handle_result_frame idx result (record_invocation chunk st))
    as [_ [_ [Hw' _]]].
  pose proof (handle_result_store idx result (record_invocation chunk st))
    as [_ [Hro _]].
  destruct (handle_result json_loads idx result (record_invocation chunk st))
    as [st1 ok].
  cbn [fst record_invocation add_invoked raw_writable raw_results_file] in Hw', Hro.
  destruct ok; [|exact (Hro Hw)].
  rewrite IH; [exact (Hro Hw)|rewrite Hw'; exact Hw].
Qed.

(** X13. When raw_results.json cannot be opened for writing, the run still
    hands every chunk to the agent, but stores none of the answers: the
    result store stays as the previous run left it, and the report is built
    from that old store. *)
Theorem run_store_readonly
    (st : state) (comments chunks : list json) (answer : nat -> pystr) :
  raw_writable st = false ->
  json_load (comments_file st) = Some (JArr comments) ->
  split_comments (JArr comments) chunk_size = Some chunks ->
  (forall i c, nth_error chunks i = Some c -> kickoff i c = Some (answer i)) ->
  decodes json_loads answer (length chunks) ->
  let st' := comments_analysis json_loads kickoff st in
  invoked st' = invoked st ++ chunks
  /\ raw_results_file st' = raw_results_file st
  /\ final_results_file st'
     = match merge_outcome (raw_results_file st) with
       | Some r =>
           if final_writable st then
             if dumpable (recursion_room st) r then Holds r else Unreadable
           else final_results_file st
       | None => final_results_file st
       end.
Proof.
  intros Hw Hc Hsplit Hk Hl st'.
  destruct (comments_analysis_progress json_loads kickoff st comments chunks answer
              Hc Hsplit Hk Hl) as [f [records [Eloop Erun]]].
  fold st' in Erun.
  assert (Hf : f = raw_results_file st).
  { pose proof (process_chunks_readonly chunks 0
                  (logging INFO (LoadedComments (JArr (py_slice comments 0 5)))
                     (initialize_results_file st))) as H.
    rewrite Eloop in H. unfold initialize_results_file in H. rewrite Hw in H.
    cbn in H. apply H. exact Hw. }
  subst f.
  match type of Erun with _ = merge_results ?s2 =>
    destruct (merge_results_frame s2) as [_ [Hraw [_ [_ [Hinv _]]]]];
    pose proof (merge_results_final s2) as Hfin
  end.
  rewrite <- Erun in Hraw, Hinv, Hfin.
  cbn [raw_results_file invoked final_results_file final_writable recursion_room
       add_invoked add_log set_raw_file] in Hraw, Hinv, Hfin.
  split; [exact Hinv|]. split; [exact Hraw|exact Hfin].
Qed.

(** X14. When the agent answers every chunk and the parser raises nothing
    but [JSONDecodeError], every comment is handed to the agent exactly once
    and in order, whatever becomes of the answers: the chunks handed over,
    one after the other, are the comments, in [ceil(N/20)] chunks of 1 to 20
    comments. *)
Theorem run_hands_every_comment
    (st : state) (comments : list json) (answer : nat -> pystr) :
  json_load (comments_file st) = Some (JArr comments) ->
  (forall i c, kickoff i c = Some (answer i)) ->
  (forall i, json_loads InRun (fix_trailing_commas (answer i)) <> LoadsRaised) ->
  exists chunks : list (list json),
    invoked (comments_analysis json_loads kickoff st) = invoked st ++ map JArr chunks
    /\ concat chunks = comments
    /\ Z.of_nat (length chunks) = ((Z.of_nat (length comments) + 20 - 1) / 20)%Z
    /\ Forall (fun c => (1 <= Z.of_nat (length c) <= 20)%Z) chunks.
Proof.
  intros Hc Hk Hl.
  destruct (split_comments_list comments chunk_size eq_refl)
    as [chunks [Hsplit [Hcat [Hlen Hall]]]].
  exists chunks.
  destruct (comments_analysis_progress json_loads kickoff st comments (map JArr chunks)
              answer Hc Hsplit (fun i c _ => Hk i c) (fun i _ => Hl i))
    as [f [records [_ Erun]]].
  rewrite Erun.
  match goal with |- context [merge_results ?s2] =>
    destruct (merge_results_frame s2) as [_ [_ [_ [_ [Hinv _]]]]]
  end.
  cbn [invoked add_invoked] in Hinv.
  split; [exact Hinv|]. split; [exact Hcat|]. split; [exact Hlen|exact Hall].
Qed.

End Run.

Lemma process_chunks_append_only_witness :
  let chunks := [ JArr (repeat (JStr (str "nice video")) 20);
                  JArr [JStr (str "nice video")] ] in
  let st := sample_world Missing (Holds (JArr [JNull])) Missing in
  let st' := fst (process_chunks sample_loads sample_kickoff 0 chunks st) in
  raw_results_file st = Holds (JArr [JNull])
  /\ final_results_file st' = Missing
  /\ (raw_results_file st' = Unreadable
      \/ exists added,
           raw_results_file st' = Holds (JArr (JNull :: added)) /\ length added <= 2).
Proof.
  intros chunks st st'.
  destruct (process_chunks_append_only sample_loads sample_kickoff chunks 0 st)
    as [_ [Hf [_ [_ [_ [handed [left [Ech [_ [_ Hraw]]]]]]]]]].
  split; [reflexivity|]. split; [exact Hf|].
  destruct (Hraw [JNull] eq_refl) as [Hu | [added [Ha Hlen]]]; [left; exact Hu|].
  right. exists added. split; [exact Ha|].
  apply (f_equal (@length json)) in Ech. rewrite length_app in Ech. simpl in Ech. lia.
Defined.

Lemma run_agent_raises_witness :
  let st := sample_state (Holds (JArr sample_comments)) in
  let pre := [JArr (repeat (JStr (str "nice video")) 20)] in
  let chunk := JArr (repeat (JStr (str "nice video")) 20) in
  let post := [JArr (repeat (JStr (str "nice video")) 1)] in
  let st' := comments_analysis sample_loads sample_kickoff_raising st in
  (raw_writable st = true
   /\ json_load (comments_file st) = Some (JArr sample_comments)
   /\ split_comments (JArr sample_comments) chunk_size = Some (pre ++ chunk :: post)
   /\ (forall i c, nth_error pre i = Some c ->
                   sample_kickoff_raising i c = Some (sample_answer i))
   /\ decodes sample_loads sample_answer (length pre)
   /\ storable st
        (JArr (stored_results sample_loads sample_answer (seq 0 (length pre)))) = true
   /\ sample_kickoff_raising (length pre) chunk = None)
  /\ invoked st' = pre ++ [chunk]
  /\ raw_results_file st' = Holds (JArr [JObj [(str "Praise", JArr [insight "c1" "i1"])]])
  /\ final_results_file st' = Missing.
Proof.
  intros st pre chunk post st'.
  assert (H3 : split_comments (JArr sample_comments) chunk_size = Some (pre ++ chunk :: post))
    by reflexivity.
  assert (H4 : forall i c, nth_error pre i = Some c ->
                           sample_kickoff_raising i c = Some (sample_answer i)).
  { intros [|[|i]] c Hi; [reflexivity|discriminate Hi|discriminate Hi]. }
  destruct (run_agent_raises sample_loads sample_kickoff_raising st sample_comments
              pre post chunk sample_answer eq_refl eq_refl H3 H4
              (Pipeline.sample_loads_decodes sample_answer (length pre))
              eq_refl eq_refl)
    as [Hinv [Hraw [Hfin _]]].
  split.
  { split; [reflexivity|]. split; [reflexivity|]. split; [exact H3|].
    split; [exact H4|]. split; [apply Pipeline.sample_loads_decodes|].
    split; reflexivity. }
  split; [exact Hinv|]. split; [exact Hraw|exact Hfin].
Defined.

Lemma run_parser_raises_witness :
  let st := sample_state (Holds (JArr sample_comments)) in
  let pre := [JArr (repeat (JStr (str "nice video")) 20)] in
  let chunk := JArr (repeat (JStr (str "nice video")) 20) in
  let post := [JArr (repeat (JStr (str "nice video")) 1)] in
  let st' := comments_analysis sample_loads_deep sample_kickoff_deep st in
  (raw_writable st = true
   /\ json_load (comments_file st) = Some (JArr sample_comments)
   /\ split_comments (JArr sample_comments) chunk_size = Some (pre ++ chunk :: post)
   /\ (forall i c, nth_error (pre ++ [chunk]) i = Some c ->
                   sample_kickoff_deep i c = Some (sample_answer_deep i))
   /\ decodes sample_loads_deep sample_answer_deep (length pre)
   /\ storable st
        (JArr (stored_results sample_loads_deep sample_answer_deep (seq 0 (length pre))))
      = true
   /\ sample_loads_deep InRun (fix_trailing_commas (sample_answer_deep (length pre)))
      = LoadsRaised)
  /\ invoked st' = pre ++ [chunk]
  /\ raw_results_file st' = Holds (JArr [JObj [(str "Praise", JArr [insight "c1" "i1"])]])
  /\ final_results_file st' = Missing.
Proof.
  intros st pre chunk post st'.
  assert (H3 : split_comments (JArr sample_comments) chunk_size = Some (pre ++ chunk :: post))
    by reflexivity.
  assert (H4 : forall i c, nth_error (pre ++ [chunk]) i = Some c ->
                           sample_kickoff_deep i c = Some (sample_answer_deep i))
    by (intros; reflexivity).
  assert (H5 : decodes sample_loads_deep sample_answer_deep (length pre)).
  { intros [|i] Hi; [vm_compute; discriminate|simpl in Hi; lia]. }
  assert (H6 : storable st
                 (JArr (stored_results sample_loads_deep sample_answer_deep
                          (seq 0 (length pre)))) = true)
    by (vm_compute; reflexivity).
  assert (H7 : sample_loads_deep InRun
                 (fix_trailing_commas (sample_answer_deep (length pre))) = LoadsRaised)
    by (vm_compute; reflexivity).
  destruct (run_parser_raises sample_loads_deep sample_kickoff_deep st sample_comments
              pre post chunk sample_answer_deep eq_refl eq_refl H3 H4 H5 H6 H7)
    as [Hinv [Hraw [Hfin _]]].
  split.
  { split; [reflexivity|]. split; [reflexivity|]. split; [exact H3|].
    split; [exact H4|]. split; [exact H5|]. split; [exact H6|exact H7]. }
  split; [exact Hinv|]. split; [|exact Hfin].
  refine (eq_trans Hraw _). vm_compute. reflexivity.
Defined.

Lemma run_not_a_sequence_witness :
  let st := sample_state (Holds (JObj [(str "comments", JArr [])])) in
  (comments_file st = Holds (JObj [(str "comments", JArr [])])
   /\ py_getslice (JObj [(str "comments", JArr [])]) 0 5 = None)
  /\ run sample_loads sample_kickoff st = logging ERROR AnErrorOccurred st.
Proof.
  intro st. split; [split; reflexivity|].
  exact (run_not_a_sequence sample_loads sample_kickoff st
           (JObj [(str "comments", JArr [])]) eq_refl eq_refl).
Defined.

Lemma handle_result_stores_witness :
  let st := sample_state Missing in
  let st0 := initialize_results_file st in
  let v := JObj [(str "Praise", JArr [insight "c1" "i1"])] in
  (raw_writable st0 = true
   /\ raw_results_file st0 = Holds (JArr [])
   /\ sample_loads InRun (fix_trailing_commas (sample_answer 0)) = Parsed v
   /\ sample_loads InAppend (fix_trailing_commas (sample_answer 0)) = Parsed v
   /\ has_trailing_comma (fix_trailing_commas (sample_answer 0)) = false)
  /\ raw_results_file (fst (handle_result sample_loads 0 (sample_answer 0) st0))
     = Holds (JArr [v]).
Proof.
  intros st st0 v.
  destruct (handle_result_stores sample_loads 0 (sample_answer 0) st0 [] v v
              eq_refl eq_refl eq_refl eq_refl eq_refl) as [_ [H _]].
  split; [repeat split|exact H].
Defined.

Lemma run_store_readonly_witness :
  let old := JArr [JObj [(str "Other", JArr [insight "old" "stale"])]] in
  let st := mkState (Holds (JArr sample_comments)) (Holds old) Missing false true [] []
                    990 987 (fun _ _ => false) in
  let chunks := [ JArr (repeat (JStr (str "nice video")) 20);
                  JArr (repeat (JStr (str "nice video")) 20);
                  JArr (repeat (JStr (str "nice video")) 1) ] in
  let st' := comments_analysis sample_loads sample_kickoff st in
  (raw_writable st = false
   /\ json_load (comments_file st) = Some (JArr sample_comments)
   /\ split_comments (JArr sample_comments) chunk_size = Some chunks
   /\ (forall i c, nth_error chunks i = Some c -> sample_kickoff i c = Some (sample_answer i))
   /\ decodes sample_loads sample_answer (length chunks))
  /\ invoked st' = chunks
  /\ raw_results_file st' = Holds old
  /\ final_results_file st'
     = Holds (JObj [ (str "Requests", JArr []); (str "Complaints", JArr []);
                     (str "Suggestions", JArr []); (str "Praise", JArr []);
                     (str "Troubleshooting", JArr []);
                     (str "Other", JArr [insight "old" "stale"]) ]).
Proof.
  intros old st chunks st'.
  assert (H3 : split_comments (JArr sample_comments) chunk_size = Some chunks)
    by reflexivity.
  assert (H4 : forall i c, nth_error chunks i = Some c ->
                           sample_kickoff i c = Some (sample_answer i))
    by (intros; reflexivity).
  destruct (run_store_readonly sample_loads sample_kickoff st sample_comments chunks
              sample_answer eq_refl eq_refl H3 H4
              (Pipeline.sample_loads_decodes sample_answer (length chunks)))
    as [Hinv [Hraw Hfin]].
  split.
  { split; [reflexivity|]. split; [reflexivity|]. split; [exact H3|].
    split; [exact H4|apply Pipeline.sample_loads_decodes]. }
  split; [exact Hinv|]. split; [exact Hraw|exact Hfin].
Defined.

Lemma run_hands_every_comment_witness :
  let st := sample_state (Holds (JArr sample_comments)) in
  (json_load (comments_file st) = Some (JArr sample_comments)
   /\ (forall i c, sample_kickoff i c = Some (sample_answer i))
   /\ (forall i, sample_loads InRun (fix_trailing_commas (sample_answer i)) <> LoadsRaised))
  /\ exists chunks : list (list json),
       invoked (comments_analysis sample_loads sample_kickoff st) = map JArr chunks
       /\ concat chunks = sample_comments
       /\ Z.of_nat (length chunks) = 3%Z.
Proof.
  intro st.
  assert (Hl : forall i, sample_loads InRun (fix_trailing_commas (sample_answer i))
                         <> LoadsRaised)
    by (intro i; apply (Pipeline.sample_loads_decodes sample_answer (S i) i); lia).
  destruct (run_hands_every_comment sample_loads sample_kickoff st sample_comments
              sample_answer eq_refl (fun _ _ => eq_refl) Hl)
    as [chunks [H1 [H2 [H3 _]]]].
  split; [split; [reflexivity|split; [reflexivity|exact Hl]]|].
  exists chunks. split; [exact H1|]. split; [exact H2|exact H3].
Defined.

End Driver.

(* ================================================================== *)
(** * The main program, end to end *)
(* ================================================================== *)

Module Program.
Import Merger Pipeline.

Section Run.

Variable client_built : bool.
Variable list_page : pystr -> option pystr -> option (list pystr * option pystr).
Variable json_loads : caller -> pystr -> parsed.
Variable kickoff : nat -> json -> option pystr.

(** X15. From the API to the agent: when the pages are served, no
    sanitized comment holds a lone surrogate, comments.json can be written,
    the agent answers every chunk and the parser raises nothing but
    [JSONDecodeError], the main program stores the sanitized comments of all
    pages in comments.json and hands exactly these, each once and in order,
    to the agent in chunks of 1 to 20. *)
Theorem main_feeds_agent
    (fuel : nat) (video_url video_id : pystr) (pages : list (list pystr))
    (w : session) (answer : nat -> pystr) :
  extract_video_id video_url = Some video_id ->
  client_built = true ->
  serves list_page video_id None pages ->
  length pages <= fuel ->
  comments_writable w = true ->
  forallb encodable_str (map clean_escape_characters (concat pages)) = true ->
  (forall i c, kickoff i c = Some (answer i)) ->
  (forall i, json_loads InRun (fix_trailing_commas (answer i)) <> LoadsRaised) ->
  let comments := map JStr (map clean_escape_characters (concat pages)) in
  exists (w' : session) (chunks : list (list json)),
    main client_built list_page json_loads kickoff fuel video_url w = Some w'
    /\ comments_file (files w') = Holds (JArr comments)
    /\ invoked (files w') = invoked (files w) ++ map JArr chunks
    /\ concat chunks = comments
    /\ Forall (fun c => (1 <= Z.of_nat (length c) <= 20)%Z) chunks.
Proof.
  intros Hid Hc Hs Hf Hcw Henc Hk Hl comments.
  destruct (Tool.fetch_pages_serves list_page video_id None pages Hs fuel [] w Hf)
    as [sent [_ E]].
  destruct (Driver.split_comments_list comments chunk_size eq_refl)
    as [chunks [Hsplit [Hcat [_ Hall]]]].
  unfold main, _run. rewrite Hid, Hc. cbn [negb]. rewrite E. cbn [app].
  unfold save_comments_to_json, written. cbn [comments_writable files]. rewrite Hcw.
  rewrite (Dump.dumpable_strs (recursion_room (files w))), Henc.
  cbn [tool_logging set_files files comments_writable tool_log requests].
  eexists. exists chunks. split; [reflexivity|].
  cbn [files]. fold comments.
  destruct (comments_analysis_progress json_loads kickoff
              (set_comments_file (Holds (JArr comments)) (files w)) comments
              (map JArr chunks) answer eq_refl Hsplit
              (fun i c _ => Hk i c) (fun i _ => Hl i))
    as [f [records [_ Erun]]].
  rewrite Erun.
  match goal with |- context [merge_results ?s2] =>
    destruct (merge_results_frame s2) as [Hcf [_ [_ [_ [Hinv _]]]]]
  end.
  cbn [invoked comments_file add_invoked add_log set_raw_file set_comments_file]
    in Hinv, Hcf.
  split; [exact Hcf|]. split; [exact Hinv|]. split; [exact Hcat|exact Hall].
Qed.

(** X23. One comment with a lone surrogate stops the whole program: the
    tool fetches and returns the comments, but [json.dump] raises on that
    comment and leaves comments.json cut short; the analysis then fails to
    load it, and ends with the error of the run without handing anything to
    the agent and without a report. *)
Theorem main_comment_not_encodable
    (fuel : nat) (video_url video_id : pystr) (pages : list (list pystr)) (w : session) :
  extract_video_id video_url = Some video_id ->
  client_built = true ->
  serves list_page video_id None pages ->
  length pages <= fuel ->
  comments_writable w = true ->
  forallb encodable_str (map clean_escape_characters (concat pages)) = false ->
  exists w' : session,
    main client_built list_page json_loads kickoff fuel video_url w = Some w'
    /\ snd (_run client_built list_page fuel video_url w)
       = Some (map clean_escape_characters (concat pages))
    /\ tool_log w'
       = tool_log w ++ [ (ERROR, FailedToSaveComments);
                         (INFO, CommentsRetrieved (length (concat pages))) ]
    /\ comments_file (files w') = Unreadable
    /\ invoked (files w') = invoked (files w)
    /\ final_results_file (files w') = final_results_file (files w)
    /\ log (files w')
       = log (files w)
         ++ [ if raw_writable (files w) then (INFO, ResultsFileCreated)
              else (ERROR, FailedToCreateFile);
              (ERROR, AnErrorOccurred) ].
Proof.
  intros Hid Hc Hs Hf Hcw Henc.
  destruct (Tool.fetch_pages_serves list_page video_id None pages Hs fuel [] w Hf)
    as [sent [_ E]].
  unfold main, _run. rewrite Hid, Hc. cbn [negb]. rewrite E. cbn [app].
  unfold save_comments_to_json, written. cbn [comments_writable files]. rewrite Hcw.
  rewrite (Dump.dumpable_strs (recursion_room (files w))), Henc.
  cbn [tool_logging set_files files comments_writable tool_log requests snd].
  eexists. split; [reflexivity|]. split; [reflexivity|].
  rewrite length_map.
  split; [rewrite <- app_assoc; reflexivity|].
  unfold comments_analysis, initialize_results_file, run.
  cbn [raw_writable set_comments_file].
  destruct (raw_writable (files w)); cbn; rewrite <- ?app_assoc; repeat split.
Qed.

End Run.

Lemma main_feeds_agent_witness :
  let url := str "https://youtu.be/dQw4w9WgXcQ" in
  let pages := [[str "  great\tvideo "; str "first"]; [jtext "so 'good'"]] in
  let w := sample_session Missing in
  (extract_video_id url = Some (str "dQw4w9WgXcQ")
   /\ serves sample_pages (str "dQw4w9WgXcQ") None pages
   /\ length pages <= 5
   /\ comments_writable w = true
   /\ forallb encodable_str (map clean_escape_characters (concat pages)) = true
   /\ (forall i c, sample_kickoff i c = Some (sample_answer i))
   /\ (forall i, sample_loads InRun (fix_trailing_commas (sample_answer i)) <> LoadsRaised))
  /\ exists (w' : session) (chunks : list (list json)),
       main true sample_pages sample_loads sample_kickoff 5 url w = Some w'
       /\ invoked (files w') = map JArr chunks
       /\ concat chunks
          = [JStr (str "great video"); JStr (str "first"); JStr (str "so good")].
Proof.
  intros url pages w.
  assert (Hs : serves sample_pages (str "dQw4w9WgXcQ") None pages).
  { eapply serves_more; [reflexivity|reflexivity|].
    eapply serves_last; reflexivity. }
  assert (Hf : length pages <= 5) by (simpl; lia).
  assert (Hl : forall i, sample_loads InRun (fix_trailing_commas (sample_answer i))
                         <> LoadsRaised)
    by (intro i; apply (sample_loads_decodes sample_answer (S i) i); lia).
  destruct (main_feeds_agent true sample_pages sample_loads sample_kickoff 5 url
              (str "dQw4w9WgXcQ") pages w sample_answer
              eq_refl eq_refl Hs Hf eq_refl eq_refl (fun _ _ => eq_refl) Hl)
    as [w' [chunks [H1 [_ [H3 [H4 _]]]]]].
  split.
  { split; [reflexivity|]. split; [exact Hs|]. split; [exact Hf|].
    split; [reflexivity|]. split; [reflexivity|]. split; [reflexivity|exact Hl]. }
  exists w', chunks. split; [exact H1|]. split; [exact H3|exact H4].
Defined.

Lemma main_comment_not_encodable_witness :
  let url := str "https://youtu.be/dQw4w9WgXcQ" in
  let pages := [[str "first"; [55357%N]]] in
  let w := sample_session Missing in
  (extract_video_id url = Some (str "dQw4w9WgXcQ")
   /\ serves sample_surrogate_pages (str "dQw4w9WgXcQ") None pages
   /\ length pages <= 5
   /\ comments_writable w = true
   /\ forallb encodable_str (map clean_escape_characters (concat pages)) = false)
  /\ exists w' : session,
       main true sample_surrogate_pages sample_loads sample_kickoff 5 url w = Some w'
       /\ comments_file (files w') = Unreadable
       /\ invoked (files w') = []
       /\ log (files w') = [(INFO, ResultsFileCreated); (ERROR, AnErrorOccurred)].
Proof.
  intros url pages w.
  assert (Hs : serves sample_surrogate_pages (str "dQw4w9WgXcQ") None pages)
    by (eapply serves_last; reflexivity).
  assert (Hf : length pages <= 5) by (simpl; lia).
  destruct (main_comment_not_encodable true sample_surrogate_pages sample_loads
              sample_kickoff 5 url (str "dQw4w9WgXcQ") pages w
              eq_refl eq_refl Hs Hf eq_refl eq_refl)
    as [w' [H1 [_ [_ [H4 [H5 [_ H7]]]]]]].
  split.
  { split; [reflexivity|]. split; [exact Hs|]. split; [exact Hf|].
    split; reflexivity. }
  exists w'. split; [exact H1|]. split; [exact H4|]. split; [exact H5|exact H7].
Defined.

End Program.

(* ================================================================== *)
(** * More on the merger *)
(* ================================================================== *)

Module Records.
Import Merger.

(** ** Entries that are not mappings *)

Lemma merge_entries_skipped entries : forall final_results st r,
  merged entries final_results = Some r ->
  fst (merge_entries entries final_results st)
  = add_log (map (fun e => (ERROR, UnexpectedEntryType e))
                 (filter (fun e => negb (is_dict e)) entries))
            st.
Proof.
  induction entries as [|entry entries IH]; intros fr st r H.
  - cbn. symmetry. apply add_log_nil.
  - destruct entry; cbn [merged merge_entries filter is_dict negb map] in *;
      try (rewrite (IH fr _ r H); unfold logging; apply add_log_app).
    destruct (merge_items fr items) as [fr'|]; [|discriminate H].
    apply (IH fr' st r H).
Qed.

Lemma flat_map_dicts (B : Type) (f : list (pystr * json) -> list B) entries :
  f [] = [] ->
  flat_map (fun e => f (entry_items e)) (filter is_dict entries)
  = flat_map (fun e => f (entry_items e)) entries.
Proof.
  intro Hf. induction entries as [|entry entries IH]; [reflexivity|].
  destruct entry; cbn [filter is_dict flat_map entry_items]; rewrite ?Hf, IH; reflexivity.
Qed.

Lemma final_report_dicts entries :
  final_report (filter is_dict entries) = final_report entries.
Proof.
  unfold final_report, theme_records, other_records.
  rewrite !(flat_map_dicts _ (fun items => flat_map _ items)) by reflexivity.
  reflexivity.
Qed.

Lemma iterable_values_merged entries :
  iterable_values entries = true ->
  merged entries final_results_init
  = Some (report_of (theme_records (str "Requests") entries)
                    (theme_records (str "Complaints") entries)
                    (theme_records (str "Suggestions") entries)
                    (theme_records (str "Praise") entries)
                    (theme_records (str "Troubleshooting") entries)
                    (other_records entries)).
Proof.
  intro H. rewrite final_results_init_report, merged_report_of, H. reflexivity.
Qed.

(** The fold gives a report only when every value can be iterated, and then
    the report of the contract. *)
Lemma merged_final_report entries fr :
  merged entries final_results_init = Some fr ->
  iterable_values entries = true /\ report_json fr = final_report entries.
Proof.
  rewrite final_results_init_report, merged_report_of.
  destruct (iterable_values entries); [|discriminate].
  intro H. injection H as <-. split; reflexivity.
Qed.

(** The merger on a store whose values can all be iterated. *)
Lemma merge_results_iterable st v entries :
  json_load (raw_results_file st) = Some v ->
  py_iter v = Some entries ->
  iterable_values entries = true ->
  final_writable st = true ->
  merge_results st
  = if dumpable (recursion_room st) (final_report entries)
    then add_log (map (fun e => (ERROR, UnexpectedEntryType e))
                      (filter (fun e => negb (is_dict e)) entries)
                  ++ [(INFO, ResultsMerged)])
           (set_final_file (Holds (final_report entries)) st)
    else add_log (map (fun e => (ERROR, UnexpectedEntryType e))
                      (filter (fun e => negb (is_dict e)) entries)
                  ++ [(ERROR, FailedToMerge)])
           (set_final_file Unreadable st).
Proof.
  intros Hraw Hit Hval Hw.
  pose proof (iterable_values_merged entries Hval) as Hm.
  unfold merge_results. rewrite Hraw, Hit.
  pose proof (merge_entries_merged entries final_results_init st) as Hsnd.
  pose proof (merge_entries_skipped entries final_results_init st _ Hm) as Hfst.
  destruct (merge_entries entries final_results_init st) as [st' r].
  cbn [fst snd] in Hsnd, Hfst. subst st'. rewrite Hsnd, Hm.
  cbn [final_writable recursion_room add_log]. rewrite Hw.
  change (report_json (report_of (theme_records (str "Requests") entries)
                         (theme_records (str "Complaints") entries)
                         (theme_records (str "Suggestions") entries)
                         (theme_records (str "Praise") entries)
                         (theme_records (str "Troubleshooting") entries)
                         (other_records entries)))
    with (final_report entries).
  destruct (dumpable (recursion_room st) (final_report entries));
    unfold logging, set_final_file, add_log; simpl; rewrite <- ?app_assoc; reflexivity.
Qed.

(** X16. What is in the result store besides mappings does not count: for
    every entry that is not a mapping (every key, when the file holds an
    object instead of a list) one error is logged, in order, and the report
    is the report of the mappings alone. It is written when it can be; when
    [json.dump] raises on it, the report file is left cut short and the
    failure is logged instead of the success. *)
Theorem merge_results_skips_others (st : state) (v : json) (entries : list json) :
  json_load (raw_results_file st) = Some v ->
  py_iter v = Some entries ->
  iterable_values entries = true ->
  final_writable st = true ->
  let report := final_report (filter is_dict entries) in
  let saved := dumpable (recursion_room st) report in
  final_results_file (merge_results st) = (if saved then Holds report else Unreadable)
  /\ log (merge_results st)
     = log st
       ++ map (fun e => (ERROR, UnexpectedEntryType e))
              (filter (fun e => negb (is_dict e)) entries)
       ++ [if saved then (INFO, ResultsMerged) else (ERROR, FailedToMerge)].
Proof.
  intros Hraw Hit Hval Hw report saved.
  unfold saved, report. rewrite final_report_dicts.
  rewrite (merge_results_iterable st v entries Hraw Hit Hval Hw).
  destruct (dumpable (recursion_room st) (final_report entries)); split; reflexivity.
Qed.

Lemma merge_results_skips_others_witness :
  let v := JArr [ JStr (str "note"); JObj [(str "Praise", JArr [insight "c1" "i1"])];
                  JInt 7 ] in
  let st := sample_world Missing (Holds v) Missing in
  (json_load (raw_results_file st) = Some v
   /\ py_iter v = Some [ JStr (str "note"); JObj [(str "Praise", JArr [insight "c1" "i1"])];
                         JInt 7 ]
   /\ final_writable st = true)
  /\ final_results_file (merge_results st)
     = Holds (final_report [JObj [(str "Praise", JArr [insight "c1" "i1"])]])
  /\ log (merge_results st)
     = [ (ERROR, UnexpectedEntryType (JStr (str "note")));
         (ERROR, UnexpectedEntryType (JInt 7)); (INFO, ResultsMerged) ].
Proof.
  intros v st.
  destruct (merge_results_skips_others st v _ eq_refl eq_refl eq_refl eq_refl) as [H1 H2].
  split; [repeat split|]. split; [exact H1|exact H2].
Defined.

(** X21. The part of the contract of the merger that the code keeps: for a
    store whose entries are mappings with values that can be iterated
    (lists, strings, mappings), the report has the six theme keys, and is
    built from empty lists: the elements of a list under one of the five
    themes are appended, in order, to the list of that theme, the elements
    of every other value (unknown key, or a value that is not a list) to
    "Other". The report is written when it can be, and then nothing but the
    success is logged. For the store
    [[{"Praise":[{"comment":"c1","insight":"i1"}]},
      {"Weird":[{"comment":"c2","insight":"i2"}]}]]
    the report has the first record under "Praise", the second under
    "Other" and empty lists elsewhere. *)
Theorem merge_results_report (st : state) (store : list json) :
  json_load (raw_results_file st) = Some (JArr store) ->
  final_writable st = true ->
  forallb is_dict store = true ->
  iterable_values store = true ->
  let saved := dumpable (recursion_room st) (final_report store) in
  final_results_file (merge_results st)
  = (if saved then Holds (final_report store) else Unreadable)
  /\ log (merge_results st)
     = log st ++ [if saved then (INFO, ResultsMerged) else (ERROR, FailedToMerge)]
  /\ final_report [] = report_json final_results_init
  /\ final_report [ JObj [(str "Praise", JArr [insight "c1" "i1"])];
                    JObj [(str "Weird", JArr [insight "c2" "i2"])] ]
     = JObj [ (str "Requests", JArr []); (str "Complaints", JArr []);
              (str "Suggestions", JArr []); (str "Praise", JArr [insight "c1" "i1"]);
              (str "Troubleshooting", JArr []); (str "Other", JArr [insight "c2" "i2"]) ].
Proof.
  intros Hraw Hw Hd Hi saved.
  assert (Hnone : filter (fun e => negb (is_dict e)) store = []).
  { clear - Hd. induction store as [|e store IH]; [reflexivity|].
    cbn [forallb] in Hd. apply andb_true_iff in Hd. destruct Hd as [He Hd].
    cbn [filter]. rewrite He. cbn [negb]. apply IH, Hd. }
  unfold saved.
  rewrite (merge_results_iterable st (JArr store) store Hraw eq_refl Hi Hw), Hnone.
  destruct (dumpable (recursion_room st) (final_report store)); repeat split.
Qed.

Lemma merge_results_report_witness :
  let store := [ JObj [(str "Praise", JArr [insight "c1" "i1"])];
                 JObj [(str "Weird", JArr [insight "c2" "i2"])] ] in
  let st := sample_world Missing (Holds (JArr store)) Missing in
  (json_load (raw_results_file st) = Some (JArr store)
   /\ final_writable st = true
   /\ forallb is_dict store = true
   /\ iterable_values store = true)
  /\ final_results_file (merge_results st)
     = Holds (JObj [ (str "Requests", JArr []); (str "Complaints", JArr []);
                     (str "Suggestions", JArr []); (str "Praise", JArr [insight "c1" "i1"]);
                     (str "Troubleshooting", JArr []); (str "Other", JArr [insight "c2" "i2"]) ]).
Proof.
  intros store st.
  destruct (merge_results_report st store eq_refl eq_refl eq_refl eq_refl)
    as [H1 _].
  split; [repeat split|exact H1].
Defined.

(** ** No record lost, none made up *)

Lemma flat_map_perm (A B : Type) (f g : A -> list B) l :
  (forall x, Permutation (f x) (g x)) ->
  Permutation (flat_map f l) (flat_map g l).
Proof.
  intro H. induction l as [|x l IH]; [constructor|].
  cbn [flat_map]. apply Permutation_app; [apply H|exact IH].
Qed.

Lemma flat_map_pair (A B : Type) (f g : A -> list B) l :
  Permutation (flat_map f l ++ flat_map g l) (flat_map (fun x => f x ++ g x) l).
Proof.
  induction l as [|x l IH]; [constructor|].
  cbn [flat_map]. rewrite <- !app_assoc.
  apply Permutation_app_head.
  etransitivity; [apply Permutation_app_swap_app|].
  apply Permutation_app_head. exact IH.
Qed.

Lemma flat_map_six (A B : Type) (f1 f2 f3 f4 f5 f6 : A -> list B) l :
  Permutation
    (flat_map f1 l ++ flat_map f2 l ++ flat_map f3 l ++ flat_map f4 l
     ++ flat_map f5 l ++ flat_map f6 l)
    (flat_map (fun x => f1 x ++ f2 x ++ f3 x ++ f4 x ++ f5 x ++ f6 x) l).
Proof.
  etransitivity; [|apply flat_map_pair].
  apply Permutation_app_head.
  etransitivity; [|apply flat_map_pair].
  apply Permutation_app_head.
  etransitivity; [|apply flat_map_pair].
  apply Permutation_app_head.
  etransitivity; [|apply flat_map_pair].
  apply Permutation_app_head.
  apply flat_map_pair.
Qed.

Ltac one_list E k v :=
  apply pystr_eqb_eq in E; subst k; destruct v; cbn; rewrite ?app_nil_r; reflexivity.

(** The elements of a value go to exactly one list. *)
Lemma item_goes_once kv :
  to_theme (str "Requests") kv ++ to_theme (str "Complaints") kv
  ++ to_theme (str "Suggestions") kv ++ to_theme (str "Praise") kv
  ++ to_theme (str "Troubleshooting") kv ++ to_other kv
  = elements (snd kv).
Proof.
  destruct kv as [k v]. unfold to_theme, to_other, is_theme.
  cbn [existsb themes fst snd].
  destruct (pystr_eqb (str "Requests") k) eqn:E1; [one_list E1 k v|].
  destruct (pystr_eqb (str "Complaints") k) eqn:E2; [one_list E2 k v|].
  destruct (pystr_eqb (str "Suggestions") k) eqn:E3; [one_list E3 k v|].
  destruct (pystr_eqb (str "Praise") k) eqn:E4; [one_list E4 k v|].
  destruct (pystr_eqb (str "Troubleshooting") k) eqn:E5; [one_list E5 k v|].
  reflexivity.
Qed.

Lemma final_report_records entries :
  Permutation (report_records (final_report entries)) (store_records entries).
Proof.
  unfold final_report, report_records, report_json, report_of, store_records.
  cbn [map entry_items flat_map fst snd elements py_iter].
  rewrite app_nil_r. unfold theme_records, other_records.
  etransitivity; [apply flat_map_six|].
  apply flat_map_perm. intro entry.
  etransitivity; [apply flat_map_six|].
  apply flat_map_perm. intro kv. rewrite item_goes_once. apply Permutation_refl.
Qed.

(** X17. The merger neither loses nor duplicates a record: whenever its
    fold over what raw_results.json holds ends with a report, the records of
    the six lists of that report, taken together, are the elements of all
    values of all mappings of the store, up to their order. That report is
    what the merger leaves in the report file when it can write it. *)
Theorem merge_results_conserves (raw : file) (v r : json) :
  json_load raw = Some v ->
  merge_outcome raw = Some r ->
  Permutation (report_records r) (store_records (elements v))
  /\ length (report_records r) = length (store_records (elements v))
  /\ forall st,
       raw_results_file st = raw ->
       final_writable st = true ->
       dumpable (recursion_room st) r = true ->
       final_results_file (merge_results st) = Holds r.
Proof.
  intros Hload Hout.
  assert (Hperm : Permutation (report_records r) (store_records (elements v))).
  { unfold merge_outcome in Hout. rewrite Hload in Hout. unfold elements.
    destruct (py_iter v) as [entries|]; [|discriminate Hout].
    destruct (merged entries final_results_init) as [fr|] eqn:Hm; [|discriminate Hout].
    cbn [option_map] in Hout. injection Hout as <-.
    destruct (merged_final_report entries fr Hm) as [_ ->].
    apply final_report_records. }
  split; [exact Hperm|]. split; [apply Permutation_length, Hperm|].
  intros st Hraw Hw Hd.
  rewrite merge_results_final, Hraw, Hout, Hw. unfold written. rewrite Hd. reflexivity.
Qed.

Lemma merge_results_conserves_witness :
  let store := [ JObj [ (str "Praise", JArr [insight "c1" "i1"; insight "c2" "i2"]);
                        (str "praise", JArr [insight "c3" "i3"]) ];
                 JObj [ (str "Requests", JStr (str "hi")) ] ] in
  let st := sample_world Missing (Holds (JArr store)) Missing in
  (json_load (Holds (JArr store)) = Some (JArr store)
   /\ merge_outcome (Holds (JArr store)) = Some (final_report store)
   /\ raw_results_file st = Holds (JArr store)
   /\ final_writable st = true
   /\ dumpable (recursion_room st) (final_report store) = true)
  /\ length (report_records (final_report store)) = 5
  /\ final_results_file (merge_results st) = Holds (final_report store).
Proof.
  intros store st.
  destruct (merge_results_conserves (Holds (JArr store)) (JArr store) (final_report store)
              eq_refl eq_refl) as [_ [H2 H3]].
  split; [repeat split|].
  split; [exact H2|exact (H3 st eq_refl eq_refl eq_refl)].
Defined.

End Records.

(* ================================================================== *)
(** * Bounds and degenerate inputs *)
(* ================================================================== *)

Module Bounds.
Import Re ReFacts Whitespace.

(** A substitution whose replacement is at most one character does not
    lengthen the text. *)
Lemma sub_length p pat repl :
  length repl <= 1 ->
  forall s, length (sub (One p :: pat) repl s) <= length s.
Proof.
  intros Hr s. induction s as [s IH] using list_length_ind.
  destruct s as [|c t]; [simpl; lia|].
  destruct (match_here (One p :: pat) (c :: t)) as [rest|] eqn:E.
  - rewrite (sub_match p pat repl (c :: t) rest E).
    pose proof (match_one_length p pat (c :: t) rest E) as Hlt.
    specialize (IH rest Hlt). rewrite length_app. lia.
  - rewrite (sub_nomatch _ repl c t E).
    specialize (IH t (Nat.lt_succ_diag_r _)). simpl. simpl in IH. lia.
Qed.

Lemma strip_length s : length (strip s) <= length s.
Proof.
  unfold strip.
  destruct (rstrip_prefix (lstrip s)) as [ws E].
  pose proof (lstrip_length s) as Hl.
  rewrite E in Hl at 1. rewrite length_app in Hl. lia.
Qed.

(** X18. The sanitizer never lengthens a comment. *)
Theorem clean_escape_characters_length (s : pystr) :
  length (clean_escape_characters s) <= length s.
Proof.
  rewrite Sanitizer.clean_steps.
  etransitivity; [apply strip_length|].
  unfold plus, pat_esc, pat_u4, pat_U8.
  repeat (etransitivity; [apply sub_length; simpl; lia|]).
  apply Nat.le_refl.
Qed.

(** X19. Of a run of commas in front of a closing bracket or brace the
    repair removes the last one only: the result of one pass can still hold a
    trailing comma, which a second pass removes. *)
Theorem fix_trailing_commas_comma_run (k : nat) (c : char) (t : pystr) :
  is_closer c = true ->
  fix_trailing_commas (repeat (chr ",") (S k) ++ c :: t)
  = repeat (chr ",") k ++ c :: fix_trailing_commas t
  /\ has_trailing_comma (fix_trailing_commas (repeat (chr ",") (S (S k)) ++ c :: t)) = true.
Proof.
  intro Hc.
  assert (Hsp : is_space c = false).
  { unfold is_closer in Hc. apply orb_true_iff in Hc.
    destruct Hc as [Hc|Hc]; apply N.eqb_eq in Hc; subst c; reflexivity. }
  assert (Hcm : is_chr "," c = false).
  { unfold is_closer in Hc. apply orb_true_iff in Hc.
    destruct Hc as [Hc|Hc]; apply N.eqb_eq in Hc; subst c; reflexivity. }
  assert (Hrun : forall n,
             trailing_removed is_closer (repeat (chr ",") (S n) ++ c :: t)
             = repeat (chr ",") n ++ c :: trailing_removed is_closer t).
  { induction n as [|n IH].
    - cbn [repeat app trailing_removed].
      change (is_chr "," (chr ",")) with true. cbn [andb].
      unfold closes_with. cbn [lstrip]. rewrite Hsp, Hc, Hcm. cbn [andb].
      cbn [lstrip]. rewrite Hsp. reflexivity.
    - change (repeat (chr ",") (S (S n)) ++ c :: t)
        with (chr "," :: (repeat (chr ",") (S n) ++ c :: t)).
      cbn [trailing_removed]. rewrite IH.
      replace (closes_with is_closer (repeat (chr ",") (S n) ++ c :: t)) with false
        by reflexivity.
      rewrite andb_false_r. reflexivity. }
  rewrite !Repair.fix_trailing_commas_removed. split; [apply Hrun|].
  rewrite Hrun. generalize (trailing_removed is_closer t). intro u.
  induction k as [|k IH].
  - cbn [repeat app has_trailing_comma].
    change (is_chr "," (chr ",")) with true.
    unfold closes_with. cbn [lstrip]. rewrite Hsp, Hc. reflexivity.
  - change (repeat (chr ",") (S (S k)) ++ c :: u)
      with (chr "," :: (repeat (chr ",") (S k) ++ c :: u)).
    cbn [has_trailing_comma]. rewrite IH. apply orb_true_r.
Qed.

Lemma fix_trailing_commas_comma_run_witness :
  is_closer (chr "]") = true
  /\ fix_trailing_commas (str "[1,,,]") = str "[1,,]"
  /\ fix_trailing_commas (fix_trailing_commas (str "[1,,]")) = str "[1]"
  /\ fix_trailing_commas (repeat (chr ",") 3 ++ chr "]" :: str "}")
     = repeat (chr ",") 2 ++ chr "]" :: fix_trailing_commas (str "}").
Proof.
  destruct (fix_trailing_commas_comma_run 2 (chr "]") (str "}") eq_refl) as [H _].
  split; [reflexivity|]. split; [reflexivity|]. split; [reflexivity|exact H].
Defined.

(** X20. The batcher with a chunk size that is not positive: zero is an
    error, and a negative size gives no chunk at all, so that every comment
    is dropped without an error. *)
Theorem split_comments_not_positive (comments : list json) (K : Z) :
  (K <= 0)%Z ->
  split_comments (JArr comments) K = (if (K =? 0)%Z then None else Some []).
Proof.
  intro HK. unfold split_comments, py_range. cbn [py_len].
  destruct (Z.eqb_spec K 0) as [->|Hne]; [reflexivity|].
  destruct (Z.ltb_spec 0 K) as [Hpos|_]; [lia|].
  replace (Z.to_nat (0 - Z.of_nat (length comments))) with 0 by lia.
  reflexivity.
Qed.

Lemma split_comments_not_positive_witness :
  (-5 <= 0)%Z
  /\ split_comments (JArr [JInt 1; JInt 2; JInt 3]) (-5) = Some []
  /\ split_comments (JArr [JInt 1; JInt 2; JInt 3]) 0 = None.
Proof.
  split; [discriminate|].
  split.
  - exact (split_comments_not_positive [JInt 1; JInt 2; JInt 3] (-5) ltac:(discriminate)).
  - reflexivity.
Defined.

End Bounds.
